(** * CLIProxyAPIPlus: the OpenAI -> Antigravity request translator and the
      SQLite usage persistence pipeline.

    The development embeds
      internal/translator/antigravity/openai/chat-completions/antigravity_openai_request.go
      internal/usage (SQLite store, persistence plugin, EnablePersistence)
    as Rocq functions and states the properties of the specification over
    them. *)

From Stdlib Require Import ZArith Ascii String List Bool Lia Decimal DecimalString.
From stdpp Require Import base option list gmap strings sorting.

Local Open Scope string_scope.
Local Open Scope Z_scope.

(** ** JSON values

    Requests are JSON documents.  A number keeps its literal, as gjson keeps
    [Raw]; an object keeps the order of its members and its duplicate keys.
    [JRaw] is text spliced verbatim by [sjson.SetRaw]. *)

#[warnings="-register-all"]
Inductive json : Type :=
| JNull
| JBool (b : bool)
| JNum (raw : string)
| JStr (s : string)
| JArr (items : list json)
| JObj (members : list (string * json))
| JRaw (text : string).

Module Text.

(** Character constants. *)
Definition dquote : ascii := Ascii.ascii_of_nat 34.
Definition bslash : ascii := Ascii.ascii_of_nat 92.
Definition comma : ascii := Ascii.ascii_of_nat 44.
Definition colon : ascii := Ascii.ascii_of_nat 58.
Definition lbrace : ascii := Ascii.ascii_of_nat 123.
Definition rbrace : ascii := Ascii.ascii_of_nat 125.
Definition lbrack : ascii := Ascii.ascii_of_nat 91.
Definition rbrack : ascii := Ascii.ascii_of_nat 93.
Definition space : ascii := Ascii.ascii_of_nat 32.

Definition ch (c : ascii) : string := String c EmptyString.

(** [strings.HasPrefix]. *)
Fixpoint hasPrefix (p s : string) : bool :=
  match p with
  | EmptyString => true
  | String a p' =>
      match s with
      | EmptyString => false
      | String b s' => if Ascii.eqb a b then hasPrefix p' s' else false
      end
  end.

(** Drop the first [n] characters: the Go slice [s[n:]] (for [n <= len s]). *)
Fixpoint dropStr (n : nat) (s : string) : string :=
  match n with
  | O => s
  | S n' => match s with EmptyString => EmptyString | String _ s' => dropStr n' s' end
  end.

(** [strings.Contains]. *)
Fixpoint contains (sub s : string) : bool :=
  if hasPrefix sub s then true
  else match s with
       | EmptyString => false
       | String _ s' => contains sub s'
       end.

(** ASCII lower-casing, [strings.ToLower] on ASCII text. *)
Definition lowerChar (c : ascii) : ascii :=
  let n := Ascii.nat_of_ascii c in
  if (Nat.leb 65 n && Nat.leb n 90)%bool then Ascii.ascii_of_nat (n + 32) else c.

Fixpoint toLower (s : string) : string :=
  match s with
  | EmptyString => EmptyString
  | String c s' => String (lowerChar c) (toLower s')
  end.

(** The regexp class [\s]: tab, newline, form feed, carriage return, space. *)
Definition isSpaceRe (c : ascii) : bool :=
  let n := Ascii.nat_of_ascii c in
  (Nat.eqb n 9 || Nat.eqb n 10 || Nat.eqb n 12 || Nat.eqb n 13 || Nat.eqb n 32)%bool.

(** Number of leading [\s] characters; [\s*] is greedy and what follows it in
    the pattern is never a space, so the greedy choice is the only one. *)
Fixpoint spanSpaces (s : string) : nat :=
  match s with
  | String c s' => if isSpaceRe c then S (spanSpaces s') else O
  | EmptyString => O
  end.

(** [strings.ReplaceAll s old new] for a non-empty [old]: scan from the left,
    replace each non-overlapping occurrence.  [skip] counts the characters of
    the current occurrence still to be passed over. *)
Fixpoint replaceAllFrom (skip : nat) (old new s : string) : string :=
  match s with
  | EmptyString => EmptyString
  | String c s' =>
      match skip with
      | S k => replaceAllFrom k old new s'
      | O =>
          if hasPrefix old s
          then new ++ replaceAllFrom (Nat.pred (String.length old)) old new s'
          else String c (replaceAllFrom O old new s')
      end
  end.

Definition replaceAll (s old new : string) : string := replaceAllFrom O old new s.

End Text.

(** ** cleanToolSchema *)

Definition additionalPropsKey : string := "additionalProperties".

(** The quoted key ["additionalProperties"] the regular expression starts with. *)
Definition additionalPropsLit : string :=
  String Text.dquote (additionalPropsKey ++ Text.ch Text.dquote).

(** Length of the match of
    ["additionalProperties"\s*:\s*(true|false)\s*,?]
    at the start of [s], if there is one. *)
Definition additionalPropsRegex (s : string) : option nat :=
  if Text.hasPrefix additionalPropsLit s then
    let n0 := String.length additionalPropsLit in
    let s1 := Text.dropStr n0 s in
    let w1 := Text.spanSpaces s1 in
    match Text.dropStr w1 s1 with
    | String c s2 =>
        if Ascii.eqb c Text.colon then
          let w2 := Text.spanSpaces s2 in
          let s3 := Text.dropStr w2 s2 in
          let lit :=
            if Text.hasPrefix "true" s3 then Some 4%nat
            else if Text.hasPrefix "false" s3 then Some 5%nat
            else None in
          match lit with
          | Some l =>
              let s4 := Text.dropStr l s3 in
              let w3 := Text.spanSpaces s4 in
              let c3 := if Text.hasPrefix (Text.ch Text.comma) (Text.dropStr w3 s4)
                        then 1%nat else 0%nat in
              Some (n0 + w1 + 1 + w2 + l + w3 + c3)%nat
          | None => None
          end
        else None
    | EmptyString => None
    end
  else None.

(** [additionalPropsRegex.ReplaceAllString(s, "")]: leftmost matches, one after
    the other, none overlapping; a match is never empty. *)
Fixpoint removeAdditionalProps (skip : nat) (s : string) : string :=
  match s with
  | EmptyString => EmptyString
  | String c s' =>
      match skip with
      | S k => removeAdditionalProps k s'
      | O =>
          match additionalPropsRegex s with
          | Some n => removeAdditionalProps (Nat.pred n) s'
          | None => String c (removeAdditionalProps O s')
          end
      end
  end.

Definition cleanToolSchema (schema : string) : string :=
  let cleaned := removeAdditionalProps O schema in
  let cleaned := Text.replaceAll cleaned ",}" "}" in
  let cleaned := Text.replaceAll cleaned ", }" "}" in
  cleaned.


(** ** Rendering: the raw text of a value

    gjson hands out the raw text of a value ([Result.Raw]) and sjson splices
    raw text back.  The raw text of a value of the model is its compact
    serialisation: the client is taken to send minified JSON. *)

Module Json.

Definition quote (s : string) : string :=
  String Text.dquote (s ++ Text.ch Text.dquote).

(** String escaping: the quote, the backslash and the line feed. *)
Fixpoint escape (s : string) : string :=
  match s with
  | EmptyString => EmptyString
  | String c s' =>
      if Ascii.eqb c Text.dquote then String Text.bslash (String Text.dquote (escape s'))
      else if Ascii.eqb c Text.bslash then String Text.bslash (String Text.bslash (escape s'))
      else if Ascii.eqb c (Ascii.ascii_of_nat 10) then String Text.bslash (String "n" (escape s'))
      else String c (escape s')
  end.

Fixpoint sepBy (sep : string) (xs : list string) : string :=
  match xs with
  | [] => EmptyString
  | [x] => x
  | x :: xs' => x ++ sep ++ sepBy sep xs'
  end.

Fixpoint render (j : json) : string :=
  match j with
  | JNull => "null"
  | JBool true => "true"
  | JBool false => "false"
  | JNum raw => raw
  | JStr s => quote (escape s)
  | JArr xs => "[" ++ sepBy "," (List.map render xs) ++ "]"
  | JObj ms =>
      "{" ++ sepBy "," (List.map (fun kv => quote (escape (fst kv)) ++ ":" ++ render (snd kv)) ms) ++ "}"
  | JRaw t => t
  end.

(** [itoa], as in the source: [fmt.Sprintf("%d", i)] for a non-negative [i]. *)
Definition itoa (i : nat) : string := NilZero.string_of_uint (Nat.to_uint i).

(** *** Paths

    A gjson/sjson path is a dotted string; the model keeps it parsed.
    ["parts."+itoa(p)+".text"] is [[Key "parts"; Idx p; Key "text"]] and the
    component [-1] is [Append]. *)
Inductive seg : Type :=
| Key (k : string)
| Idx (n : nat)
| Append.

Definition path := list seg.

(** The key a component stands for when the value it meets is an object. *)
Definition segKey (s : seg) : string :=
  match s with
  | Key k => k
  | Idx n => itoa n
  | Append => "-1"
  end.

Fixpoint lookupKey (k : string) (ms : list (string * json)) : option json :=
  match ms with
  | [] => None
  | (k', v) :: ms' => if String.eqb k k' then Some v else lookupKey k ms'
  end.

(** *** gjson.Get: [None] is the result that does not exist. *)
Definition getSeg (s : seg) (j : json) : option json :=
  match j with
  | JObj ms => lookupKey (segKey s) ms
  | JArr xs => match s with Idx n => nth_error xs n | _ => None end
  | _ => None
  end.

Fixpoint gjsonGet (j : json) (p : path) : option json :=
  match p with
  | [] => Some j
  | s :: p' => match getSeg s j with
               | Some v => gjsonGet v p'
               | None => None
               end
  end.

(** *** sjson.Set *)

(** The value sjson builds for the part of a path that does not exist yet. *)
Fixpoint build (p : path) (v : json) : json :=
  match p with
  | [] => v
  | Key k :: p' => JObj [(k, build p' v)]
  | Idx n :: p' => JArr (repeat JNull n ++ [build p' v])
  | Append :: p' => JArr [build p' v]
  end.

(** Apply [f] to the first member called [k]; [None] when there is none. *)
Fixpoint updFirst (k : string) (f : json -> option json) (ms : list (string * json))
  : option (option (list (string * json))) :=
  match ms with
  | [] => None
  | (k', v) :: ms' =>
      if String.eqb k k' then
        Some (match f v with Some v' => Some ((k', v') :: ms') | None => None end)
      else
        match updFirst k f ms' with
        | Some (Some r) => Some (Some ((k', v) :: r))
        | Some None => Some None
        | None => None
        end
  end.

Fixpoint updNth (n : nat) (f : json -> option json) (xs : list json) : option (list json) :=
  match xs, n with
  | [], _ => None
  | x :: xs', O => match f x with Some x' => Some (x' :: xs') | None => None end
  | x :: xs', S n' => match updNth n' f xs' with Some r => Some (x :: r) | None => None end
  end.

(** [sjson.Set]/[sjson.SetRaw] with the value given as a tree.  [None] is the
    error result (a key component met an array). *)
Fixpoint sjsonSet (j : json) (p : path) (v : json) {struct p} : option json :=
  match p with
  | [] => Some v
  | s :: p' =>
      match j with
      | JObj ms =>
          match updFirst (segKey s) (fun x => sjsonSet x p' v) ms with
          | Some (Some r) => Some (JObj r)
          | Some None => None
          | None => Some (JObj (ms ++ [(segKey s, build p' v)]))
          end
      | JArr xs =>
          match s with
          | Key _ => None
          | Append => Some (JArr (xs ++ [build p' v]))
          | Idx n =>
              if Nat.ltb n (List.length xs)
              then match updNth n (fun x => sjsonSet x p' v) xs with
                   | Some r => Some (JArr r)
                   | None => None
                   end
              else Some (JArr (xs ++ repeat JNull (n - List.length xs) ++ [build p' v]))
          end
      | _ => Some (build (s :: p') v)
      end
  end.

(** The result the source keeps when it drops the error ([out, _ = ...]):
    on an error sjson returns no bytes. *)
Definition orEmpty (r : option json) : json :=
  match r with
  | Some j => j
  | None => JRaw EmptyString
  end.

Definition set (j : json) (p : path) (v : json) : json := orEmpty (sjsonSet j p v).

(** *** sjson.Delete: no change when the path does not exist. *)
Fixpoint removeFirst (k : string) (ms : list (string * json)) : list (string * json) :=
  match ms with
  | [] => []
  | (k', v) :: ms' => if String.eqb k k' then ms' else (k', v) :: removeFirst k ms'
  end.

Fixpoint mapFirst (k : string) (f : json -> json) (ms : list (string * json))
  : list (string * json) :=
  match ms with
  | [] => []
  | (k', v) :: ms' => if String.eqb k k' then (k', f v) :: ms' else (k', v) :: mapFirst k f ms'
  end.

Fixpoint removeNth (n : nat) (xs : list json) : list json :=
  match xs, n with
  | [], _ => []
  | _ :: xs', O => xs'
  | x :: xs', S n' => x :: removeNth n' xs'
  end.

Fixpoint mapNth (n : nat) (f : json -> json) (xs : list json) : list json :=
  match xs, n with
  | [], _ => []
  | x :: xs', O => f x :: xs'
  | x :: xs', S n' => x :: mapNth n' f xs'
  end.

Fixpoint sjsonDelete (j : json) (p : path) {struct p} : json :=
  match p with
  | [] => j
  | [s] =>
      match j with
      | JObj ms => JObj (removeFirst (segKey s) ms)
      | JArr xs =>
          match s with
          | Idx n => JArr (removeNth n xs)
          | Append => JArr (removelast xs)
          | Key _ => j
          end
      | _ => j
      end
  | s :: p' =>
      match j with
      | JObj ms => JObj (mapFirst (segKey s) (fun x => sjsonDelete x p') ms)
      | JArr xs =>
          match s with
          | Idx n => JArr (mapNth n (fun x => sjsonDelete x p') xs)
          | _ => j
          end
      | _ => j
      end
  end.

(** *** Accessors of a gjson result *)

Definition exists_ (r : option json) : bool :=
  match r with Some _ => true | None => false end.

Definition isArray (r : option json) : bool :=
  match r with Some (JArr _) => true | _ => false end.


Definition isNumber (r : option json) : bool :=
  match r with Some (JNum _) => true | _ => false end.

Definition isString (r : option json) : bool :=
  match r with Some (JStr _) => true | _ => false end.

(** [Result.Raw]. *)
Definition raw (r : option json) : string :=
  match r with Some v => render v | None => EmptyString end.

(** [Result.Array()] on a result that [IsArray]. *)
Definition array (r : option json) : list json :=
  match r with
  | Some (JArr xs) => xs
  | Some JNull | None => []
  | Some v => [v]
  end.

End Json.

(** ** What the translator takes from outside its file

    The helpers of [internal/util], [internal/misc] and
    [internal/translator/gemini/common], and the parts of gjson, sjson and
    strconv that work on floating point numbers or validate text, are not
    among the translated sources.  The translator is stated for any of them. *)

Class Externals : Type := {
  (** [strconv.FormatFloat(f, 'f', -1, 64)] of the float64 a number literal denotes *)
  formatFloat64 : string -> string;
  (** gjson [Result.Int()] *)
  resultInt : json -> Z;
  (** gjson [Result.Bool()] *)
  resultBool : json -> bool;
  (** [gjson.Valid] *)
  gjsonValid : string -> bool;
  (** [util.ModelSupportsThinking] *)
  ModelSupportsThinking : string -> bool;
  (** [util.IsGemini3Model] *)
  IsGemini3Model : string -> bool;
  (** [util.ModelUsesThinkingLevels] *)
  ModelUsesThinkingLevels : string -> bool;
  (** [util.ValidateGemini3ThinkingLevel]: the level and the [ok] flag *)
  ValidateGemini3ThinkingLevel : string -> string -> string * bool;
  (** [util.ApplyGeminiCLIThinkingLevel] *)
  ApplyGeminiCLIThinkingLevel : json -> string -> option bool -> json;
  (** [util.ApplyReasoningEffortToGeminiCLI] *)
  ApplyReasoningEffortToGeminiCLI : json -> string -> json;
  (** [misc.MimeTypes] *)
  MimeTypes : gmap string string;
  (** the default safety settings of [common.AttachDefaultSafetySettings] *)
  defaultSafetySettings : json
}.

(** ** The random source

    [crypto/rand] is an oracle the translator reads from the left; [pos]
    counts the draws made so far. *)
Record rng : Type := mkRng { oracle : nat -> nat; pos : nat }.

(** [rand.Int(rand.Reader, max)]: a number below [max]. *)
Definition randInt (max : nat) (r : rng) : nat * rng :=
  ((oracle r (pos r) mod max)%nat, mkRng (oracle r) (S (pos r))).

Module Translator.
Import Json.

Section WithExternals.
Context `{Ext : Externals}.

(** [Result.String()]. *)
Fixpoint isDigits (s : string) : bool :=
  match s with
  | EmptyString => true
  | String c s' =>
      let n := Ascii.nat_of_ascii c in
      (Nat.leb 48 n && Nat.leb n 57 && isDigits s')%bool
  end.

Definition numberString (raw : string) : string :=
  let digits := match raw with
                | String c s' => if Ascii.eqb c "-" then s' else raw
                | EmptyString => raw
                end in
  if isDigits digits then raw else formatFloat64 raw.

Definition str (r : option json) : string :=
  match r with
  | Some (JStr s) => s
  | Some (JNum raw) => numberString raw
  | Some (JBool true) => "true"
  | Some (JBool false) => "false"
  | Some JNull => EmptyString
  | Some v => render v
  | None => EmptyString
  end.

(** [strings.TrimSpace] on ASCII text. *)
Definition isSpaceGo (c : ascii) : bool :=
  let n := Ascii.nat_of_ascii c in
  ((Nat.leb 9 n && Nat.leb n 13) || Nat.eqb n 32)%bool.

Fixpoint trimLeft (s : string) : string :=
  match s with
  | String c s' => if isSpaceGo c then trimLeft s' else s
  | EmptyString => EmptyString
  end.

Fixpoint trimRight (s : string) : string :=
  match s with
  | EmptyString => EmptyString
  | String c s' =>
      match trimRight s' with
      | EmptyString => if isSpaceGo c then EmptyString else Text.ch c
      | r => String c r
      end
  end.

Definition trimSpace (s : string) : string := trimRight (trimLeft s).

(** Decimal text of an [int], as sjson writes it. *)
Definition ztoa (z : Z) : string := NilZero.string_of_int (Z.to_int z).

(** *** genToolCallID *)

Definition letters : string :=
  "abcdefghijklmnopqrstuvwxyzABCDEFGHIJKLMNOPQRSTUVWXYZ0123456789".

Definition letterAt (n : nat) : ascii :=
  match String.get n letters with
  | Some c => c
  | None => "a"%char
  end.

Fixpoint genLetters (n : nat) (r : rng) : string * rng :=
  match n with
  | O => (EmptyString, r)
  | S n' =>
      let (k, r1) := randInt (String.length letters) r in
      let (s, r2) := genLetters n' r1 in
      (String (letterAt k) s, r2)
  end.

Definition genToolCallID (r : rng) : string * rng :=
  let (s, r') := genLetters 24 r in
  ("toolu_" ++ s, r').

Definition includeToolIDs (modelName : string) : bool :=
  Text.contains "claude" (Text.toLower modelName).

(** *** Reasoning effort, thinking_config and thinking *)

Definition thinkingConfigPath : path :=
  [Key "request"; Key "generationConfig"; Key "thinkingConfig"].
Definition thinkingBudgetPath : path := (thinkingConfigPath ++ [Key "thinkingBudget"])%list.
Definition includeThoughtsPath : path := (thinkingConfigPath ++ [Key "include_thoughts"])%list.

Definition hasOfficialThinking (rawJSON : json) : bool :=
  exists_ (gjsonGet rawJSON [Key "reasoning_effort"]).

(** Lines 67-86: the official [reasoning_effort] field. *)
Definition applyReasoningEffort (modelName : string) (rawJSON out : json) : json :=
  let re := gjsonGet rawJSON [Key "reasoning_effort"] in
  if (hasOfficialThinking rawJSON && ModelSupportsThinking modelName)%bool then
    let effort := Text.toLower (trimSpace (str re)) in
    if IsGemini3Model modelName then
      if String.eqb effort "none" then sjsonDelete out thinkingConfigPath
      else if String.eqb effort "auto" then ApplyGeminiCLIThinkingLevel out EmptyString (Some true)
      else
        let (level, ok) := ValidateGemini3ThinkingLevel modelName effort in
        if ok then ApplyGeminiCLIThinkingLevel out level None else out
    else if negb (ModelUsesThinkingLevels modelName) then
      ApplyReasoningEffortToGeminiCLI out effort
    else out
  else out.

(** Lines 88-113: the extension [extra_body.google.thinking_config]. *)
Definition applyThinkingConfigExtension (modelName : string) (rawJSON out : json) : json :=
  if (negb (hasOfficialThinking rawJSON) && ModelSupportsThinking modelName
      && negb (ModelUsesThinkingLevels modelName))%bool then
    match gjsonGet rawJSON [Key "extra_body"; Key "google"; Key "thinking_config"] with
    | Some (JObj ms as tc) =>
        let '(out, setBudget, budget) :=
          match gjsonGet tc [Key "thinkingBudget"] with
          | Some v => (set out thinkingBudgetPath (JNum (ztoa (resultInt v))), true, resultInt v)
          | None =>
              match gjsonGet tc [Key "thinking_budget"] with
              | Some v => (set out thinkingBudgetPath (JNum (ztoa (resultInt v))), true, resultInt v)
              | None => (out, false, 0%Z)
              end
          end in
        match gjsonGet tc [Key "includeThoughts"] with
        | Some v => set out includeThoughtsPath (JBool (resultBool v))
        | None =>
            match gjsonGet tc [Key "include_thoughts"] with
            | Some v => set out includeThoughtsPath (JBool (resultBool v))
            | None =>
                if (setBudget && negb (Z.eqb budget 0))%bool
                then set out includeThoughtsPath (JBool true)
                else out
            end
        end
    | _ => out
    end
  else out.

(** Lines 115-127: the Anthropic form [thinking: {type: "enabled", budget_tokens}]. *)
Definition applyAnthropicThinking (modelName : string) (rawJSON out : json) : json :=
  if (negb (exists_ (gjsonGet out thinkingConfigPath)) && ModelSupportsThinking modelName)%bool then
    match gjsonGet rawJSON [Key "thinking"] with
    | Some (JObj ms as t) =>
        if String.eqb (str (gjsonGet t [Key "type"])) "enabled" then
          match gjsonGet t [Key "budget_tokens"] with
          | Some (JNum n as b) =>
              let out := set out thinkingBudgetPath (JNum (ztoa (resultInt b))) in
              set out includeThoughtsPath (JBool true)
          | _ => out
          end
        else out
    | _ => out
    end
  else out.

(** *** Lines 129-169: generation parameters *)

Definition generationConfigPath (k : string) : path :=
  [Key "request"; Key "generationConfig"; Key k].

Definition copyNumber (rawJSON : json) (from to : string) (out : json) : json :=
  match gjsonGet rawJSON [Key from] with
  | Some (JNum n) => set out (generationConfigPath to) (JNum (formatFloat64 n))
  | _ => out
  end.

Definition responseModalities (mods : list json) : list json :=
  flat_map (fun m =>
    let s := Text.toLower (str (Some m)) in
    if String.eqb s "text" then [JStr "TEXT"]
    else if String.eqb s "image" then [JStr "IMAGE"]
    else []) mods.

Definition applyModalities (rawJSON out : json) : json :=
  match gjsonGet rawJSON [Key "modalities"] with
  | Some (JArr mods) =>
      match responseModalities mods with
      | [] => out
      | rs => set out (generationConfigPath "responseModalities") (JArr rs)
      end
  | _ => out
  end.

Definition imageConfigPath (k : string) : path :=
  [Key "request"; Key "generationConfig"; Key "imageConfig"; Key k].

Definition applyImageConfig (rawJSON out : json) : json :=
  match gjsonGet rawJSON [Key "image_config"] with
  | Some (JObj ms as imgCfg) =>
      let out := match gjsonGet imgCfg [Key "aspect_ratio"] with
                 | Some (JStr ar) => set out (imageConfigPath "aspectRatio") (JStr ar)
                 | _ => out
                 end in
      match gjsonGet imgCfg [Key "image_size"] with
      | Some (JStr size) => set out (imageConfigPath "imageSize") (JStr size)
      | _ => out
      end
  | _ => out
  end.

(** *** Lines 172-222: the two passes that collect names and tool responses *)

Definition noteName (id name : string) (tcID2Name : gmap string string) : gmap string string :=
  if (negb (String.eqb id EmptyString) && negb (String.eqb name EmptyString))%bool
  then <[id := name]> tcID2Name
  else tcID2Name.

Definition isFunctionCallType (tcType : string) : bool :=
  (String.eqb tcType "function" || String.eqb tcType EmptyString)%bool.

Definition collectNamesOfMessage (tcID2Name : gmap string string) (m : json)
  : gmap string string :=
  if String.eqb (str (gjsonGet m [Key "role"])) "assistant" then
    let tcs := gjsonGet m [Key "tool_calls"] in
    let tcID2Name :=
      if isArray tcs then
        fold_left (fun acc tc =>
          if isFunctionCallType (str (gjsonGet tc [Key "type"]))
          then noteName (str (gjsonGet tc [Key "id"]))
                        (str (gjsonGet tc [Key "function"; Key "name"])) acc
          else acc) (array tcs) tcID2Name
      else tcID2Name in
    let content := gjsonGet m [Key "content"] in
    if isArray content then
      fold_left (fun acc item =>
        if String.eqb (str (gjsonGet item [Key "type"])) "tool_use"
        then noteName (str (gjsonGet item [Key "id"])) (str (gjsonGet item [Key "name"])) acc
        else acc) (array content) tcID2Name
    else tcID2Name
  else tcID2Name.

Definition collectNames (arr : list json) : gmap string string :=
  fold_left collectNamesOfMessage arr ∅.

Definition collectToolResponses (arr : list json) : gmap string string :=
  fold_left (fun acc m =>
    if String.eqb (str (gjsonGet m [Key "role"])) "tool" then
      let toolCallID := str (gjsonGet m [Key "tool_call_id"]) in
      if negb (String.eqb toolCallID EmptyString)
      then <[toolCallID := raw (gjsonGet m [Key "content"])]> acc
      else acc
    else acc) arr ∅.

(** *** Parts of a content node *)

Definition partPath (p : nat) (keys : list string) : path :=
  Key "parts" :: Idx p :: List.map Key keys.

(** [strings.SplitN(s, ";", 2)]: the text before the first [;] and, when there
    is one, the text after it. *)
Fixpoint splitN2 (s : string) : string * option string :=
  match s with
  | EmptyString => (EmptyString, None)
  | String c s' =>
      if Ascii.eqb c ";" then (EmptyString, Some s')
      else let (a, b) := splitN2 s' in (String c a, b)
  end.

(** Lines 259-270 and 351-363, the same code in the user and in the assistant
    branch: an [image_url] item. *)
Definition imageURLPart (node : json) (p : nat) (item : json) : json * nat :=
  let imageURL := str (gjsonGet item [Key "image_url"; Key "url"]) in
  if Nat.ltb 5 (String.length imageURL) then
    match splitN2 (Text.dropStr 5 imageURL) with
    | (mime, Some rest) =>
        if Nat.ltb 7 (String.length rest) then
          let data := Text.dropStr 7 rest in
          let node := set node (partPath p ["inlineData"; "mime_type"]) (JStr mime) in
          let node := set node (partPath p ["inlineData"; "data"]) (JStr data) in
          (node, S p)
        else (node, p)
    | (_, None) => (node, p)
    end
  else (node, p).

(** The extension of a file name: the text after its last dot, empty when
    there is no dot. *)
Fixpoint afterLastDot (s : string) : option string :=
  match s with
  | EmptyString => None
  | String c s' =>
      match afterLastDot s' with
      | Some e => Some e
      | None => if Ascii.eqb c "." then Some s' else None
      end
  end.

Definition filePart (node : json) (p : nat) (item : json) : json * nat :=
  let filename := str (gjsonGet item [Key "file"; Key "filename"]) in
  let fileData := str (gjsonGet item [Key "file"; Key "file_data"]) in
  let ext := match afterLastDot filename with Some e => e | None => EmptyString end in
  match MimeTypes !! ext with
  | Some mimeType =>
      let node := set node (partPath p ["inlineData"; "mime_type"]) (JStr mimeType) in
      let node := set node (partPath p ["inlineData"; "data"]) (JStr fileData) in
      (node, S p)
  | None => (node, p)
  end.

Definition toolResultContent (c : option json) : string :=
  if isArray c then
    fold_left (fun acc sub =>
      if String.eqb (str (gjsonGet sub [Key "type"])) "text"
      then acc ++ str (gjsonGet sub [Key "text"])
      else acc) (array c) EmptyString
  else str c.

Definition toolResultPart (incl : bool) (tcID2Name : gmap string string)
    (node : json) (p : nat) (item : json) : json * nat :=
  let toolID := str (gjsonGet item [Key "tool_use_id"]) in
  let contentStr := toolResultContent (gjsonGet item [Key "content"]) in
  match tcID2Name !! toolID with
  | Some name =>
      let toolNode := JObj [] in
      let toolNode := set toolNode [Key "functionResponse"; Key "name"] (JStr name) in
      let toolNode :=
        if (incl && negb (String.eqb toolID EmptyString))%bool
        then set toolNode [Key "functionResponse"; Key "id"] (JStr toolID)
        else toolNode in
      let toolNode :=
        set toolNode [Key "functionResponse"; Key "response"; Key "result"] (JStr contentStr) in
      (set node [Key "parts"; Idx p] toolNode, S p)
  | None => (node, p)
  end.

(** One item of a user message whose content is an array (lines 254-333). *)
Definition userItem (incl : bool) (tcID2Name : gmap string string)
    (st : json * nat) (item : json) : json * nat :=
  let (node, p) := st in
  let ty := str (gjsonGet item [Key "type"]) in
  if String.eqb ty "text" then
    (set node (partPath p ["text"]) (JStr (str (gjsonGet item [Key "text"]))), S p)
  else if String.eqb ty "image_url" then imageURLPart node p item
  else if String.eqb ty "file" then filePart node p item
  else if String.eqb ty "tool_result" then toolResultPart incl tcID2Name node p item
  else (node, p).

Definition userNode (incl : bool) (tcID2Name : gmap string string) (content : option json) : json :=
  let node := JObj [("role", JStr "user"); ("parts", JArr [])] in
  match content with
  | Some (JStr s) => set node (partPath 0 ["text"]) (JStr s)
  | Some (JArr items) => fst (fold_left (userItem incl tcID2Name) items (node, O))
  | _ => node
  end.

(** The [functionCall.args] of a call: the arguments spliced raw when they
    are valid JSON, kept as text under [params] otherwise. *)
Definition setArgs (node : json) (prefix : path) (fargs : string) : json :=
  if gjsonValid fargs
  then set node (prefix ++ [Key "functionCall"; Key "args"])%list (JRaw fargs)
  else set node (prefix ++ [Key "functionCall"; Key "args"; Key "params"])%list (JStr fargs).

(** An Anthropic [tool_use] item of an assistant message (lines 364-387). *)
Definition toolUsePart (incl : bool) (node : json) (p : nat) (r : rng) (item : json)
  : json * nat * rng :=
  let fname := str (gjsonGet item [Key "name"]) in
  let fargs := raw (gjsonGet item [Key "input"]) in
  let fid := str (gjsonGet item [Key "id"]) in
  let (fid, r) :=
    if (incl && String.eqb fid EmptyString)%bool then genToolCallID r else (fid, r) in
  let fcNode := JObj [] in
  let fcNode := set fcNode [Key "functionCall"; Key "name"] (JStr fname) in
  let fcNode :=
    if (incl && negb (String.eqb fid EmptyString))%bool
    then set fcNode [Key "functionCall"; Key "id"] (JStr fid)
    else fcNode in
  let fcNode := setArgs fcNode [] fargs in
  (set node [Key "parts"; Idx p] fcNode, S p, r).

(** One item of an assistant message whose content is an array (lines 346-389). *)
Definition assistantItem (incl : bool) (st : json * nat * rng) (item : json)
  : json * nat * rng :=
  let '(node, p, r) := st in
  let ty := str (gjsonGet item [Key "type"]) in
  if String.eqb ty "text" then
    (set node (partPath p ["text"]) (JStr (str (gjsonGet item [Key "text"]))), S p, r)
  else if String.eqb ty "image_url" then
    let (node, p) := imageURLPart node p item in (node, p, r)
  else if String.eqb ty "tool_use" then toolUsePart incl node p r item
  else (node, p, r).

(** The state of the loop over [tool_calls] (lines 395-425). *)
Record callState : Type := mkCallState {
  csNode : json;
  csP : nat;
  csNames : gmap string string;
  csRng : rng;
  csFIDs : list string
}.

Definition toolCall (incl : bool) (st : callState) (tc : json) : callState :=
  if negb (isFunctionCallType (str (gjsonGet tc [Key "type"]))) then st
  else
    let p := csP st in
    let fid := str (gjsonGet tc [Key "id"]) in
    let fname := str (gjsonGet tc [Key "function"; Key "name"]) in
    let fargs := str (gjsonGet tc [Key "function"; Key "arguments"]) in
    let (fid, r) :=
      if (incl && String.eqb fid EmptyString)%bool then genToolCallID (csRng st)
      else (fid, csRng st) in
    let node := set (csNode st) (partPath p ["functionCall"; "name"]) (JStr fname) in
    let (node, names) :=
      if (incl && negb (String.eqb fid EmptyString))%bool then
        (set node (partPath p ["functionCall"; "id"]) (JStr fid),
         if negb (String.eqb fname EmptyString) then <[fid := fname]> (csNames st)
         else csNames st)
      else (node, csNames st) in
    let node := setArgs node [Key "parts"; Idx p] fargs in
    mkCallState node (S p) names r
      (if negb (String.eqb fid EmptyString) then csFIDs st ++ [fid] else csFIDs st)%list.

(** [gjson.Parse(resp).Type == gjson.JSON]: the first character above the
    space is an opening brace or bracket; [Raw] is the text from there on. *)
Fixpoint parseJSONRaw (resp : string) : option string :=
  match resp with
  | EmptyString => None
  | String c s' =>
      if (Ascii.eqb c Text.lbrace || Ascii.eqb c Text.lbrack)%bool then Some resp
      else if Nat.leb (Ascii.nat_of_ascii c) 32 then parseJSONRaw s'
      else None
  end.

(** One [functionResponse] of the function content (lines 431-453). *)
Definition functionResponse (incl : bool) (tcID2Name toolResponses : gmap string string)
    (st : json * nat) (fid : string) : json * nat :=
  let (toolNode, pp) := st in
  match tcID2Name !! fid with
  | Some name =>
      let toolNode := set toolNode (partPath pp ["functionResponse"; "name"]) (JStr name) in
      let toolNode :=
        if incl then set toolNode (partPath pp ["functionResponse"; "id"]) (JStr fid)
        else toolNode in
      let resp := default EmptyString (toolResponses !! fid) in
      let resp := if String.eqb resp EmptyString then "{}" else resp in
      let toolNode :=
        if negb (String.eqb resp "null") then
          match parseJSONRaw resp with
          | Some parsedRaw =>
              set toolNode (partPath pp ["functionResponse"; "response"; "result"]) (JRaw parsedRaw)
          | None =>
              set toolNode (partPath pp ["functionResponse"; "response"; "result"]) (JStr resp)
          end
        else toolNode in
      (toolNode, S pp)
  | None => (toolNode, pp)
  end.

(** *** Lines 224-461: the loop over the messages *)

Record loopState : Type := mkLoop {
  lsOut : json;
  lsNames : gmap string string;
  lsRng : rng
}.

Definition contentsAppend : path := [Key "request"; Key "contents"; Append].

Definition systemInstructionPath (rest : path) : path :=
  Key "request" :: Key "systemInstruction" :: rest.

Definition systemText (out : json) (j : nat) (text : string) : json :=
  set out (systemInstructionPath [Key "parts"; Idx j; Key "text"]) (JStr text).

Fixpoint systemParts (out : json) (j : nat) (contents : list json) : json :=
  match contents with
  | [] => out
  | c :: rest => systemParts (systemText out j (str (gjsonGet c [Key "text"]))) (S j) rest
  end.

Definition systemInstruction (content : option json) (out : json) : json :=
  match content with
  | Some (JStr s) =>
      systemText (set out (systemInstructionPath [Key "role"]) (JStr "user")) 0 s
  | Some (JObj ms as c) =>
      if String.eqb (str (gjsonGet c [Key "type"])) "text" then
        systemText (set out (systemInstructionPath [Key "role"]) (JStr "user")) 0
                   (str (gjsonGet c [Key "text"]))
      else out
  | Some (JArr contents) =>
      match contents with
      | [] => out
      | _ => systemParts (set out (systemInstructionPath [Key "role"]) (JStr "user")) 0 contents
      end
  | _ => out
  end.

(** The model content of an assistant message, before its [tool_calls]. *)
Definition assistantNode (incl : bool) (content : option json) (r : rng) : json * nat * rng :=
  let node := JObj [("role", JStr "model"); ("parts", JArr [])] in
  match content with
  | Some (JStr s) => (set node [Key "parts"; Append; Key "text"] (JStr s), 1%nat, r)
  | Some (JArr items) => fold_left (assistantItem incl) items (node, O, r)
  | _ => (node, O, r)
  end.

Definition functionNode (incl : bool) (tcID2Name toolResponses : gmap string string)
    (fIDs : list string) : json * nat :=
  fold_left (functionResponse incl tcID2Name toolResponses) fIDs
            (JObj [("role", JStr "function"); ("parts", JArr [])], O).

Definition assistantMessage (incl : bool) (toolResponses : gmap string string)
    (st : loopState) (m : json) : loopState :=
  let '(node, p, r) := assistantNode incl (gjsonGet m [Key "content"]) (lsRng st) in
  match gjsonGet m [Key "tool_calls"] with
  | Some (JArr calls) =>
      let cs := fold_left (toolCall incl) calls (mkCallState node p (lsNames st) r []) in
      let out := set (lsOut st) contentsAppend (csNode cs) in
      let (toolNode, pp) := functionNode incl (csNames cs) toolResponses (csFIDs cs) in
      let out := if Nat.ltb 0 pp then set out contentsAppend toolNode else out in
      mkLoop out (csNames cs) (csRng cs)
  | _ => mkLoop (set (lsOut st) contentsAppend node) (lsNames st) r
  end.

(** One turn of the loop; [n] is [len(arr)]. *)
Definition message (incl : bool) (n : nat) (toolResponses : gmap string string)
    (st : loopState) (m : json) : loopState :=
  let role := str (gjsonGet m [Key "role"]) in
  let content := gjsonGet m [Key "content"] in
  if (String.eqb role "system" && Nat.ltb 1 n)%bool then
    mkLoop (systemInstruction content (lsOut st)) (lsNames st) (lsRng st)
  else if (String.eqb role "user" || (String.eqb role "system" && Nat.eqb n 1))%bool then
    mkLoop (set (lsOut st) contentsAppend (userNode incl (lsNames st) content))
           (lsNames st) (lsRng st)
  else if String.eqb role "tool" then st
  else if String.eqb role "assistant" then assistantMessage incl toolResponses st m
  else st.

Definition applyMessages (incl : bool) (rawJSON : json) (out : json) (r : rng) : json * rng :=
  match gjsonGet rawJSON [Key "messages"] with
  | Some (JArr arr) =>
      let st := fold_left (message incl (List.length arr) (collectToolResponses arr)) arr
                          (mkLoop out (collectNames arr) r) in
      (lsOut st, lsRng st)
  | _ => (out, r)
  end.

(** *** Lines 464-603: tools *)

(** Modelled from the spec: [util.RenameKey] is not among the sources.  The
    spec has the aliases [parameters] and [input_schema] "renamed to the
    upstream's canonical key": the value is set under the new key and the old
    key is deleted; a missing old key is an error. *)
Definition RenameKey (j : json) (oldKey newKey : string) : option json :=
  match gjsonGet j [Key oldKey] with
  | None => None
  | Some v =>
      match sjsonSet j [Key newKey] v with
      | Some j' => Some (sjsonDelete j' [Key oldKey])
      | None => None
      end
  end.

Definition schemaKey : string := "parametersJsonSchema".

(** The default schema [{type: "object", properties: {}}], with the error of
    either [sjson.Set] kept. *)
Definition setDefaultSchema (fnRaw : json) : option json :=
  match sjsonSet fnRaw [Key schemaKey; Key "type"] (JStr "object") with
  | Some j => sjsonSet j [Key schemaKey; Key "properties"] (JObj [])
  | None => None
  end.

Record toolsState : Type := mkTools {
  tsNode : json;
  tsHasTool : bool;
  tsHasFunction : bool
}.

(** Appending a declaration (lines 521-531 and 572-582); the flag is [true]
    when the source [continue]s. *)
Definition appendDeclaration (st : toolsState) (fnRaw : json) : toolsState * bool :=
  let toolNode :=
    if negb (tsHasFunction st) then set (tsNode st) [Key "functionDeclarations"] (JArr [])
    else tsNode st in
  match sjsonSet toolNode [Key "functionDeclarations"; Append] fnRaw with
  | Some tmp => (mkTools tmp true true, false)
  | None => (mkTools toolNode (tsHasTool st) (tsHasFunction st), true)
  end.

Definition stripUnsupported (fnRaw : json) : json :=
  sjsonDelete (sjsonDelete fnRaw [Key "strict"]) [Key "cache_control"].

(** A tool of type [function] (lines 484-532). *)
Definition functionTool (st : toolsState) (t : json) : toolsState * bool :=
  match gjsonGet t [Key "function"] with
  | Some (JObj ms as fn) =>
      let schema :=
        if exists_ (gjsonGet fn [Key "parameters"]) then
          match RenameKey fn "parameters" schemaKey with
          | Some renamed => Some renamed
          | None => setDefaultSchema fn
          end
        else setDefaultSchema fn in
      match schema with
      | Some fnRaw => appendDeclaration st (stripUnsupported fnRaw)
      | None => (st, true)
      end
  | _ => (st, false)
  end.

Definition setDefaultSchema_ (fnRaw : json) : json :=
  let fnRaw := set fnRaw [Key schemaKey; Key "type"] (JStr "object") in
  set fnRaw [Key schemaKey; Key "properties"] (JObj []).

(** A tool given directly as [{name, description, parameters/input_schema}]
    (lines 533-583). *)
Definition directTool (st : toolsState) (t : json) : toolsState * bool :=
  let fnRaw := t in
  let fnRaw :=
    if exists_ (gjsonGet t [Key "input_schema"]) then
      match RenameKey fnRaw "input_schema" schemaKey with
      | Some renamed => renamed
      | None => sjsonDelete (setDefaultSchema_ fnRaw) [Key "input_schema"]
      end
    else if exists_ (gjsonGet t [Key "parameters"]) then
      match RenameKey fnRaw "parameters" schemaKey with
      | Some renamed => renamed
      | None => setDefaultSchema_ fnRaw
      end
    else setDefaultSchema_ fnRaw in
  let fnRaw := stripUnsupported fnRaw in
  let fnRaw := sjsonDelete fnRaw [Key "input_schema"] in
  let fnRaw := sjsonDelete fnRaw [Key schemaKey; Key additionalPropsKey] in
  appendDeclaration st fnRaw.

(** One turn of the loop over the tools. *)
Definition tool (st : toolsState) (t : json) : toolsState :=
  let toolType := str (gjsonGet t [Key "type"]) in
  let (st, continue) :=
    if String.eqb toolType "function" then functionTool st t
    else if exists_ (gjsonGet t [Key "name"]) then directTool st t
    else (st, false) in
  if continue then st
  else
    match gjsonGet t [Key "google_search"] with
    | Some gs =>
        match sjsonSet (tsNode st) [Key "googleSearch"] gs with
        | Some toolNode => mkTools toolNode true (tsHasFunction st)
        | None => mkTools (JRaw EmptyString) (tsHasTool st) (tsHasFunction st)
        end
    | None => st
    end.

(** The tool node before it is cleaned. *)
Definition toolsNode (ts : list json) : toolsState :=
  fold_left tool ts (mkTools (JObj []) false false).

Definition applyTools (rawJSON out : json) : json :=
  match gjsonGet rawJSON [Key "tools"] with
  | Some (JArr (t :: ts)) =>
      let st := toolsNode (t :: ts) in
      if tsHasTool st then
        let cleanedToolNode := cleanToolSchema (render (tsNode st)) in
        let out := set out [Key "request"; Key "tools"] (JArr []) in
        set out [Key "request"; Key "tools"; Idx 0] (JRaw cleanedToolNode)
      else out
  | _ => out
  end.

(** *** Lines 605-629: tool_choice *)

Definition functionCallingConfigPath (k : string) : path :=
  [Key "request"; Key "toolConfig"; Key "functionCallingConfig"; Key k].

Definition applyToolChoice (rawJSON out : json) : json :=
  match gjsonGet rawJSON [Key "tool_choice"] with
  | Some tc =>
      let (mode, out) :=
        match tc with
        | JStr s =>
            let v := Text.toLower (trimSpace s) in
            (if String.eqb v "none" then "NONE"
             else if String.eqb v "auto" then "AUTO"
             else if String.eqb v "required" then "ANY"
             else EmptyString, out)
        | JObj ms =>
            if String.eqb (str (gjsonGet tc [Key "type"])) "function" then
              let name := str (gjsonGet tc [Key "function"; Key "name"]) in
              if negb (String.eqb name EmptyString) then
                ("ANY", set out (functionCallingConfigPath "allowedFunctionNames") (JArr [JStr name]))
              else (EmptyString, out)
            else (EmptyString, out)
        | _ => (EmptyString, out)
        end in
      if negb (String.eqb mode EmptyString)
      then set out (functionCallingConfigPath "mode") (JStr mode)
      else out
  | None => out
  end.

(** Modelled from the spec: [common.AttachDefaultSafetySettings] is not among
    the sources.  The spec has the safety settings "defaulted by an external
    collaborator": the default is put under the path unless the request has
    a value there already. *)
Definition AttachDefaultSafetySettings (out : json) (p : path) : json :=
  if exists_ (gjsonGet out p) then out else set out p defaultSafetySettings.

(** *** ConvertOpenAIRequestToAntigravity

    The bytes the source returns are the rendering of the value returned
    here; the random source is threaded through. *)

Definition baseEnvelope (modelName : string) : json :=
  set (JObj [("project", JStr EmptyString);
             ("request", JObj [("contents", JArr [])]);
             ("model", JStr "gemini-2.5-pro")])
      [Key "model"] (JStr modelName).

Definition applyGenerationParams (rawJSON out : json) : json :=
  let out := copyNumber rawJSON "temperature" "temperature" out in
  let out := copyNumber rawJSON "top_p" "topP" out in
  let out := copyNumber rawJSON "top_k" "topK" out in
  let out := copyNumber rawJSON "max_tokens" "maxOutputTokens" out in
  let out := applyModalities rawJSON out in
  applyImageConfig rawJSON out.

Definition applyThinking (modelName : string) (rawJSON out : json) : json :=
  let out := applyReasoningEffort modelName rawJSON out in
  let out := applyThinkingConfigExtension modelName rawJSON out in
  applyAnthropicThinking modelName rawJSON out.

Definition ConvertOpenAIRequestToAntigravity
    (modelName : string) (inputRawJSON : json) (stream : bool) (r : rng) : json * rng :=
  let rawJSON := inputRawJSON in
  let out := baseEnvelope modelName in
  let out := applyThinking modelName rawJSON out in
  let out := applyGenerationParams rawJSON out in
  let (out, r) := applyMessages (includeToolIDs modelName) rawJSON out r in
  let out := applyTools rawJSON out in
  let out := applyToolChoice rawJSON out in
  (AttachDefaultSafetySettings out [Key "request"; Key "safetySettings"], r).

End WithExternals.
End Translator.

(** ** The usage store and the persistence plugin ([internal/usage]) *)

(** Go's [time] package is not among the sources: a timestamp, its text in
    the layout [time.RFC3339Nano] and the parser of that layout are taken
    from outside. *)
Class GoTime : Type := {
  Timestamp : Type;
  (** [t.Format(time.RFC3339Nano)] *)
  formatRFC3339Nano : Timestamp -> string;
  (** [time.Parse(time.RFC3339Nano, s)]; [None] is the error *)
  parseRFC3339Nano : string -> option Timestamp
}.

Module Usage.
Local Open Scope list_scope.

Section WithTime.
Context `{GT : GoTime}.

Record TokenStats : Type := mkTokens {
  InputTokens : Z;
  OutputTokens : Z;
  ReasoningTokens : Z;
  CachedTokens : Z;
  TotalTokens : Z
}.

Record RequestDetail : Type := mkDetail {
  dTimestamp : Timestamp;
  dSource : string;
  dAuthIndex : string;
  dTokens : TokenStats;
  dFailed : bool
}.

(** [coreusage.Record], with the fields the plugin reads. *)
Record UsageRecord : Type := mkRecord {
  rProvider : string;
  rModel : string;
  rAPIKey : string;
  rSource : string;
  rAuthIndex : string;
  rRequestedAt : Timestamp;
  rFailed : bool;
  rDetail : TokenStats
}.

(** *** The database file

    A row of [usage_records], as [EnsureSchema] declares the table. *)
Record row : Type := mkRow {
  api_name : string;
  model_name : string;
  timestamp : string;
  source : string;
  auth_index : string;
  input_tokens : Z;
  output_tokens : Z;
  reasoning_tokens : Z;
  cached_tokens : Z;
  total_tokens : Z;
  failed : Z
}.

(** The statement of the store that the database refuses, if any: what the
    source handles as [err != nil]. *)
Inductive fault : Type :=
| FOpen | FPing | FCreateTable | FCreateTimestampIndex | FCreateApiModelIndex
| FInsert | FQuery | FRowsErr.

#[local] Instance fault_eq_dec : EqDecision fault.
Proof. solve_decision. Defined.

Record database : Type := mkDb {
  dbTable : option (list row);   (** [None]: the table is not created yet *)
  dbTimestampIndex : bool;
  dbApiModelIndex : bool;
  dbFault : option fault
}.

Definition emptyDatabase : database := mkDb None false false None.

Definition fails (d : database) (f : fault) : bool :=
  match dbFault d with
  | Some g => bool_decide (g = f)
  | None => false
  end.

(** *** Statistics *)

(** Modelled from the spec: [RequestStatistics], [recordDetail] and [Snapshot]
    are not among the sources.  The spec has the persisted rows replayed "into
    the in-memory statistics aggregator" and observes
    [snapshot().total_requests] and aggregate tokens that "equal the sum":
    a replayed detail adds one request and its tokens, field by field. *)
Record RequestStatistics : Type := mkStats {
  sTotalRequests : Z;
  sTokens : TokenStats
}.

Definition NewRequestStatistics : RequestStatistics :=
  mkStats 0 (mkTokens 0 0 0 0 0).

Definition addTokens (a b : TokenStats) : TokenStats :=
  mkTokens (InputTokens a + InputTokens b) (OutputTokens a + OutputTokens b)
           (ReasoningTokens a + ReasoningTokens b) (CachedTokens a + CachedTokens b)
           (TotalTokens a + TotalTokens b).

Definition recordDetail (s : RequestStatistics) (apiName modelName : string)
    (detail : RequestDetail) : RequestStatistics :=
  mkStats (sTotalRequests s + 1) (addTokens (sTokens s) (dTokens detail)).

Definition Snapshot (s : RequestStatistics) : RequestStatistics := s.

(** *** The process *)

Record writeRequest : Type := mkWrite {
  wApiName : string;
  wModelName : string;
  wDetail : RequestDetail
}.

Record SQLiteStore : Type := mkStore { dbPath : string }.

(** The plugin: its store and the content of [writeCh], oldest first.
    [stopped] is set once [Stop] has returned. *)
Record SQLitePersistencePlugin : Type := mkPlugin {
  store : SQLiteStore;
  writeCh : list writeRequest;
  stopped : bool
}.

(** What the code does to the world outside its variables, in order. *)
Inductive event : Type :=
| EvOpen (path : string)
| EvClose (path : string)
| EvRecordDetail (apiName modelName : string) (detail : RequestDetail)
| EvRegisterPlugin (path : string)
| EvWarn (msg : string)
| EvInfo (msg : string).

Record world : Type := mkWorld {
  files : gmap string database;
  openStores : list string;                       (** paths of the open handles *)
  persistencePlugin : option SQLitePersistencePlugin;
  registeredPlugins : list string;                (** [coreusage.RegisterPlugin] *)
  statistics : RequestStatistics;                 (** [GetRequestStatistics()] *)
  trace : list event
}.

Definition emit (e : event) (w : world) : world :=
  mkWorld (files w) (openStores w) (persistencePlugin w) (registeredPlugins w)
          (statistics w) (trace w ++ [e]).

Definition setFile (p : string) (d : database) (w : world) : world :=
  mkWorld (<[p := d]> (files w)) (openStores w) (persistencePlugin w)
          (registeredPlugins w) (statistics w) (trace w).

Definition fileAt (p : string) (w : world) : database :=
  default emptyDatabase (files w !! p).

(** Remove the first handle on [p]. *)
Fixpoint closeHandle (p : string) (hs : list string) : list string :=
  match hs with
  | [] => []
  | h :: hs' => if String.eqb h p then hs' else h :: closeHandle p hs'
  end.

(** [NewSQLiteStore]: opening creates the file when it is missing. *)
Definition NewSQLiteStore (path : string) (w : world) : world * (SQLiteStore + string) :=
  let d := fileAt path w in
  if fails d FOpen then (w, inr "usage sqlite: open database")
  else if fails d FPing then
    (emit (EvClose path) (emit (EvOpen path) w), inr "usage sqlite: ping database")
  else
    let w := setFile path d w in
    (emit (EvOpen path)
       (mkWorld (files w) (path :: openStores w) (persistencePlugin w)
                (registeredPlugins w) (statistics w) (trace w)),
     inl (mkStore path)).

(** [Close]. *)
Definition Close (s : SQLiteStore) (w : world) : world :=
  emit (EvClose (dbPath s))
    (mkWorld (files w) (closeHandle (dbPath s) (openStores w)) (persistencePlugin w)
             (registeredPlugins w) (statistics w) (trace w)).

(** [EnsureSchema]: the table, then the two indexes; the first statement the
    database refuses ends it, and what was created before stays. *)
Definition EnsureSchema (s : SQLiteStore) (w : world) : world * option string :=
  let p := dbPath s in
  let d := fileAt p w in
  if fails d FCreateTable then (w, Some "usage sqlite: create table")
  else
    let d1 := mkDb (Some (default [] (dbTable d))) (dbTimestampIndex d)
                   (dbApiModelIndex d) (dbFault d) in
    if fails d FCreateTimestampIndex
    then (setFile p d1 w, Some "usage sqlite: create timestamp index")
    else
      let d2 := mkDb (dbTable d1) true (dbApiModelIndex d1) (dbFault d1) in
      if fails d FCreateApiModelIndex
      then (setFile p d2 w, Some "usage sqlite: create api_model index")
      else (setFile p (mkDb (dbTable d2) true true (dbFault d2)) w, None).

(** [boolToInt]. *)
Definition boolToInt (b : bool) : Z := if b then 1 else 0.

Definition rowOf (apiName modelName : string) (detail : RequestDetail) : row :=
  mkRow apiName modelName (formatRFC3339Nano (dTimestamp detail))
        (dSource detail) (dAuthIndex detail)
        (InputTokens (dTokens detail)) (OutputTokens (dTokens detail))
        (ReasoningTokens (dTokens detail)) (CachedTokens (dTokens detail))
        (TotalTokens (dTokens detail)) (boolToInt (dFailed detail)).

(** [InsertRecord]. *)
Definition InsertRecord (s : SQLiteStore) (apiName modelName : string)
    (detail : RequestDetail) (w : world) : world * option string :=
  let p := dbPath s in
  let d := fileAt p w in
  match dbTable d with
  | Some rows =>
      if fails d FInsert
      then (emit (EvWarn "usage: failed to persist record to SQLite") w, Some "insert")
      else (setFile p (mkDb (Some (rows ++ [rowOf apiName modelName detail]))
                            (dbTimestampIndex d) (dbApiModelIndex d) (dbFault d)) w,
            None)
  | None => (emit (EvWarn "usage: failed to persist record to SQLite") w, Some "insert")
  end.

(** [ORDER BY timestamp]: the rows by the text of the column, rows with the
    same text in the order of their insertion. *)
Fixpoint insertByTimestamp (r : row) (rs : list row) : list row :=
  match rs with
  | [] => [r]
  | r' :: rs' =>
      if String.ltb (timestamp r) (timestamp r') then r :: r' :: rs'
      else r' :: insertByTimestamp r rs'
  end.

Definition orderByTimestamp (rs : list row) : list row :=
  fold_left (fun acc r => insertByTimestamp r acc) rs [].

Definition detailOf (r : row) (ts : Timestamp) : RequestDetail :=
  mkDetail ts (source r) (auth_index r)
           (mkTokens (input_tokens r) (output_tokens r) (reasoning_tokens r)
                     (cached_tokens r) (total_tokens r))
           (negb (Z.eqb (failed r) 0)).

Abbreviation records := (gmap string (gmap string (list RequestDetail))).

(** The body of the loop over [rows.Next()]. *)
Definition loadRow (acc : records * list event) (r : row) : records * list event :=
  let (result, warns) := acc in
  match parseRFC3339Nano (timestamp r) with
  | None => (result, warns ++ [EvWarn "usage sqlite: invalid timestamp, skipping record"])
  | Some ts =>
      let models := default ∅ (result !! api_name r) in
      let details := default [] (models !! model_name r) in
      (<[api_name r := <[model_name r := details ++ [detailOf r ts]]> models]> result, warns)
  end.

(** [LoadAll]: the records by API and model, and the warnings logged. *)
Definition LoadAll (s : SQLiteStore) (w : world) : (records * list event) + string :=
  let d := fileAt (dbPath s) w in
  match dbTable d with
  | None => inr "usage sqlite: query records"
  | Some rows =>
      if fails d FQuery then inr "usage sqlite: query records"
      else if fails d FRowsErr then inr "usage sqlite: iterate rows"
      else inl (fold_left loadRow (orderByTimestamp rows) (∅, []))
  end.

(** *** The plugin *)

(** [make(chan writeRequest, 1000)]. *)
Definition writeChCapacity : nat := 1000.

(** [NewSQLitePersistencePlugin]: an empty channel; the writer is started. *)
Definition NewSQLitePersistencePlugin (s : SQLiteStore) : SQLitePersistencePlugin :=
  mkPlugin s [] false.

Definition requestOf (record : UsageRecord) : writeRequest :=
  let apiName := if String.eqb (rAPIKey record) EmptyString then "unknown"
                 else rAPIKey record in
  mkWrite apiName (rModel record)
    (mkDetail (rRequestedAt record) (rSource record) (rAuthIndex record)
       (mkTokens (InputTokens (rDetail record)) (OutputTokens (rDetail record))
                 (ReasoningTokens (rDetail record)) (CachedTokens (rDetail record))
                 (TotalTokens (rDetail record)))
       (rFailed record)).

(** [HandleUsage]: the [select] sends when the channel has room and takes its
    [default] branch otherwise.  The result is the plugin and what is logged. *)
Definition HandleUsage (p : SQLitePersistencePlugin) (record : UsageRecord)
  : SQLitePersistencePlugin * list event :=
  if Nat.ltb (length (writeCh p)) writeChCapacity
  then (mkPlugin (store p) (writeCh p ++ [requestOf record]) (stopped p), [])
  else (p, [EvWarn "usage persistence: queue full, record dropped"]).

(** One turn of [runWriter] with a request waiting. *)
Definition writerStep (p : SQLitePersistencePlugin) (w : world)
  : SQLitePersistencePlugin * world :=
  match writeCh p with
  | [] => (p, w)
  | req :: rest =>
      (mkPlugin (store p) rest (stopped p),
       fst (InsertRecord (store p) (wApiName req) (wModelName req) (wDetail req) w))
  end.

(** [Stop]: the writer drains the channel and returns. *)
Definition Stop (p : SQLitePersistencePlugin) (w : world)
  : SQLitePersistencePlugin * world :=
  (mkPlugin (store p) [] true,
   fold_left (fun w req =>
      fst (InsertRecord (store p) (wApiName req) (wModelName req) (wDetail req) w))
     (writeCh p) w).

(** *** EnablePersistence and DisablePersistence *)

(** The order in which the nested [range] loops visit the loaded records: Go
    leaves the order of the keys open, the model takes the order of
    [map_to_list]. *)
Definition rangeRecords (rs : records) : list (string * string * RequestDetail) :=
  flat_map (fun am : string * gmap string (list RequestDetail) =>
    flat_map (fun md : string * list RequestDetail =>
      List.map (fun d => (fst am, fst md, d)) (snd md))
      (map_to_list (snd am)))
    (map_to_list rs).

Definition mergeDetail (w : world) (x : string * string * RequestDetail) : world :=
  let '(apiName, modelName, detail) := x in
  emit (EvRecordDetail apiName modelName detail)
    (mkWorld (files w) (openStores w) (persistencePlugin w) (registeredPlugins w)
             (recordDetail (statistics w) apiName modelName detail) (trace w)).

Definition emitAll (es : list event) (w : world) : world :=
  fold_left (fun w e => emit e w) es w.

Definition EnablePersistence (path : string) (w : world) : world * option string :=
  match persistencePlugin w with
  | Some _ => (w, Some "usage persistence: already enabled")
  | None =>
      match NewSQLiteStore path w with
      | (w, inr err) => (w, Some err)
      | (w, inl st) =>
          match EnsureSchema st w with
          | (w, Some err) => (Close st w, Some err)
          | (w, None) =>
              match LoadAll st w with
              | inr err => (Close st w, Some err)
              | inl (rs, warns) =>
                  let w := emitAll warns w in
                  let w := fold_left mergeDetail (rangeRecords rs) w in
                  let w := emit (EvInfo "usage persistence: loaded records from database") w in
                  let plugin := NewSQLitePersistencePlugin st in
                  (emit (EvRegisterPlugin path)
                     (mkWorld (files w) (openStores w) (Some plugin)
                              (registeredPlugins w ++ [path]) (statistics w) (trace w)),
                   None)
              end
          end
      end
  end.

Definition DisablePersistence (w : world) : world :=
  match persistencePlugin w with
  | Some p =>
      let (p', w) := Stop p w in
      let w := Close (store p') w in
      mkWorld (files w) (openStores w) None (registeredPlugins w) (statistics w) (trace w)
  | None => w
  end.

End WithTime.
End Usage.

(** ** Instances for the examples

    One choice of the outside helpers, on which the definitions above can be
    run. *)

Module Sample.
Import Json.

Definition decimal (s : string) : Z :=
  match NilZero.int_of_string s with
  | Some i => Z.of_int i
  | None => 0
  end.

Definition sampleInt (v : json) : Z :=
  match v with
  | JNum raw => decimal raw
  | JStr s => decimal s
  | JBool true => 1
  | _ => 0
  end.

Definition sampleBool (v : json) : bool :=
  match v with
  | JBool b => b
  | _ => false
  end.

(** Text that opens with a brace or a bracket counts as valid JSON here. *)
Definition sampleValid (s : string) : bool :=
  match s with
  | String c _ => (Ascii.eqb c Text.lbrace || Ascii.eqb c Text.lbrack)%bool
  | EmptyString => false
  end.

Definition sampleLevel (modelName effort : string) : string * bool :=
  if (String.eqb effort "low" || String.eqb effort "high")%bool then (effort, true)
  else (EmptyString, false).

Definition sampleApplyLevel (out : json) (level : string) (includeThoughts : option bool) : json :=
  let out :=
    if String.eqb level EmptyString then out
    else set out [Key "request"; Key "generationConfig"; Key "thinkingConfig"; Key "thinkingLevel"]
             (JStr level) in
  match includeThoughts with
  | Some b => set out [Key "request"; Key "generationConfig"; Key "thinkingConfig";
                       Key "includeThoughts"] (JBool b)
  | None => out
  end.

Definition sampleBudget (effort : string) : option string :=
  if String.eqb effort "none" then Some "0"
  else if String.eqb effort "auto" then Some "-1"
  else if String.eqb effort "low" then Some "1024"
  else if String.eqb effort "medium" then Some "8192"
  else if String.eqb effort "high" then Some "32768"
  else None.

Definition sampleApplyEffort (out : json) (effort : string) : json :=
  match sampleBudget effort with
  | Some b =>
      set out [Key "request"; Key "generationConfig"; Key "thinkingConfig"; Key "thinkingBudget"]
          (JNum b)
  | None => out
  end.

#[export] Instance sampleExternals : Externals := {|
  formatFloat64 := fun raw => raw;
  resultInt := sampleInt;
  resultBool := sampleBool;
  gjsonValid := sampleValid;
  ModelSupportsThinking := fun m => true;
  IsGemini3Model := fun m => Text.contains "gemini-3" (Text.toLower m);
  ModelUsesThinkingLevels := fun m => Text.contains "gemini-3" (Text.toLower m);
  ValidateGemini3ThinkingLevel := sampleLevel;
  ApplyGeminiCLIThinkingLevel := sampleApplyLevel;
  ApplyReasoningEffortToGeminiCLI := sampleApplyEffort;
  MimeTypes := {[ "png" := "image/png" ]};
  defaultSafetySettings := JArr []
|}.

(** A random source that always draws zero, and one that counts up. *)
Definition zeroRng : rng := mkRng (fun _ => O) O.
Definition countRng : rng := mkRng (fun i => i) O.

(** Timestamps that are their own text; the text parses when it is not empty. *)
#[export] Instance sampleTime : GoTime := {|
  Timestamp := string;
  formatRFC3339Nano := fun t => t;
  parseRFC3339Nano := fun s => if String.eqb s EmptyString then None else Some s
|}.

End Sample.

(** * Properties of the translator *)

Module TextFacts.

Lemma app_cons c a b : String c a ++ b = String c (a ++ b).
Proof. reflexivity. Qed.

Lemma app_nil_l a : EmptyString ++ a = a.
Proof. reflexivity. Qed.

Lemma app_nil_r a : a ++ EmptyString = a.
Proof. induction a as [|c a IH]; [reflexivity|]. rewrite app_cons, IH. reflexivity. Qed.

Lemma app_assoc a b c : (a ++ b) ++ c = a ++ (b ++ c).
Proof. induction a as [|x a IH]; [reflexivity|]. rewrite !app_cons, IH. reflexivity. Qed.

Lemma app_length a b : String.length (a ++ b) = (String.length a + String.length b)%nat.
Proof. induction a as [|x a IH]; [reflexivity|]. rewrite app_cons. cbn. rewrite IH. reflexivity. Qed.

End TextFacts.

(** ** cleanToolSchema as a function on text *)

Module SchemaText.
Local Open Scope nat_scope.

(** The pattern of [additionalPropsRegex] matches somewhere in the text. *)
Fixpoint matchesSomewhere (s : string) : bool :=
  match additionalPropsRegex s with
  | Some _ => true
  | None =>
      match s with
      | EmptyString => false
      | String _ s' => matchesSomewhere s'
      end
  end.

Lemma removeAdditionalProps_cons c s :
  removeAdditionalProps O (String c s)
  = match additionalPropsRegex (String c s) with
    | Some n => removeAdditionalProps (Nat.pred n) s
    | None => String c (removeAdditionalProps O s)
    end.
Proof. reflexivity. Qed.

Lemma matchesSomewhere_cons c s :
  matchesSomewhere (String c s)
  = match additionalPropsRegex (String c s) with
    | Some _ => true
    | None => matchesSomewhere s
    end.
Proof. reflexivity. Qed.

Lemma removeAdditionalProps_length s : forall k,
  String.length (removeAdditionalProps k s) <= String.length s.
Proof.
  induction s as [|c s IH]; intros k; [destruct k; cbn; lia|].
  destruct k as [|k].
  - rewrite removeAdditionalProps_cons.
    destruct (additionalPropsRegex (String c s)) as [n|].
    + specialize (IH (Nat.pred n)). cbn [String.length]. lia.
    + specialize (IH O). cbn [String.length]. lia.
  - change (removeAdditionalProps (S k) (String c s)) with (removeAdditionalProps k s).
    specialize (IH k). cbn [String.length]. lia.
Qed.

Lemma removeAdditionalProps_same s :
  matchesSomewhere s = false -> removeAdditionalProps O s = s.
Proof.
  induction s as [|c s IH]; [reflexivity|].
  rewrite matchesSomewhere_cons, removeAdditionalProps_cons.
  destruct (additionalPropsRegex (String c s)); [discriminate|].
  intros H. rewrite (IH H). reflexivity.
Qed.

Lemma removeAdditionalProps_shorter s :
  matchesSomewhere s = true ->
  String.length (removeAdditionalProps O s) < String.length s.
Proof.
  induction s as [|c s IH]; [discriminate|].
  rewrite matchesSomewhere_cons, removeAdditionalProps_cons.
  destruct (additionalPropsRegex (String c s)) as [n|].
  - intros _. pose proof (removeAdditionalProps_length s (Nat.pred n)).
    cbn [String.length]. lia.
  - intros H. specialize (IH H). cbn [String.length]. lia.
Qed.

Lemma replaceAllFrom_cons old new c s :
  Text.replaceAllFrom O old new (String c s)
  = if Text.hasPrefix old (String c s)
    then (new ++ Text.replaceAllFrom (Nat.pred (String.length old)) old new s)%string
    else String c (Text.replaceAllFrom O old new s).
Proof. reflexivity. Qed.

Lemma contains_cons sub c s :
  Text.contains sub (String c s)
  = if Text.hasPrefix sub (String c s) then true else Text.contains sub s.
Proof. reflexivity. Qed.

Lemma replaceAllFrom_length old new s : forall k,
  String.length new <= 1 ->
  String.length (Text.replaceAllFrom k old new s) <= String.length s.
Proof.
  induction s as [|c s IH]; intros k Hn; [destruct k; cbn; lia|].
  destruct k as [|k].
  - rewrite replaceAllFrom_cons. destruct (Text.hasPrefix old (String c s)).
    + rewrite TextFacts.app_length. specialize (IH (Nat.pred (String.length old)) Hn).
      cbn [String.length]. lia.
    + specialize (IH O Hn). cbn [String.length]. lia.
  - change (Text.replaceAllFrom (S k) old new (String c s))
      with (Text.replaceAllFrom k old new s).
    specialize (IH k Hn). cbn [String.length]. lia.
Qed.

Lemma replaceAll_same old new s :
  Text.contains old s = false -> 1 <= String.length old -> Text.replaceAll s old new = s.
Proof.
  intros H Ho. unfold Text.replaceAll.
  induction s as [|c s IH]; [reflexivity|].
  rewrite contains_cons in H. rewrite replaceAllFrom_cons.
  destruct (Text.hasPrefix old (String c s)); [discriminate|].
  rewrite (IH H). reflexivity.
Qed.

Lemma hasPrefix_length p : forall s,
  Text.hasPrefix p s = true -> String.length p <= String.length s.
Proof.
  induction p as [|a p IH]; intros [|b s]; cbn [Text.hasPrefix String.length];
    try discriminate; try lia.
  destruct (Ascii.eqb a b); [|discriminate]. intros H. specialize (IH s H). lia.
Qed.

Lemma replaceAllFrom_skip old new s k :
  1 <= String.length s -> String.length new <= 1 ->
  String.length (Text.replaceAllFrom (S k) old new s) < String.length s.
Proof.
  destruct s as [|c s]; cbn [String.length]; [lia|]. intros _ Hn.
  change (Text.replaceAllFrom (S k) old new (String c s))
    with (Text.replaceAllFrom k old new s).
  pose proof (replaceAllFrom_length old new s k Hn). lia.
Qed.

Lemma replaceAll_shorter old new s :
  Text.contains old s = true -> 2 <= String.length old -> String.length new <= 1 ->
  String.length (Text.replaceAll s old new) < String.length s.
Proof.
  intros H Ho Hn. unfold Text.replaceAll.
  induction s as [|c s IH].
  - cbn in H. destruct old; [cbn in Ho; lia | discriminate].
  - rewrite contains_cons in H. rewrite replaceAllFrom_cons.
    destruct (Text.hasPrefix old (String c s)) eqn:Hp.
    + apply hasPrefix_length in Hp. cbn [String.length] in Hp.
      rewrite TextFacts.app_length.
      destruct (String.length old) as [|[|k]] eqn:El; try lia.
      cbn [Nat.pred].
      pose proof (replaceAllFrom_skip old new s k ltac:(lia) Hn).
      cbn [String.length]. lia.
    + specialize (IH H). cbn [String.length]. lia.
Qed.

(** [cleanToolSchema] works on the text, not on the JSON in it.  It never
    makes the text longer, and it gives the text back as it is exactly when
    the text has no match of the pattern and holds neither [,}] nor [, }]:
    every such piece of text is changed, inside a string value (a
    description, an enum member, a default) as well as between members. *)
Theorem cleanToolSchema_fixed_points :
  forall (schema : string),
    String.length (cleanToolSchema schema) <= String.length schema
    /\ (cleanToolSchema schema = schema
        <-> matchesSomewhere schema = false
            /\ Text.contains ",}" schema = false
            /\ Text.contains ", }" schema = false).
Proof.
  intros schema. unfold cleanToolSchema.
  set (r1 := removeAdditionalProps O schema).
  set (r2 := Text.replaceAll r1 ",}" "}").
  set (r3 := Text.replaceAll r2 ", }" "}").
  assert (L1 : String.length r1 <= String.length schema)
    by apply removeAdditionalProps_length.
  assert (L2 : String.length r2 <= String.length r1)
    by (apply replaceAllFrom_length; cbn; lia).
  assert (L3 : String.length r3 <= String.length r2)
    by (apply replaceAllFrom_length; cbn; lia).
  split; [lia|]. split.
  - intros E.
    assert (El : String.length r3 = String.length schema) by (rewrite E; reflexivity).
    destruct (matchesSomewhere schema) eqn:M.
    { pose proof (removeAdditionalProps_shorter schema M). fold r1 in H. lia. }
    assert (E1 : r1 = schema) by (apply removeAdditionalProps_same, M).
    destruct (Text.contains ",}" schema) eqn:C1.
    { pose proof (replaceAll_shorter ",}" "}" r1) as H. fold r2 in H.
      rewrite E1 in H at 1. specialize (H C1). cbn [String.length] in H. lia. }
    assert (E2 : r2 = schema).
    { unfold r2. rewrite E1. apply replaceAll_same; [exact C1 | cbn; lia]. }
    destruct (Text.contains ", }" schema) eqn:C2; [|auto].
    pose proof (replaceAll_shorter ", }" "}" r2) as H. fold r3 in H.
    rewrite E2 in H at 1. specialize (H C2). cbn [String.length] in H. lia.
  - intros (M & C1 & C2).
    assert (E1 : r1 = schema) by (apply removeAdditionalProps_same, M).
    assert (E2 : r2 = schema).
    { unfold r2. rewrite E1. apply replaceAll_same; [exact C1 | cbn; lia]. }
    unfold r3. rewrite E2. apply replaceAll_same; [exact C2 | cbn; lia].
Qed.

End SchemaText.

Module SchemaTree.
Import Json SchemaText.
Local Open Scope nat_scope.

(** ** cleanToolSchema on the text of a JSON value

    What the three passes of [cleanToolSchema] do to the compact text of a
    value whose strings hold no quote, backslash, line feed or closing
    brace. *)

Fixpoint allChars (P : ascii -> bool) (s : string) : bool :=
  match s with
  | EmptyString => true
  | String c s' => (P c && allChars P s')%bool
  end.

(** A character that [escape] leaves alone and that is not a closing brace. *)
Definition safeChar (c : ascii) : bool :=
  negb (Ascii.eqb c Text.dquote || Ascii.eqb c Text.bslash
        || Ascii.eqb c (Ascii.ascii_of_nat 10) || Ascii.eqb c Text.rbrace)%bool.

Definition safe (s : string) : bool := allChars safeChar s.

(** The characters of a number literal. *)
Definition numChar (c : ascii) : bool :=
  let n := Ascii.nat_of_ascii c in
  ((Nat.leb 48 n && Nat.leb n 57)
   || Nat.eqb n 45 || Nat.eqb n 43 || Nat.eqb n 46 || Nat.eqb n 101 || Nat.eqb n 69)%bool.

Definition numberLiteral (raw : string) : bool :=
  (allChars numChar raw && negb (String.eqb raw EmptyString))%bool.

(** A value as a client sends it: no spliced text, number literals made of
    digits, signs, point and exponent, keys and strings of safe characters. *)
Fixpoint cleanTree (j : json) : bool :=
  match j with
  | JNull | JBool _ => true
  | JNum raw => numberLiteral raw
  | JStr s => safe s
  | JArr xs => forallb cleanTree xs
  | JObj ms => forallb (fun kv => (safe (fst kv) && cleanTree (snd kv))%bool) ms
  | JRaw _ => false
  end.

(** A member the pattern removes: [additionalProperties] with [true] or
    [false]. *)
Definition removable (kv : string * json) : bool :=
  (String.eqb (fst kv) additionalPropsKey
   && match snd kv with JBool _ => true | _ => false end)%bool.

(** The value without those members, at every depth. *)
Fixpoint strip (j : json) : json :=
  match j with
  | JArr xs => JArr (List.map strip xs)
  | JObj ms =>
      JObj (flat_map (fun kv => if removable kv then [] else [(fst kv, strip (snd kv))]) ms)
  | _ => j
  end.

Definition renderMember (kv : string * json) : string :=
  (quote (escape (fst kv)) ++ ":" ++ render (snd kv))%string.

Lemma render_object ms :
  render (JObj ms) = ("{" ++ sepBy "," (List.map renderMember ms) ++ "}")%string.
Proof. reflexivity. Qed.

Lemma render_array xs :
  render (JArr xs) = ("[" ++ sepBy "," (List.map render xs) ++ "]")%string.
Proof. reflexivity. Qed.

Lemma sepBy_cons2 sep x y zs :
  sepBy sep (x :: y :: zs) = (x ++ sep ++ sepBy sep (y :: zs))%string.
Proof. reflexivity. Qed.

Lemma allChars_impl (P Q : ascii -> bool) s :
  (forall c, P c = true -> Q c = true) -> allChars P s = true -> allChars Q s = true.
Proof.
  intros H. induction s as [|c s IH]; [reflexivity|]. cbn [allChars].
  intros Hs. apply andb_prop in Hs as [H1 H2]. rewrite (H c H1), (IH H2). reflexivity.
Qed.

Lemma escape_safe s : safe s = true -> escape s = s.
Proof.
  induction s as [|c s IH]; [reflexivity|]. unfold safe. cbn [allChars escape].
  intros H. apply andb_prop in H as [H1 H2]. unfold safeChar in H1.
  apply negb_true_iff in H1. apply orb_false_elim in H1 as [H1 _].
  apply orb_false_elim in H1 as [H1 Hlf]. apply orb_false_elim in H1 as [Hq Hb].
  rewrite Hq, Hb, Hlf, (IH H2). reflexivity.
Qed.

(** The size of a value, for induction. *)
Fixpoint size (j : json) : nat :=
  match j with
  | JArr xs => S (list_sum (List.map size xs))
  | JObj ms => S (list_sum (List.map (fun kv => size (snd kv)) ms))
  | _ => 1
  end.

Lemma size_element x xs : In x xs -> size x <= list_sum (List.map size xs).
Proof.
  induction xs as [|y xs IH]; [contradiction|].
  change (list_sum (List.map size (y :: xs)))
    with (size y + list_sum (List.map size xs)).
  intros [->|H]; [lia | specialize (IH H); lia].
Qed.

Lemma size_member (kv : string * json) ms :
  In kv ms ->
  size (snd kv) <= list_sum (List.map (fun kv : string * json => size (snd kv)) ms).
Proof.
  induction ms as [|y ms IH]; [contradiction|].
  change (list_sum (List.map (fun kv : string * json => size (snd kv)) (y :: ms)))
    with (size (snd y) + list_sum (List.map (fun kv : string * json => size (snd kv)) ms)).
  intros [->|H]; [lia | specialize (IH H); lia].
Qed.


(** *** First pass: the pattern *)

Definition firstPass (s : string) : string := removeAdditionalProps 0 s.

Definition notQuote (c : ascii) : bool := negb (Ascii.eqb Text.dquote c).

Lemma safe_notQuote s : safe s = true -> allChars notQuote s = true.
Proof.
  apply allChars_impl. intros c H. unfold safeChar in H. unfold notQuote.
  apply negb_true_iff in H. apply orb_false_elim in H as [H _].
  apply orb_false_elim in H as [H _]. apply orb_false_elim in H as [H _].
  rewrite Ascii.eqb_sym, H. reflexivity.
Qed.

Lemma numChar_notQuote raw : allChars numChar raw = true -> allChars notQuote raw = true.
Proof.
  apply allChars_impl. intros c H. unfold notQuote.
  destruct (Ascii.eqb_spec Text.dquote c) as [<-|]; [discriminate H | reflexivity].
Qed.

Lemma firstPass_skip s : forall k, removeAdditionalProps k s = firstPass (Text.dropStr k s).
Proof.
  induction s as [|c s IH]; intros [|k]; try reflexivity.
  cbn [removeAdditionalProps Text.dropStr]. apply IH.
Qed.

Lemma regex_notQuote c s :
  Ascii.eqb Text.dquote c = false -> additionalPropsRegex (String c s) = None.
Proof.
  intros H. unfold additionalPropsRegex, additionalPropsLit. cbn [Text.hasPrefix].
  rewrite H. reflexivity.
Qed.

Lemma firstPass_char c s : Ascii.eqb Text.dquote c = false -> firstPass (String c s) = String c (firstPass s).
Proof.
  intros H. unfold firstPass. rewrite removeAdditionalProps_cons, (regex_notQuote _ _ H).
  reflexivity.
Qed.

Lemma firstPass_sym c b :
  Ascii.eqb Text.dquote c = false ->
  firstPass (String c EmptyString ++ b) = (String c EmptyString ++ firstPass b)%string.
Proof. apply firstPass_char. Qed.

Lemma firstPass_none c s :
  additionalPropsRegex (String c s) = None -> firstPass (String c s) = String c (firstPass s).
Proof. intros H. unfold firstPass. rewrite removeAdditionalProps_cons, H. reflexivity. Qed.

Lemma firstPass_chars a b : allChars notQuote a = true -> firstPass (a ++ b) = (a ++ firstPass b)%string.
Proof.
  induction a as [|c a IH]; [reflexivity|]. cbn [allChars]. intros H.
  apply andb_prop in H as [H1 H2]. rewrite !TextFacts.app_cons.
  rewrite firstPass_char, (IH H2); [reflexivity|].
  unfold notQuote in H1. apply negb_true_iff in H1. exact H1.
Qed.

Lemma firstPass_match s n :
  additionalPropsRegex s = Some (S n) -> firstPass s = firstPass (Text.dropStr (S n) s).
Proof.
  destruct s as [|c s]; [discriminate|]. intros H. unfold firstPass at 1.
  rewrite removeAdditionalProps_cons, H. cbn [Nat.pred Text.dropStr]. apply firstPass_skip.
Qed.

(** What may follow a value: nothing, a comma, or a closing bracket or brace. *)
Definition delim (b : string) : bool :=
  match b with
  | EmptyString => true
  | String c _ =>
      (Ascii.eqb c Text.comma || Ascii.eqb c Text.rbrack || Ascii.eqb c Text.rbrace)%bool
  end.

Lemma hasPrefix_quoted p : forall s X,
  allChars notQuote p = true -> allChars notQuote s = true ->
  Text.hasPrefix (p ++ Text.ch Text.dquote) (s ++ String Text.dquote X) = true ->
  p = s.
Proof.
  induction p as [|a p IH]; intros [|c s] X Hp Hs.
  - reflexivity.
  - rewrite TextFacts.app_cons. cbn [allChars] in Hs. apply andb_prop in Hs as [H1 _].
    unfold notQuote in H1. apply negb_true_iff in H1.
    change (Text.hasPrefix (EmptyString ++ Text.ch Text.dquote) (String c (s ++ String Text.dquote X)))
      with (if Ascii.eqb Text.dquote c then true else false).
    rewrite H1. discriminate.
  - cbn [allChars] in Hp. apply andb_prop in Hp as [H1 _].
    unfold notQuote in H1. apply negb_true_iff in H1.
    rewrite TextFacts.app_cons.
    change (Text.hasPrefix (String a (p ++ Text.ch Text.dquote)) (EmptyString ++ String Text.dquote X))
      with (if Ascii.eqb a Text.dquote then Text.hasPrefix (p ++ Text.ch Text.dquote) X else false).
    rewrite Ascii.eqb_sym, H1. discriminate.
  - cbn [allChars] in Hp, Hs. apply andb_prop in Hp as [_ Hp].
    apply andb_prop in Hs as [_ Hs]. rewrite !TextFacts.app_cons.
    cbn [Text.hasPrefix]. destruct (Ascii.eqb_spec a c) as [->|]; [|discriminate].
    intros H. rewrite (IH s X Hp Hs H). reflexivity.
Qed.

Lemma quote_app s b : (quote s ++ b)%string = String Text.dquote (s ++ String Text.dquote b).
Proof.
  unfold quote, Text.ch. rewrite TextFacts.app_cons, TextFacts.app_assoc.
  rewrite TextFacts.app_cons, TextFacts.app_nil_l. reflexivity.
Qed.

(** A quoted string other than the key is no start of a match. *)
Lemma regex_other_key k X :
  safe k = true -> String.eqb k additionalPropsKey = false ->
  additionalPropsRegex (quote k ++ X) = None.
Proof.
  intros Hk Hne. rewrite quote_app. unfold additionalPropsRegex.
  destruct (Text.hasPrefix additionalPropsLit (String Text.dquote (k ++ String Text.dquote X))) eqn:Hp;
    [|reflexivity].
  exfalso. unfold additionalPropsLit in Hp. cbn [Text.hasPrefix] in Hp.
  rewrite Ascii.eqb_refl in Hp.
  apply hasPrefix_quoted in Hp; [| reflexivity | apply safe_notQuote, Hk].
  subst k. discriminate Hne.
Qed.

Lemma delim_cases b :
  delim b = true ->
  b = EmptyString
  \/ exists b', b = String Text.comma b' \/ b = String Text.rbrack b' \/ b = String Text.rbrace b'.
Proof.
  destruct b as [|c b']; [left; reflexivity|]. cbn [delim]. intros H. right. exists b'.
  apply orb_prop in H as [H|H]; [apply orb_prop in H as [H|H]|];
    apply Ascii.eqb_eq in H; subst c; auto.
Qed.

(** The quoted key followed by a delimiter is no match either. *)
Lemma regex_lit_delim b :
  delim b = true -> additionalPropsRegex (additionalPropsLit ++ b) = None.
Proof.
  intros H. apply delim_cases in H as [->|[b' [->|[->| ->]]]]; reflexivity.
Qed.

Lemma regex_string_delim s b :
  safe s = true -> delim b = true -> additionalPropsRegex (quote s ++ b) = None.
Proof.
  intros Hs Hb. destruct (String.eqb s additionalPropsKey) eqn:E.
  - apply String.eqb_eq in E. subst s. apply (regex_lit_delim b Hb).
  - apply regex_other_key; assumption.
Qed.

Lemma regex_quote_delim b :
  delim b = true -> additionalPropsRegex (String Text.dquote b) = None.
Proof.
  intros H. apply delim_cases in H as [->|[b' [->|[->| ->]]]]; reflexivity.
Qed.

Lemma firstPass_string s b :
  safe s = true -> delim b = true -> firstPass (quote s ++ b) = (quote s ++ firstPass b)%string.
Proof.
  intros Hs Hb. pose proof (regex_string_delim s b Hs Hb) as H.
  rewrite quote_app in *. rewrite (firstPass_none _ _ H).
  rewrite (firstPass_chars _ _ (safe_notQuote s Hs)).
  rewrite (firstPass_none _ _ (regex_quote_delim b Hb)). rewrite quote_app. reflexivity.
Qed.


(** The text of a clean value starts with a character that is no white
    space, and only [true] and [false] start with [t] or [f]. *)
Lemma numChar_head c :
  numChar c = true ->
  Text.isSpaceRe c = false /\ Ascii.eqb "t" c = false /\ Ascii.eqb "f" c = false.
Proof.
  destruct c as [[] [] [] [] [] [] [] []]; intros H; try discriminate H;
    repeat split; reflexivity.
Qed.

Lemma render_head v tail :
  cleanTree v = true ->
  exists c z, (render v ++ tail)%string = String c z
    /\ Text.isSpaceRe c = false
    /\ (match v with
        | JBool _ => True
        | _ => Ascii.eqb "t" c = false /\ Ascii.eqb "f" c = false
        end).
Proof.
  destruct v as [|[]|raw|s|xs|ms|t]; cbn [cleanTree]; intros H.
  - exists "n"%char, ("ull" ++ tail)%string. repeat split; reflexivity.
  - exists "t"%char, ("rue" ++ tail)%string. repeat split; reflexivity.
  - exists "f"%char, ("alse" ++ tail)%string. repeat split; reflexivity.
  - unfold numberLiteral in H. apply andb_prop in H as [H1 H2].
    destruct raw as [|c raw]; [discriminate H2|]. cbn [allChars] in H1.
    apply andb_prop in H1 as [H1 _]. exists c, (raw ++ tail)%string.
    split; [reflexivity|]. apply numChar_head in H1 as (? & ? & ?). auto.
  - exists Text.dquote, (escape s ++ String Text.dquote tail)%string.
    split; [apply quote_app|]. repeat split; reflexivity.
  - exists "["%char, (sepBy "," (List.map render xs) ++ "]" ++ tail)%string.
    split; [|repeat split; reflexivity].
    rewrite render_array, !TextFacts.app_assoc. reflexivity.
  - exists "{"%char, (sepBy "," (List.map renderMember ms) ++ "}" ++ tail)%string.
    split; [|repeat split; reflexivity].
    rewrite render_object, !TextFacts.app_assoc. reflexivity.
  - discriminate H.
Qed.

(** The key with a value that is neither [true] nor [false] is no match. *)
Lemma regex_key_other_value c z :
  Text.isSpaceRe c = false -> Ascii.eqb "t" c = false -> Ascii.eqb "f" c = false ->
  additionalPropsRegex (additionalPropsLit ++ String ":" (String c z)) = None.
Proof.
  destruct c as [[] [] [] [] [] [] [] []]; intros Hs Ht Hf;
    try discriminate Hs; try discriminate Ht; try discriminate Hf; reflexivity.
Qed.


(** The text after the first pass: a removed member takes the comma after
    it along, the comma before it stays. *)
Section AfterPattern.
Variable f : json -> string.

Fixpoint members1 (ms : list (string * json)) : string :=
  match ms with
  | [] => EmptyString
  | kv :: rest =>
      ((if removable kv then EmptyString
        else quote (fst kv) ++ ":" ++ f (snd kv)
             ++ match rest with [] => EmptyString | _ => "," end)
       ++ members1 rest)%string
  end.

End AfterPattern.

Fixpoint out1 (j : json) : string :=
  match j with
  | JArr xs => ("[" ++ sepBy "," (List.map out1 xs) ++ "]")%string
  | JObj ms => ("{" ++ members1 out1 ms ++ "}")%string
  | _ => render j
  end.

Definition pass1 (v : json) : Prop :=
  forall b, delim b = true -> firstPass (render v ++ b) = (out1 v ++ firstPass b)%string.

Lemma removable_spec k v :
  removable (k, v) = true -> k = additionalPropsKey /\ exists bv, v = JBool bv.
Proof.
  unfold removable. cbn [fst snd]. intros H. apply andb_prop in H as [H1 H2].
  apply String.eqb_eq in H1. split; [exact H1|].
  destruct v; try discriminate H2. eauto.
Qed.

Lemma firstPass_removed_more bv X :
  firstPass (renderMember (additionalPropsKey, JBool bv) ++ "," ++ X) = firstPass X.
Proof.
  destruct bv.
  - exact (firstPass_match (renderMember (additionalPropsKey, JBool true) ++ "," ++ X) 27 eq_refl).
  - exact (firstPass_match (renderMember (additionalPropsKey, JBool false) ++ "," ++ X) 28 eq_refl).
Qed.

Lemma firstPass_removed_last bv b :
  firstPass (renderMember (additionalPropsKey, JBool bv) ++ "}" ++ b) = ("}" ++ firstPass b)%string.
Proof.
  transitivity (firstPass ("}" ++ b)).
  - destruct bv.
    + exact (firstPass_match (renderMember (additionalPropsKey, JBool true) ++ "}" ++ b) 26 eq_refl).
    + exact (firstPass_match (renderMember (additionalPropsKey, JBool false) ++ "}" ++ b) 27 eq_refl).
  - apply firstPass_char. reflexivity.
Qed.

Lemma firstPass_kept k v tail :
  safe k = true -> cleanTree v = true -> removable (k, v) = false ->
  delim tail = true -> pass1 v ->
  firstPass (renderMember (k, v) ++ tail) = (quote k ++ ":" ++ out1 v ++ firstPass tail)%string.
Proof.
  intros Hk Hv Hr Ht IH. unfold renderMember. cbn [fst snd].
  rewrite (escape_safe k Hk), !TextFacts.app_assoc.
  assert (Hn : additionalPropsRegex (quote k ++ ":" ++ render v ++ tail) = None).
  { destruct (String.eqb k additionalPropsKey) eqn:E.
    - apply String.eqb_eq in E. subst k.
      destruct (render_head v tail Hv) as (c & z & -> & Hs & Hc).
      unfold removable in Hr. cbn [fst snd] in Hr. rewrite String.eqb_refl in Hr.
      destruct v; try discriminate Hr; destruct Hc as [Hc1 Hc2];
        apply (regex_key_other_value c z Hs Hc1 Hc2).
    - apply regex_other_key; assumption. }
  rewrite quote_app in Hn. rewrite !quote_app. rewrite (firstPass_none _ _ Hn).
  rewrite (firstPass_chars _ _ (safe_notQuote k Hk)).
  change (":" ++ render v ++ tail)%string with (String ":" (render v ++ tail)).
  rewrite (firstPass_none Text.dquote (String ":" (render v ++ tail)) eq_refl).
  rewrite (firstPass_char ":" _ eq_refl), (IH tail Ht). reflexivity.
Qed.


Definition cleanMember (kv : string * json) : bool :=
  (safe (fst kv) && cleanTree (snd kv))%bool.

Lemma firstPass_members ms : forall b,
  Forall (fun kv => pass1 (snd kv)) ms ->
  forallb cleanMember ms = true ->
  firstPass (sepBy "," (List.map renderMember ms) ++ "}" ++ b)
  = (members1 out1 ms ++ "}" ++ firstPass b)%string.
Proof.
  induction ms as [|[k v] rest IH]; intros b HF Hc.
  - apply (firstPass_char "}" b eq_refl).
  - inversion HF as [|? ? Hv HF']; subst. cbn [forallb] in Hc.
    apply andb_prop in Hc as [Hkv Hc]. apply andb_prop in Hkv as [Hk Hcv].
    cbn [fst snd] in Hk, Hcv, Hv. specialize (IH b HF' Hc).
    destruct rest as [|m2 rest'].
    + cbn [List.map sepBy members1]. destruct (removable (k, v)) eqn:Er.
      * apply removable_spec in Er as [-> [bv ->]]. rewrite firstPass_removed_last.
        reflexivity.
      * rewrite (firstPass_kept k v ("}" ++ b) Hk Hcv Er eq_refl Hv), (firstPass_sym "}" b eq_refl).
        cbn [fst snd]. rewrite !TextFacts.app_nil_r, !TextFacts.app_assoc.
        reflexivity.
    + change (sepBy "," (List.map renderMember ((k, v) :: m2 :: rest')))
        with (renderMember (k, v) ++ "," ++ sepBy "," (List.map renderMember (m2 :: rest')))%string.
      rewrite !TextFacts.app_assoc.
      change (members1 out1 ((k, v) :: m2 :: rest'))
        with ((if removable (k, v) then EmptyString
               else quote k ++ ":" ++ out1 v ++ ",") ++ members1 out1 (m2 :: rest'))%string.
      destruct (removable (k, v)) eqn:Er.
      * apply removable_spec in Er as [-> [bv ->]]. rewrite firstPass_removed_more.
        exact IH.
      * rewrite (firstPass_kept k v ("," ++ sepBy "," (List.map renderMember (m2 :: rest')) ++ "}" ++ b)
                   Hk Hcv Er eq_refl Hv).
        rewrite (firstPass_sym "," _ eq_refl), IH, !TextFacts.app_assoc. reflexivity.
Qed.

Lemma firstPass_elements xs : forall b,
  Forall pass1 xs ->
  firstPass (sepBy "," (List.map render xs) ++ "]" ++ b)
  = (sepBy "," (List.map out1 xs) ++ "]" ++ firstPass b)%string.
Proof.
  induction xs as [|x rest IH]; intros b HF.
  - apply (firstPass_char "]" b eq_refl).
  - inversion HF as [|? ? Hx HF']; subst. specialize (IH b HF').
    destruct rest as [|y rest'].
    + cbn [List.map sepBy]. rewrite (Hx ("]" ++ b)%string eq_refl), (firstPass_sym "]" b eq_refl).
      reflexivity.
    + change (sepBy "," (List.map render (x :: y :: rest')))
        with (render x ++ "," ++ sepBy "," (List.map render (y :: rest')))%string.
      change (sepBy "," (List.map out1 (x :: y :: rest')))
        with (out1 x ++ "," ++ sepBy "," (List.map out1 (y :: rest')))%string.
      rewrite !TextFacts.app_assoc.
      rewrite (Hx ("," ++ sepBy "," (List.map render (y :: rest')) ++ "]" ++ b)%string eq_refl).
      rewrite (firstPass_sym "," _ eq_refl), IH. reflexivity.
Qed.

Lemma size_positive v : 1 <= size v.
Proof. destruct v; cbn [size]; lia. Qed.

Lemma pass1_clean n : forall v, size v <= n -> cleanTree v = true -> pass1 v.
Proof.
  induction n as [|n IH]; intros v Hn Hc.
  { pose proof (size_positive v). lia. }
  destruct v as [|bv|raw|s|xs|ms|t]; cbn [cleanTree] in Hc; intros b Hb.
  - apply (firstPass_chars "null" b eq_refl).
  - destruct bv; [apply (firstPass_chars "true" b eq_refl) | apply (firstPass_chars "false" b eq_refl)].
  - unfold numberLiteral in Hc. apply andb_prop in Hc as [Hc _].
    apply (firstPass_chars raw b (numChar_notQuote raw Hc)).
  - cbn [render out1]. rewrite (escape_safe s Hc). apply firstPass_string; assumption.
  - rewrite render_array. cbn [out1]. rewrite !TextFacts.app_assoc.
    rewrite (firstPass_sym "[" _ eq_refl), firstPass_elements; [reflexivity|].
    apply List.Forall_forall. intros x Hx. apply IH.
    + pose proof (size_element x xs Hx). cbn [size] in Hn. lia.
    + rewrite forallb_forall in Hc. apply Hc, Hx.
  - rewrite render_object. cbn [out1]. rewrite !TextFacts.app_assoc.
    rewrite (firstPass_sym "{" _ eq_refl), firstPass_members; [reflexivity| |exact Hc].
    apply List.Forall_forall. intros kv Hkv. apply IH.
    + pose proof (size_member kv ms Hkv). cbn [size] in Hn. lia.
    + rewrite forallb_forall in Hc. specialize (Hc kv Hkv).
      apply andb_prop in Hc as [_ Hc]. exact Hc.
  - discriminate Hc.
Qed.


(** *** Second pass: a comma before a closing brace *)

Definition secondPass (s : string) : string := Text.replaceAllFrom 0 ",}" "}" s.

Definition notComma (c : ascii) : bool := negb (Ascii.eqb "," c).
Definition notBrace (c : ascii) : bool := negb (Ascii.eqb "}" c).

Lemma safe_notBrace s : safe s = true -> allChars notBrace s = true.
Proof.
  apply allChars_impl. intros c H. unfold safeChar in H. unfold notBrace.
  apply negb_true_iff in H. apply orb_false_elim in H as [_ H].
  rewrite Ascii.eqb_sym. change "}"%char with Text.rbrace. rewrite H. reflexivity.
Qed.

Lemma numChar_notComma raw : allChars numChar raw = true -> allChars notComma raw = true.
Proof.
  apply allChars_impl. intros c H. unfold notComma.
  destruct (Ascii.eqb_spec "," c) as [<-|]; [discriminate H | reflexivity].
Qed.

Lemma secondPass_char c s : Ascii.eqb "," c = false -> secondPass (String c s) = String c (secondPass s).
Proof.
  intros H. unfold secondPass. rewrite replaceAllFrom_cons. cbn [Text.hasPrefix].
  rewrite H. reflexivity.
Qed.

Lemma secondPass_sym c b :
  Ascii.eqb "," c = false ->
  secondPass (String c EmptyString ++ b) = (String c EmptyString ++ secondPass b)%string.
Proof. apply secondPass_char. Qed.

Lemma secondPass_comma c s :
  Ascii.eqb "}" c = false -> secondPass (String "," (String c s)) = String "," (secondPass (String c s)).
Proof.
  intros H. unfold secondPass at 1. rewrite replaceAllFrom_cons. cbn [Text.hasPrefix].
  rewrite H. reflexivity.
Qed.

Lemma secondPass_comma_sym c s :
  Ascii.eqb "}" c = false -> secondPass ("," ++ String c s) = ("," ++ secondPass (String c s))%string.
Proof. apply secondPass_comma. Qed.

Lemma secondPass_comma_brace b : secondPass ("," ++ "}" ++ b) = ("}" ++ secondPass b)%string.
Proof. reflexivity. Qed.

Lemma secondPass_chars a b : allChars notComma a = true -> secondPass (a ++ b) = (a ++ secondPass b)%string.
Proof.
  induction a as [|c a IH]; [reflexivity|]. cbn [allChars]. intros H.
  apply andb_prop in H as [H1 H2]. rewrite !TextFacts.app_cons.
  rewrite secondPass_char, (IH H2); [reflexivity|].
  unfold notComma in H1. apply negb_true_iff in H1. exact H1.
Qed.

(** Inside a string a comma is followed by a character of the string or by
    the closing quote. *)
Lemma secondPass_inner a X :
  allChars notBrace a = true ->
  secondPass (a ++ String Text.dquote X) = (a ++ secondPass (String Text.dquote X))%string.
Proof.
  induction a as [|c a IH]; [reflexivity|]. cbn [allChars]. intros H.
  apply andb_prop in H as [_ H2]. specialize (IH H2). rewrite !TextFacts.app_cons.
  destruct (Ascii.eqb_spec "," c) as [<-|Hc].
  - rewrite <- IH. destruct a as [|c2 a].
    + apply (secondPass_comma Text.dquote X eq_refl).
    + rewrite TextFacts.app_cons. apply secondPass_comma. cbn [allChars] in H2.
      apply andb_prop in H2 as [H2 _]. unfold notBrace in H2.
      apply negb_true_iff in H2. exact H2.
  - rewrite secondPass_char, IH; [reflexivity|]. apply Ascii.eqb_neq, Hc.
Qed.

Lemma secondPass_string s b : safe s = true -> secondPass (quote s ++ b) = (quote s ++ secondPass b)%string.
Proof.
  intros Hs. rewrite !quote_app. rewrite (secondPass_char Text.dquote _ eq_refl).
  rewrite (secondPass_inner s b (safe_notBrace s Hs)), (secondPass_char Text.dquote _ eq_refl).
  reflexivity.
Qed.

Definition stripMembers (ms : list (string * json)) : list (string * json) :=
  flat_map (fun kv => if removable kv then [] else [(fst kv, strip (snd kv))]) ms.

Lemma strip_object ms : strip (JObj ms) = JObj (stripMembers ms).
Proof. reflexivity. Qed.

Lemma stripMembers_cons kv rest :
  stripMembers (kv :: rest)
  = if removable kv then stripMembers rest else (fst kv, strip (snd kv)) :: stripMembers rest.
Proof. unfold stripMembers. cbn [flat_map]. destruct (removable kv); reflexivity. Qed.

Lemma members1_cons f kv rest :
  members1 f (kv :: rest)
  = if removable kv then members1 f rest
    else (quote (fst kv) ++ ":" ++ f (snd kv)
          ++ match rest with [] => EmptyString | _ => "," end ++ members1 f rest)%string.
Proof.
  cbn [members1]. destruct (removable kv); [reflexivity|].
  rewrite !TextFacts.app_assoc. reflexivity.
Qed.

(** After the first pass the members that are left start with a quote. *)
Lemma members1_cases f ms :
  (stripMembers ms = [] /\ members1 f ms = EmptyString)
  \/ (exists m r z, stripMembers ms = m :: r /\ members1 f ms = String Text.dquote z).
Proof.
  induction ms as [|kv rest IH]; [left; split; reflexivity|].
  rewrite stripMembers_cons, members1_cons. destruct (removable kv); [exact IH|].
  right. eexists _, _, _. split; [reflexivity|]. apply quote_app.
Qed.

Definition pass2 (v : json) : Prop :=
  forall b, secondPass (out1 v ++ b) = (render (strip v) ++ secondPass b)%string.

Lemma secondPass_members ms : forall b,
  Forall (fun kv => pass2 (snd kv)) ms ->
  forallb cleanMember ms = true ->
  secondPass (members1 out1 ms ++ "}" ++ b)
  = (sepBy "," (List.map renderMember (stripMembers ms)) ++ "}" ++ secondPass b)%string.
Proof.
  induction ms as [|[k v] rest IH]; intros b HF Hc.
  - apply (secondPass_char "}" b eq_refl).
  - inversion HF as [|? ? Hv HF']; subst. cbn [forallb] in Hc.
    apply andb_prop in Hc as [Hkv Hc]. apply andb_prop in Hkv as [Hk Hcv].
    cbn [fst snd] in Hk, Hcv, Hv. specialize (IH b HF' Hc).
    rewrite stripMembers_cons, members1_cons.
    destruct (removable (k, v)); [exact IH|]. cbn [fst snd].
    rewrite !TextFacts.app_assoc, (secondPass_string k _ Hk), (secondPass_sym ":" _ eq_refl), Hv.
    assert (Em : renderMember (k, strip v) = (quote k ++ ":" ++ render (strip v))%string).
    { unfold renderMember. cbn [fst snd]. rewrite (escape_safe k Hk). reflexivity. }
    destruct rest as [|m2 rest'].
    + cbn [members1 stripMembers flat_map List.map sepBy].
      rewrite !TextFacts.app_nil_l.
      rewrite Em, (secondPass_sym "}" b eq_refl), !TextFacts.app_assoc. reflexivity.
    + destruct (members1_cases out1 (m2 :: rest')) as [[E1 E2]|(m & r & z & E1 & E2)].
      * rewrite E1, E2, TextFacts.app_nil_l, secondPass_comma_brace.
        cbn [List.map sepBy]. rewrite Em, !TextFacts.app_assoc. reflexivity.
      * rewrite E1 in *. rewrite E2 in *.
        change (List.map renderMember ((k, strip v) :: m :: r))
          with (renderMember (k, strip v) :: renderMember m :: List.map renderMember r).
        rewrite sepBy_cons2, Em, !TextFacts.app_assoc.
        rewrite (TextFacts.app_cons Text.dquote z) in IH |- *.
        rewrite (secondPass_comma_sym Text.dquote _ eq_refl), IH. reflexivity.
Qed.


Lemma out1_head v tail :
  cleanTree v = true ->
  exists c z, (out1 v ++ tail)%string = String c z /\ Ascii.eqb "}" c = false.
Proof.
  destruct v as [|[]|raw|s|xs|ms|t]; cbn [cleanTree]; intros H.
  - exists "n"%char, ("ull" ++ tail)%string. split; reflexivity.
  - exists "t"%char, ("rue" ++ tail)%string. split; reflexivity.
  - exists "f"%char, ("alse" ++ tail)%string. split; reflexivity.
  - unfold numberLiteral in H. apply andb_prop in H as [H1 H2].
    destruct raw as [|c raw]; [discriminate H2|]. cbn [allChars] in H1.
    apply andb_prop in H1 as [H1 _]. exists c, (raw ++ tail)%string.
    split; [reflexivity|].
    destruct (Ascii.eqb_spec "}" c) as [<-|]; [discriminate H1 | reflexivity].
  - exists Text.dquote, (escape s ++ String Text.dquote tail)%string.
    split; [apply quote_app | reflexivity].
  - exists "["%char, (sepBy "," (List.map out1 xs) ++ "]" ++ tail)%string.
    split; [|reflexivity]. cbn [out1]. rewrite !TextFacts.app_assoc. reflexivity.
  - exists "{"%char, (members1 out1 ms ++ "}" ++ tail)%string.
    split; [|reflexivity]. cbn [out1]. rewrite !TextFacts.app_assoc. reflexivity.
  - discriminate H.
Qed.

Lemma secondPass_elements xs : forall b,
  Forall pass2 xs -> forallb cleanTree xs = true ->
  secondPass (sepBy "," (List.map out1 xs) ++ "]" ++ b)
  = (sepBy "," (List.map render (List.map strip xs)) ++ "]" ++ secondPass b)%string.
Proof.
  induction xs as [|x rest IH]; intros b HF Hc.
  - apply (secondPass_char "]" b eq_refl).
  - inversion HF as [|? ? Hx HF']; subst. cbn [forallb] in Hc.
    apply andb_prop in Hc as [_ Hc]. specialize (IH b HF' Hc).
    destruct rest as [|y rest'].
    + cbn [List.map sepBy]. rewrite Hx, (secondPass_sym "]" b eq_refl). reflexivity.
    + change (sepBy "," (List.map out1 (x :: y :: rest')))
        with (out1 x ++ "," ++ sepBy "," (List.map out1 (y :: rest')))%string.
      change (sepBy "," (List.map render (List.map strip (x :: y :: rest'))))
        with (render (strip x) ++ ","
              ++ sepBy "," (List.map render (List.map strip (y :: rest'))))%string.
      rewrite !TextFacts.app_assoc, Hx. rewrite <- IH.
      cbn [forallb] in Hc. apply andb_prop in Hc as [Hy _].
      change (sepBy "," (List.map out1 (y :: rest')))
        with (sepBy "," (out1 y :: List.map out1 rest')).
      destruct rest' as [|y2 rest2].
      * cbn [List.map sepBy].
        destruct (out1_head y ("]" ++ b) Hy) as (c & z & -> & Hh).
        rewrite (secondPass_comma_sym c z Hh). reflexivity.
      * change (sepBy "," (out1 y :: List.map out1 (y2 :: rest2)))
          with (out1 y ++ "," ++ sepBy "," (List.map out1 (y2 :: rest2)))%string.
        rewrite !TextFacts.app_assoc.
        destruct (out1_head y ("," ++ sepBy "," (List.map out1 (y2 :: rest2)) ++ "]" ++ b) Hy)
          as (c & z & -> & Hh).
        rewrite (secondPass_comma_sym c z Hh). reflexivity.
Qed.

Lemma pass2_clean n : forall v, size v <= n -> cleanTree v = true -> pass2 v.
Proof.
  induction n as [|n IH]; intros v Hn Hc.
  { pose proof (size_positive v). lia. }
  destruct v as [|bv|raw|s|xs|ms|t]; cbn [cleanTree] in Hc; intros b.
  - apply (secondPass_chars "null" b eq_refl).
  - destruct bv; [apply (secondPass_chars "true" b eq_refl) | apply (secondPass_chars "false" b eq_refl)].
  - unfold numberLiteral in Hc. apply andb_prop in Hc as [Hc _].
    apply (secondPass_chars raw b (numChar_notComma raw Hc)).
  - cbn [render out1 strip]. rewrite (escape_safe s Hc). apply secondPass_string, Hc.
  - cbn [strip out1]. rewrite render_array, !TextFacts.app_assoc.
    rewrite (secondPass_sym "[" _ eq_refl), secondPass_elements; [reflexivity| |exact Hc].
    apply List.Forall_forall. intros x Hx. apply IH.
    + pose proof (size_element x xs Hx). cbn [size] in Hn. lia.
    + rewrite forallb_forall in Hc. apply Hc, Hx.
  - rewrite strip_object, render_object. cbn [out1]. rewrite !TextFacts.app_assoc.
    rewrite (secondPass_sym "{" _ eq_refl), secondPass_members; [reflexivity| |exact Hc].
    apply List.Forall_forall. intros kv Hkv. apply IH.
    + pose proof (size_member kv ms Hkv). cbn [size] in Hn. lia.
    + rewrite forallb_forall in Hc. specialize (Hc kv Hkv).
      apply andb_prop in Hc as [_ Hc]. exact Hc.
  - discriminate Hc.
Qed.


(** *** Third pass: a comma and a space before a closing brace *)

Definition thirdPass (s : string) : string := Text.replaceAllFrom 0 ", }" "}" s.

Lemma thirdPass_char c s : Ascii.eqb "," c = false -> thirdPass (String c s) = String c (thirdPass s).
Proof.
  intros H. unfold thirdPass. rewrite replaceAllFrom_cons. cbn [Text.hasPrefix].
  rewrite H. reflexivity.
Qed.

Lemma thirdPass_sym c b :
  Ascii.eqb "," c = false ->
  thirdPass (String c EmptyString ++ b) = (String c EmptyString ++ thirdPass b)%string.
Proof. apply thirdPass_char. Qed.

Lemma thirdPass_comma c s :
  Ascii.eqb " " c = false -> thirdPass (String "," (String c s)) = String "," (thirdPass (String c s)).
Proof.
  intros H. unfold thirdPass at 1. rewrite replaceAllFrom_cons. cbn [Text.hasPrefix].
  rewrite H. reflexivity.
Qed.

Lemma thirdPass_comma_sym c s :
  Ascii.eqb " " c = false -> thirdPass ("," ++ String c s) = ("," ++ thirdPass (String c s))%string.
Proof. apply thirdPass_comma. Qed.

Lemma thirdPass_comma_space c s :
  Ascii.eqb "}" c = false ->
  thirdPass (String "," (String " " (String c s))) = String "," (thirdPass (String " " (String c s))).
Proof.
  intros H. unfold thirdPass at 1. rewrite replaceAllFrom_cons. cbn [Text.hasPrefix].
  rewrite H. reflexivity.
Qed.

Lemma thirdPass_chars a b : allChars notComma a = true -> thirdPass (a ++ b) = (a ++ thirdPass b)%string.
Proof.
  induction a as [|c a IH]; [reflexivity|]. cbn [allChars]. intros H.
  apply andb_prop in H as [H1 H2]. rewrite !TextFacts.app_cons.
  rewrite thirdPass_char, (IH H2); [reflexivity|].
  unfold notComma in H1. apply negb_true_iff in H1. exact H1.
Qed.

Lemma thirdPass_inner a X :
  allChars notBrace a = true ->
  thirdPass (a ++ String Text.dquote X) = (a ++ thirdPass (String Text.dquote X))%string.
Proof.
  induction a as [|c a IH]; [reflexivity|]. cbn [allChars]. intros H.
  apply andb_prop in H as [_ H2]. specialize (IH H2). rewrite !TextFacts.app_cons.
  destruct (Ascii.eqb_spec "," c) as [<-|Hc].
  - rewrite <- IH. destruct a as [|c2 a].
    + apply (thirdPass_comma Text.dquote X eq_refl).
    + rewrite TextFacts.app_cons. destruct (Ascii.eqb_spec " " c2) as [<-|Hs].
      * cbn [allChars] in H2. apply andb_prop in H2 as [_ H3].
        destruct a as [|c3 a].
        -- apply (thirdPass_comma_space Text.dquote X eq_refl).
        -- rewrite TextFacts.app_cons. apply thirdPass_comma_space. cbn [allChars] in H3.
           apply andb_prop in H3 as [H3 _]. unfold notBrace in H3.
           apply negb_true_iff in H3. exact H3.
      * apply thirdPass_comma. apply Ascii.eqb_neq, Hs.
  - rewrite thirdPass_char, IH; [reflexivity|]. apply Ascii.eqb_neq, Hc.
Qed.

Lemma thirdPass_string s b : safe s = true -> thirdPass (quote s ++ b) = (quote s ++ thirdPass b)%string.
Proof.
  intros Hs. rewrite !quote_app. rewrite (thirdPass_char Text.dquote _ eq_refl).
  rewrite (thirdPass_inner s b (safe_notBrace s Hs)), (thirdPass_char Text.dquote _ eq_refl).
  reflexivity.
Qed.

Definition pass3 (v : json) : Prop :=
  forall b, thirdPass (render v ++ b) = (render v ++ thirdPass b)%string.

Lemma isSpaceRe_space c : Text.isSpaceRe c = false -> Ascii.eqb " " c = false.
Proof.
  intros H. destruct (Ascii.eqb_spec " " c) as [<-|]; [discriminate H | reflexivity].
Qed.

Lemma thirdPass_member k v tail :
  safe k = true -> pass3 v ->
  thirdPass (renderMember (k, v) ++ tail) = (renderMember (k, v) ++ thirdPass tail)%string.
Proof.
  intros Hk Hv. unfold renderMember. cbn [fst snd].
  rewrite (escape_safe k Hk), !TextFacts.app_assoc.
  rewrite (thirdPass_string k _ Hk), (thirdPass_sym ":" _ eq_refl), Hv. reflexivity.
Qed.

Lemma thirdPass_members ms : forall b,
  Forall (fun kv => pass3 (snd kv)) ms ->
  forallb cleanMember ms = true ->
  thirdPass (sepBy "," (List.map renderMember ms) ++ "}" ++ b)
  = (sepBy "," (List.map renderMember ms) ++ "}" ++ thirdPass b)%string.
Proof.
  induction ms as [|[k v] rest IH]; intros b HF Hc.
  - apply (thirdPass_char "}" b eq_refl).
  - inversion HF as [|? ? Hv HF']; subst. cbn [forallb] in Hc.
    apply andb_prop in Hc as [Hkv Hc]. apply andb_prop in Hkv as [Hk _].
    cbn [fst snd] in Hk, Hv. specialize (IH b HF' Hc).
    destruct rest as [|[k2 v2] rest'].
    + cbn [List.map sepBy]. rewrite (thirdPass_member k v _ Hk Hv), (thirdPass_sym "}" b eq_refl).
      reflexivity.
    + change (sepBy "," (List.map renderMember ((k, v) :: (k2, v2) :: rest')))
        with (renderMember (k, v) ++ ","
              ++ sepBy "," (List.map renderMember ((k2, v2) :: rest')))%string.
      rewrite !TextFacts.app_assoc, (thirdPass_member k v _ Hk Hv). rewrite <- IH.
      change (sepBy "," (List.map renderMember ((k2, v2) :: rest')))
        with (sepBy "," (renderMember (k2, v2) :: List.map renderMember rest')).
      assert (Eh : forall X, exists z, (renderMember (k2, v2) ++ X)%string = String Text.dquote z).
      { intros X. unfold renderMember. rewrite TextFacts.app_assoc, quote_app. eauto. }
      destruct rest' as [|m3 rest3].
      * cbn [List.map sepBy]. destruct (Eh ("}" ++ b)%string) as [z ->].
        rewrite (thirdPass_comma_sym Text.dquote z eq_refl). reflexivity.
      * change (sepBy "," (renderMember (k2, v2) :: List.map renderMember (m3 :: rest3)))
          with (renderMember (k2, v2) ++ ","
                ++ sepBy "," (List.map renderMember (m3 :: rest3)))%string.
        rewrite !TextFacts.app_assoc.
        destruct (Eh ("," ++ sepBy "," (List.map renderMember (m3 :: rest3)) ++ "}" ++ b)%string)
          as [z ->].
        rewrite (thirdPass_comma_sym Text.dquote z eq_refl). reflexivity.
Qed.

Lemma thirdPass_elements xs : forall b,
  Forall pass3 xs -> forallb cleanTree xs = true ->
  thirdPass (sepBy "," (List.map render xs) ++ "]" ++ b)
  = (sepBy "," (List.map render xs) ++ "]" ++ thirdPass b)%string.
Proof.
  induction xs as [|x rest IH]; intros b HF Hc.
  - apply (thirdPass_char "]" b eq_refl).
  - inversion HF as [|? ? Hx HF']; subst. cbn [forallb] in Hc.
    apply andb_prop in Hc as [_ Hc]. specialize (IH b HF' Hc).
    destruct rest as [|y rest'].
    + cbn [List.map sepBy]. rewrite Hx, (thirdPass_sym "]" b eq_refl). reflexivity.
    + change (sepBy "," (List.map render (x :: y :: rest')))
        with (render x ++ "," ++ sepBy "," (List.map render (y :: rest')))%string.
      rewrite !TextFacts.app_assoc, Hx. rewrite <- IH.
      cbn [forallb] in Hc. apply andb_prop in Hc as [Hy _].
      change (sepBy "," (List.map render (y :: rest')))
        with (sepBy "," (render y :: List.map render rest')).
      destruct rest' as [|y2 rest2].
      * cbn [List.map sepBy].
        destruct (render_head y ("]" ++ b) Hy) as (c & z & -> & Hh & _).
        rewrite (thirdPass_comma_sym c z (isSpaceRe_space c Hh)). reflexivity.
      * change (sepBy "," (render y :: List.map render (y2 :: rest2)))
          with (render y ++ "," ++ sepBy "," (List.map render (y2 :: rest2)))%string.
        rewrite !TextFacts.app_assoc.
        destruct (render_head y ("," ++ sepBy "," (List.map render (y2 :: rest2)) ++ "]" ++ b) Hy)
          as (c & z & -> & Hh & _).
        rewrite (thirdPass_comma_sym c z (isSpaceRe_space c Hh)). reflexivity.
Qed.

Lemma pass3_clean n : forall v, size v <= n -> cleanTree v = true -> pass3 v.
Proof.
  induction n as [|n IH]; intros v Hn Hc.
  { pose proof (size_positive v). lia. }
  destruct v as [|bv|raw|s|xs|ms|t]; cbn [cleanTree] in Hc; intros b.
  - apply (thirdPass_chars "null" b eq_refl).
  - destruct bv; [apply (thirdPass_chars "true" b eq_refl) | apply (thirdPass_chars "false" b eq_refl)].
  - unfold numberLiteral in Hc. apply andb_prop in Hc as [Hc _].
    apply (thirdPass_chars raw b (numChar_notComma raw Hc)).
  - cbn [render]. rewrite (escape_safe s Hc). apply thirdPass_string, Hc.
  - rewrite render_array, !TextFacts.app_assoc.
    rewrite (thirdPass_sym "[" _ eq_refl), thirdPass_elements; [reflexivity| |exact Hc].
    apply List.Forall_forall. intros x Hx. apply IH.
    + pose proof (size_element x xs Hx). cbn [size] in Hn. lia.
    + rewrite forallb_forall in Hc. apply Hc, Hx.
  - rewrite render_object, !TextFacts.app_assoc.
    rewrite (thirdPass_sym "{" _ eq_refl), thirdPass_members; [reflexivity| |exact Hc].
    apply List.Forall_forall. intros kv Hkv. apply IH.
    + pose proof (size_member kv ms Hkv). cbn [size] in Hn. lia.
    + rewrite forallb_forall in Hc. specialize (Hc kv Hkv).
      apply andb_prop in Hc as [_ Hc]. exact Hc.
  - discriminate Hc.
Qed.

(** Removing members keeps a clean value clean. *)
Lemma strip_clean n : forall v, size v <= n -> cleanTree v = true -> cleanTree (strip v) = true.
Proof.
  induction n as [|n IH]; intros v Hn Hc.
  { pose proof (size_positive v). lia. }
  destruct v as [|bv|raw|s|xs|ms|t]; try exact Hc.
  - cbn [strip cleanTree] in *. apply forallb_forall. intros y Hy.
    apply in_map_iff in Hy as (x & <- & Hx). apply IH.
    + pose proof (size_element x xs Hx). cbn [size] in Hn. lia.
    + rewrite forallb_forall in Hc. apply Hc, Hx.
  - rewrite strip_object. cbn [cleanTree] in *. apply forallb_forall. intros y Hy.
    unfold stripMembers in Hy. apply in_flat_map in Hy as (kv & Hkv & Hy).
    rewrite forallb_forall in Hc. specialize (Hc kv Hkv).
    apply andb_prop in Hc as [Hk Hc].
    destruct (removable kv); [contradiction Hy|]. destruct Hy as [<-|[]].
    cbn [fst snd]. rewrite Hk. cbn [andb]. apply IH; [|exact Hc].
    pose proof (size_member kv ms Hkv). cbn [size] in Hn. lia.
Qed.


(** On the compact text of a JSON value whose keys and strings hold no
    quote, backslash, line feed or closing brace and whose numbers are
    literals, [cleanToolSchema] gives the compact text of the same value
    without its members ["additionalProperties": true] and
    ["additionalProperties": false], at every depth: a comma the pattern
    leaves before a closing brace is taken out by the second pass, a comma
    inside a string stays, and an [additionalProperties] member whose value
    is an object, a string or a number stays as well. *)
Theorem cleanToolSchema_strips_the_members :
  forall (t : json),
    cleanTree t = true ->
    cleanToolSchema (render t) = render (strip t).
Proof.
  intros t Hc. unfold cleanToolSchema, Text.replaceAll.
  fold (firstPass (render t)).
  rewrite <- (TextFacts.app_nil_r (render t)) at 1.
  rewrite (pass1_clean (size t) t (le_n _) Hc EmptyString eq_refl).
  change (firstPass EmptyString) with EmptyString.
  fold (secondPass (out1 t ++ EmptyString)).
  rewrite (pass2_clean (size t) t (le_n _) Hc EmptyString).
  change (secondPass EmptyString) with EmptyString.
  fold (thirdPass (render (strip t) ++ EmptyString)).
  rewrite (pass3_clean (size (strip t)) (strip t) (le_n _)
             (strip_clean (size t) t (le_n _) Hc) EmptyString).
  apply TextFacts.app_nil_r.
Qed.

Section SchemaExamples.

(** A parameters schema with the member at two depths, a comma inside a
    description and an [additionalProperties] member that is an object. *)
Definition strictSchema : json :=
  JObj [("type", JStr "object");
        ("properties",
         JObj [("city", JObj [("type", JStr "string");
                              ("description", JStr "City, or town");
                              ("additionalProperties", JBool false)]);
               ("tags", JObj [("additionalProperties", JObj [("type", JStr "string")]);
                              ("minProperties", JNum "1")])]);
        ("required", JArr [JStr "city"]);
        ("additionalProperties", JBool true)]%string.

Lemma cleanToolSchema_strips_the_members_witness :
  cleanTree strictSchema = true
  /\ cleanToolSchema (render strictSchema) = render (strip strictSchema).
Proof.
  assert (H : cleanTree strictSchema = true) by (vm_compute; reflexivity).
  exact (conj H (cleanToolSchema_strips_the_members strictSchema H)).
Defined.

Example strictSchema_cleaned :
  strip strictSchema
  = JObj [("type", JStr "object");
          ("properties",
           JObj [("city", JObj [("type", JStr "string");
                                ("description", JStr "City, or town")]);
                 ("tags", JObj [("additionalProperties", JObj [("type", JStr "string")]);
                                ("minProperties", JNum "1")])]);
          ("required", JArr [JStr "city"])]%string.
Proof. reflexivity. Qed.

End SchemaExamples.

End SchemaTree.

Module TranslatorFacts.
Import Json Translator.
Local Open Scope nat_scope.
Local Open Scope list_scope.

Section Determinism.
Context `{Ext : Externals}.

(** Without tool ids the random source is handed on untouched, and what is
    built does not depend on it. *)
Lemma toolUsePart_no_ids node p r r' item :
  toolUsePart false node p r item
  = (fst (toolUsePart false node p r' item), r).
Proof. reflexivity. Qed.

Lemma assistantItem_no_ids node p r r' item :
  assistantItem false (node, p, r) item
  = (fst (assistantItem false (node, p, r') item), r).
Proof.
  unfold assistantItem.
  destruct (String.eqb _ "text"); [reflexivity|].
  destruct (String.eqb _ "image_url"); [destruct (imageURLPart node p item); reflexivity|].
  destruct (String.eqb _ "tool_use"); [apply toolUsePart_no_ids | reflexivity].
Qed.

Lemma assistantItems_no_ids items : forall node p r r',
  fold_left (assistantItem false) items (node, p, r)
  = (fst (fold_left (assistantItem false) items (node, p, r')), r).
Proof.
  induction items as [|item items IH]; intros node p r r'; [reflexivity|].
  cbn [fold_left].
  rewrite (assistantItem_no_ids node p r r').
  destruct (assistantItem false (node, p, r') item) as [[node1 p1] r1].
  cbn [fst]. rewrite (IH node1 p1 r r1). reflexivity.
Qed.

Lemma assistantNode_no_ids content r r' :
  assistantNode false content r = (fst (assistantNode false content r'), r).
Proof.
  unfold assistantNode.
  destruct content as [[ | | | | items | | ]|]; try reflexivity.
  apply assistantItems_no_ids.
Qed.

(** The call state with another random source. *)
Definition withRng (st : callState) (r : rng) : callState :=
  mkCallState (csNode st) (csP st) (csNames st) r (csFIDs st).

Lemma toolCall_no_ids st r tc :
  toolCall false (withRng st r) tc = withRng (toolCall false st tc) r.
Proof.
  unfold toolCall.
  destruct (negb _); [reflexivity|].
  cbn [andb csRng csNode csP csNames csFIDs withRng]. reflexivity.
Qed.

Lemma toolCalls_no_ids calls : forall st r,
  fold_left (toolCall false) calls (withRng st r)
  = withRng (fold_left (toolCall false) calls st) r.
Proof.
  induction calls as [|tc calls IH]; intros st r; [reflexivity|].
  cbn [fold_left]. rewrite toolCall_no_ids. apply IH.
Qed.

Definition withLoopRng (st : loopState) (r : rng) : loopState :=
  mkLoop (lsOut st) (lsNames st) r.

Lemma assistantMessage_no_ids toolResponses st r m :
  assistantMessage false toolResponses (withLoopRng st r) m
  = withLoopRng (assistantMessage false toolResponses st m) r.
Proof.
  unfold assistantMessage. cbn [withLoopRng lsRng lsOut lsNames].
  rewrite (assistantNode_no_ids _ r (lsRng st)).
  destruct (assistantNode false (gjsonGet m [Key "content"]) (lsRng st)) as [[node p] r1].
  cbn [fst].
  destruct (gjsonGet m [Key "tool_calls"]) as [[ | | | | calls | | ]|]; try reflexivity.
  change (mkCallState node p (lsNames st) r [])
    with (withRng (mkCallState node p (lsNames st) r1 []) r).
  rewrite toolCalls_no_ids.
  set (cs := fold_left (toolCall false) calls _).
  cbn [withRng csNode csNames csFIDs csRng].
  destruct (functionNode false (csNames cs) toolResponses (csFIDs cs)) as [toolNode pp].
  reflexivity.
Qed.

Lemma message_no_ids n toolResponses st r m :
  message false n toolResponses (withLoopRng st r) m
  = withLoopRng (message false n toolResponses st m) r.
Proof.
  unfold message.
  destruct (_ && _)%bool; [reflexivity|].
  destruct (_ || _)%bool; [reflexivity|].
  destruct (String.eqb _ "tool"); [reflexivity|].
  destruct (String.eqb _ "assistant"); [apply assistantMessage_no_ids | reflexivity].
Qed.

Lemma messages_no_ids n toolResponses arr : forall st r,
  fold_left (message false n toolResponses) arr (withLoopRng st r)
  = withLoopRng (fold_left (message false n toolResponses) arr st) r.
Proof.
  induction arr as [|m arr IH]; intros st r; [reflexivity|].
  cbn [fold_left]. rewrite message_no_ids. apply IH.
Qed.

Lemma applyMessages_no_ids rawJSON out r r' :
  fst (applyMessages false rawJSON out r) = fst (applyMessages false rawJSON out r').
Proof.
  unfold applyMessages.
  destruct (gjsonGet rawJSON [Key "messages"]) as [[ | | | | arr | | ]|]; try reflexivity.
  change (mkLoop out (collectNames arr) r)
    with (withLoopRng (mkLoop out (collectNames arr) r') r).
  rewrite messages_no_ids. reflexivity.
Qed.

(** C9. For a model name that does not contain "claude" (in any case of its
    letters) the translation of a request is a function of the model name and
    the request alone: two runs that draw different random numbers return the
    same value, hence the same bytes. *)
Theorem C9_deterministic_without_claude :
  forall (modelName : string) (inputRawJSON : json) (stream : bool) (r1 r2 : rng),
    includeToolIDs modelName = false ->
    fst (ConvertOpenAIRequestToAntigravity modelName inputRawJSON stream r1)
    = fst (ConvertOpenAIRequestToAntigravity modelName inputRawJSON stream r2)
    /\ render (fst (ConvertOpenAIRequestToAntigravity modelName inputRawJSON stream r1))
       = render (fst (ConvertOpenAIRequestToAntigravity modelName inputRawJSON stream r2)).
Proof.
  intros modelName inputRawJSON stream r1 r2 Hincl.
  assert (H : fst (ConvertOpenAIRequestToAntigravity modelName inputRawJSON stream r1)
              = fst (ConvertOpenAIRequestToAntigravity modelName inputRawJSON stream r2)).
  { unfold ConvertOpenAIRequestToAntigravity. rewrite Hincl.
    set (out0 := applyGenerationParams _ _).
    pose proof (applyMessages_no_ids inputRawJSON out0 r1 r2) as Hm.
    destruct (applyMessages false inputRawJSON out0 r1) as [o1 q1].
    destruct (applyMessages false inputRawJSON out0 r2) as [o2 q2].
    cbn [fst] in *. subst o2. reflexivity. }
  split; [exact H | rewrite H; reflexivity].
Qed.

End Determinism.

Section DeterminismExamples.
#[local] Existing Instance Sample.sampleExternals.

(** The statement at work: a request with a tool call that has no id, under a
    model that is not Claude, and two random sources. *)
Lemma C9_deterministic_without_claude_witness :
  includeToolIDs "gemini-2.5-pro" = false
  /\ fst (ConvertOpenAIRequestToAntigravity "gemini-2.5-pro"
            (JObj [("messages", JArr [JObj [("role", JStr "assistant");
               ("tool_calls", JArr [JObj [("function", JObj [("name", JStr "add")])]])]])])
            false Sample.zeroRng)
     = fst (ConvertOpenAIRequestToAntigravity "gemini-2.5-pro"
            (JObj [("messages", JArr [JObj [("role", JStr "assistant");
               ("tool_calls", JArr [JObj [("function", JObj [("name", JStr "add")])]])]])])
            false Sample.countRng).
Proof.
  split; [reflexivity|].
  apply (C9_deterministic_without_claude "gemini-2.5-pro").
  reflexivity.
Defined.

End DeterminismExamples.

(** ** Content nodes and their parts *)

Section Nodes.

(** A content node: [{"role": role, "parts": [...]}]. *)
Definition mkNode (role : string) (ps : list json) : json :=
  JObj [("role", JStr role); ("parts", JArr ps)].

Lemma updNth_last f ps x :
  updNth (length ps) f (ps ++ [x])
  = match f x with Some x' => Some (ps ++ [x']) | None => None end.
Proof.
  induction ps as [|y ps IH]; cbn [length app updNth].
  - destruct (f x); reflexivity.
  - rewrite IH. destruct (f x); reflexivity.
Qed.

(** Setting below the index just past the last part adds a part. *)
Lemma sjsonSet_new_part role ps rest v :
  sjsonSet (mkNode role ps) (Key "parts" :: Idx (length ps) :: rest) v
  = Some (mkNode role (ps ++ [build rest v])).
Proof.
  unfold mkNode. cbn [sjsonSet updFirst segKey String.eqb Ascii.eqb Bool.eqb andb].
  rewrite Nat.ltb_irrefl, Nat.sub_diag. reflexivity.
Qed.

(** Setting below the index of the last part changes that part. *)
Lemma sjsonSet_last_part role ps part rest v :
  sjsonSet (mkNode role (ps ++ [part])) (Key "parts" :: Idx (length ps) :: rest) v
  = match sjsonSet part rest v with
    | Some part' => Some (mkNode role (ps ++ [part']))
    | None => None
    end.
Proof.
  unfold mkNode. cbn [sjsonSet updFirst segKey String.eqb Ascii.eqb Bool.eqb andb].
  assert (H : Nat.ltb (length ps) (length (ps ++ [part])) = true).
  { apply Nat.ltb_lt. rewrite length_app. cbn. lia. }
  rewrite H, updNth_last. destruct (sjsonSet part rest v); reflexivity.
Qed.

Lemma set_new_part role ps rest v :
  set (mkNode role ps) (Key "parts" :: Idx (length ps) :: rest) v
  = mkNode role (ps ++ [build rest v]).
Proof. unfold set. rewrite sjsonSet_new_part. reflexivity. Qed.

Lemma set_last_part role ps part part' rest v :
  sjsonSet part rest v = Some part' ->
  set (mkNode role (ps ++ [part])) (Key "parts" :: Idx (length ps) :: rest) v
  = mkNode role (ps ++ [part']).
Proof. intros H. unfold set. rewrite sjsonSet_last_part, H. reflexivity. Qed.

Lemma set_append_part role ps rest v :
  set (mkNode role ps) (Key "parts" :: Append :: rest) v
  = mkNode role (ps ++ [build rest v]).
Proof. reflexivity. Qed.

End Nodes.

(** ** The parts each item gives

    For each kind of item, the parts it adds to its content node, written
    out as values; the functions of the source add exactly these. *)

Section Parts.
Context `{Ext : Externals}.

Definition textPart (s : string) : json := JObj [("text", JStr s)].

Definition inlineDataPart (mime data : string) : json :=
  JObj [("inlineData", JObj [("mime_type", JStr mime); ("data", JStr data)])].

(** The [id] member: present when ids are included and the id is not empty. *)
Definition idField (incl : bool) (id : string) : list (string * json) :=
  if (incl && negb (String.eqb id EmptyString))%bool then [("id", JStr id)] else [].

Definition argsField (fargs : string) : string * json :=
  if gjsonValid fargs then ("args", JRaw fargs)
  else ("args", JObj [("params", JStr fargs)]).

Definition functionCallPart (incl : bool) (name id fargs : string) : json :=
  JObj [("functionCall", JObj ([("name", JStr name)] ++ idField incl id ++ [argsField fargs]))].

Definition imageParts (item : json) : list json :=
  let imageURL := str (gjsonGet item [Key "image_url"; Key "url"]) in
  if Nat.ltb 5 (String.length imageURL) then
    match splitN2 (Text.dropStr 5 imageURL) with
    | (mime, Some rest) =>
        if Nat.ltb 7 (String.length rest) then [inlineDataPart mime (Text.dropStr 7 rest)]
        else []
    | (_, None) => []
    end
  else [].

Definition fileParts (item : json) : list json :=
  let filename := str (gjsonGet item [Key "file"; Key "filename"]) in
  let ext := match afterLastDot filename with Some e => e | None => EmptyString end in
  match MimeTypes !! ext with
  | Some mimeType =>
      [inlineDataPart mimeType (str (gjsonGet item [Key "file"; Key "file_data"]))]
  | None => []
  end.

Definition toolResultParts (incl : bool) (tcID2Name : gmap string string) (item : json)
  : list json :=
  let toolID := str (gjsonGet item [Key "tool_use_id"]) in
  match tcID2Name !! toolID with
  | Some name =>
      [JObj [("functionResponse",
              JObj ([("name", JStr name)] ++ idField incl toolID
                    ++ [("response",
                         JObj [("result",
                                JStr (toolResultContent (gjsonGet item [Key "content"])))])]))]]
  | None => []
  end.

Definition userItemParts (incl : bool) (tcID2Name : gmap string string) (item : json)
  : list json :=
  let ty := str (gjsonGet item [Key "type"]) in
  if String.eqb ty "text" then [textPart (str (gjsonGet item [Key "text"]))]
  else if String.eqb ty "image_url" then imageParts item
  else if String.eqb ty "file" then fileParts item
  else if String.eqb ty "tool_result" then toolResultParts incl tcID2Name item
  else [].

Ltac node_eq :=
  repeat rewrite app_nil_r;
  repeat rewrite length_app; cbn [length];
  repeat rewrite Nat.add_0_r; repeat rewrite Nat.add_1_r; reflexivity.

Lemma imageURLPart_parts role ps item :
  imageURLPart (mkNode role ps) (length ps) item
  = (mkNode role (ps ++ imageParts item), length (ps ++ imageParts item)).
Proof.
  unfold imageURLPart, imageParts.
  destruct (Nat.ltb 5 _); [|node_eq].
  destruct (splitN2 _) as [mime [rest|]]; [|node_eq].
  destruct (Nat.ltb 7 _); [|node_eq].
  unfold partPath. cbn [List.map]. rewrite set_new_part.
  rewrite (set_last_part _ _ _ (inlineDataPart mime (Text.dropStr 7 rest))) by reflexivity.
  node_eq.
Qed.

Lemma filePart_parts role ps item :
  filePart (mkNode role ps) (length ps) item
  = (mkNode role (ps ++ fileParts item), length (ps ++ fileParts item)).
Proof.
  unfold filePart, fileParts.
  destruct (MimeTypes !! _) as [mimeType|]; [|node_eq].
  unfold partPath. cbn [List.map]. rewrite set_new_part.
  rewrite (set_last_part _ _ _
             (inlineDataPart mimeType (str (gjsonGet item [Key "file"; Key "file_data"]))))
    by reflexivity.
  node_eq.
Qed.

Lemma toolResultPart_parts incl tcID2Name role ps item :
  toolResultPart incl tcID2Name (mkNode role ps) (length ps) item
  = (mkNode role (ps ++ toolResultParts incl tcID2Name item),
     length (ps ++ toolResultParts incl tcID2Name item)).
Proof.
  unfold toolResultPart, toolResultParts.
  destruct (tcID2Name !! _) as [name|]; [|node_eq].
  rewrite set_new_part. unfold idField.
  destruct (incl && _)%bool; node_eq.
Qed.

Lemma userItem_parts incl tcID2Name ps item :
  userItem incl tcID2Name (mkNode "user" ps, length ps) item
  = (mkNode "user" (ps ++ userItemParts incl tcID2Name item),
     length (ps ++ userItemParts incl tcID2Name item)).
Proof.
  unfold userItem, userItemParts.
  destruct (String.eqb _ "text").
  { unfold partPath. cbn [List.map]. rewrite set_new_part. node_eq. }
  destruct (String.eqb _ "image_url"); [apply imageURLPart_parts|].
  destruct (String.eqb _ "file"); [apply filePart_parts|].
  destruct (String.eqb _ "tool_result"); [apply toolResultPart_parts | node_eq].
Qed.

Lemma userItems_parts incl tcID2Name items : forall ps,
  fold_left (userItem incl tcID2Name) items (mkNode "user" ps, length ps)
  = (mkNode "user" (ps ++ flat_map (userItemParts incl tcID2Name) items),
     length (ps ++ flat_map (userItemParts incl tcID2Name) items)).
Proof.
  induction items as [|item items IH]; intros ps; cbn [fold_left flat_map].
  - node_eq.
  - rewrite userItem_parts, IH, <- app_assoc. reflexivity.
Qed.

(** The parts of the user content built from a message content. *)
Definition userParts (incl : bool) (tcID2Name : gmap string string) (content : option json)
  : list json :=
  match content with
  | Some (JStr s) => [textPart s]
  | Some (JArr items) => flat_map (userItemParts incl tcID2Name) items
  | _ => []
  end.

Lemma userNode_parts incl tcID2Name content :
  userNode incl tcID2Name content = mkNode "user" (userParts incl tcID2Name content).
Proof.
  unfold userNode, userParts.
  destruct content as [[ | | | | items | | ]|]; try reflexivity.
  change (JObj [("role", JStr "user"); ("parts", JArr [])]) with (mkNode "user" []).
  change O with (length (@nil json)).
  rewrite userItems_parts. reflexivity.
Qed.

(** The id a call is emitted with: the client's, or a generated one when ids
    are included and the client gave none. *)
Definition effectiveId (incl : bool) (fid : string) (r : rng) : string * rng :=
  if (incl && String.eqb fid EmptyString)%bool then genToolCallID r else (fid, r).

Lemma functionCall_node incl name fid fargs :
  setArgs
    (if (incl && negb (String.eqb fid EmptyString))%bool
     then set (set (JObj []) [Key "functionCall"; Key "name"] (JStr name))
              [Key "functionCall"; Key "id"] (JStr fid)
     else set (JObj []) [Key "functionCall"; Key "name"] (JStr name))
    [] fargs
  = functionCallPart incl name fid fargs.
Proof.
  unfold setArgs, functionCallPart, idField, argsField.
  destruct (incl && _)%bool, (gjsonValid fargs); reflexivity.
Qed.

Definition toolUseParts (incl : bool) (r : rng) (item : json) : list json * rng :=
  let (fid, r') := effectiveId incl (str (gjsonGet item [Key "id"])) r in
  ([functionCallPart incl (str (gjsonGet item [Key "name"])) fid
      (raw (gjsonGet item [Key "input"]))], r').

Lemma toolUsePart_parts incl role ps r item :
  toolUsePart incl (mkNode role ps) (length ps) r item
  = (mkNode role (ps ++ fst (toolUseParts incl r item)),
     length (ps ++ fst (toolUseParts incl r item)),
     snd (toolUseParts incl r item)).
Proof.
  unfold toolUsePart, toolUseParts, effectiveId.
  destruct (if (incl && String.eqb _ EmptyString)%bool then _ else _) as [fid r'].
  rewrite functionCall_node.
  change [Key "parts"; Idx (length ps)] with (Key "parts" :: Idx (length ps) :: []).
  rewrite set_new_part. cbn [fst snd build]. f_equal. f_equal. node_eq.
Qed.

Definition assistantItemParts (incl : bool) (r : rng) (item : json) : list json * rng :=
  let ty := str (gjsonGet item [Key "type"]) in
  if String.eqb ty "text" then ([textPart (str (gjsonGet item [Key "text"]))], r)
  else if String.eqb ty "image_url" then (imageParts item, r)
  else if String.eqb ty "tool_use" then toolUseParts incl r item
  else ([], r).

Lemma assistantItem_parts incl ps r item :
  assistantItem incl (mkNode "model" ps, length ps, r) item
  = (mkNode "model" (ps ++ fst (assistantItemParts incl r item)),
     length (ps ++ fst (assistantItemParts incl r item)),
     snd (assistantItemParts incl r item)).
Proof.
  unfold assistantItem, assistantItemParts.
  destruct (String.eqb _ "text").
  { unfold partPath. cbn [List.map fst snd]. rewrite set_new_part.
    f_equal. f_equal. node_eq. }
  destruct (String.eqb _ "image_url").
  { rewrite imageURLPart_parts. reflexivity. }
  destruct (String.eqb _ "tool_use"); [apply toolUsePart_parts|].
  cbn [fst snd]. rewrite app_nil_r. reflexivity.
Qed.

Fixpoint assistantItemsParts (incl : bool) (r : rng) (items : list json) : list json * rng :=
  match items with
  | [] => ([], r)
  | item :: rest =>
      let (ps1, r1) := assistantItemParts incl r item in
      let (ps2, r2) := assistantItemsParts incl r1 rest in
      (ps1 ++ ps2, r2)
  end.

Lemma assistantItems_parts incl items : forall ps r,
  fold_left (assistantItem incl) items (mkNode "model" ps, length ps, r)
  = (mkNode "model" (ps ++ fst (assistantItemsParts incl r items)),
     length (ps ++ fst (assistantItemsParts incl r items)),
     snd (assistantItemsParts incl r items)).
Proof.
  induction items as [|item items IH]; intros ps r; cbn [fold_left assistantItemsParts].
  - cbn [fst snd]. rewrite app_nil_r. reflexivity.
  - rewrite assistantItem_parts.
    destruct (assistantItemParts incl r item) as [ps1 r1]. cbn [fst snd].
    rewrite IH. destruct (assistantItemsParts incl r1 items) as [ps2 r2]. cbn [fst snd].
    rewrite <- app_assoc. reflexivity.
Qed.

(** The parts of the model content built from a message content. *)
Definition assistantParts (incl : bool) (content : option json) (r : rng) : list json * rng :=
  match content with
  | Some (JStr s) => ([textPart s], r)
  | Some (JArr items) => assistantItemsParts incl r items
  | _ => ([], r)
  end.

Lemma assistantNode_parts incl content r :
  assistantNode incl content r
  = (mkNode "model" (fst (assistantParts incl content r)),
     length (fst (assistantParts incl content r)),
     snd (assistantParts incl content r)).
Proof.
  unfold assistantNode, assistantParts.
  destruct content as [[ | | | | items | | ]|]; try reflexivity.
  change (JObj [("role", JStr "model"); ("parts", JArr [])]) with (mkNode "model" []).
  change O with (length (@nil json)).
  rewrite assistantItems_parts. reflexivity.
Qed.

(** *** Tool calls *)

(** What one entry of [tool_calls] adds: nothing when its type is neither
    [function] nor empty. *)
Definition toolCallStep (incl : bool) (ps : list json) (names : gmap string string)
    (r : rng) (fIDs : list string) (tc : json)
  : list json * gmap string string * rng * list string :=
  if negb (isFunctionCallType (str (gjsonGet tc [Key "type"]))) then (ps, names, r, fIDs)
  else
    let fname := str (gjsonGet tc [Key "function"; Key "name"]) in
    let fargs := str (gjsonGet tc [Key "function"; Key "arguments"]) in
    let (fid, r') := effectiveId incl (str (gjsonGet tc [Key "id"])) r in
    (ps ++ [functionCallPart incl fname fid fargs],
     if (incl && negb (String.eqb fid EmptyString) && negb (String.eqb fname EmptyString))%bool
     then <[fid := fname]> names else names,
     r',
     if negb (String.eqb fid EmptyString) then fIDs ++ [fid] else fIDs).

Definition callStateOf (role : string)
    (x : list json * gmap string string * rng * list string) : callState :=
  let '(ps, names, r, fIDs) := x in
  mkCallState (mkNode role ps) (length ps) names r fIDs.

Lemma toolCall_step incl role ps names r fIDs tc :
  toolCall incl (callStateOf role (ps, names, r, fIDs)) tc
  = callStateOf role (toolCallStep incl ps names r fIDs tc).
Proof.
  unfold toolCall, toolCallStep, effectiveId.
  destruct (negb (isFunctionCallType _)); [reflexivity|].
  cbn [callStateOf csNode csP csNames csRng csFIDs].
  destruct (if (incl && String.eqb _ EmptyString)%bool then _ else _) as [fid r'].
  unfold partPath. cbn [List.map]. rewrite set_new_part.
  cbn [build].
  unfold setArgs, functionCallPart, idField, argsField.
  set (fname := str (gjsonGet tc [Key "function"; Key "name"])).
  set (fargs := str (gjsonGet tc [Key "function"; Key "arguments"])).
  cbn [app].
  destruct (incl && negb (String.eqb fid EmptyString))%bool;
    [erewrite set_last_part by reflexivity|];
    (destruct (gjsonValid fargs);
     erewrite set_last_part by reflexivity;
     cbn [callStateOf andb app]; rewrite length_app; cbn [length];
     rewrite Nat.add_1_r; reflexivity).
Qed.

Fixpoint toolCallSteps (incl : bool) (ps : list json) (names : gmap string string)
    (r : rng) (fIDs : list string) (calls : list json)
  : list json * gmap string string * rng * list string :=
  match calls with
  | [] => (ps, names, r, fIDs)
  | tc :: rest =>
      let '(ps', names', r', fIDs') := toolCallStep incl ps names r fIDs tc in
      toolCallSteps incl ps' names' r' fIDs' rest
  end.

Lemma toolCalls_steps incl role calls : forall ps names r fIDs,
  fold_left (toolCall incl) calls (callStateOf role (ps, names, r, fIDs))
  = callStateOf role (toolCallSteps incl ps names r fIDs calls).
Proof.
  induction calls as [|tc calls IH]; intros ps names r fIDs; [reflexivity|].
  cbn [fold_left toolCallSteps]. rewrite toolCall_step.
  destruct (toolCallStep incl ps names r fIDs tc) as [[[ps' names'] r'] fIDs'].
  apply IH.
Qed.

(** *** Function responses *)

(** The [response] member of a function response, from the raw text kept for
    the call: [{}] when there is none, nothing for [null], the raw text when
    it opens with a brace or a bracket, and the raw text as a string
    otherwise. *)
Definition responseField (resp : option string) : list (string * json) :=
  let resp := default EmptyString resp in
  let resp := if String.eqb resp EmptyString then "{}" else resp in
  if String.eqb resp "null" then []
  else [("response",
         JObj [("result", match parseJSONRaw resp with
                          | Some parsedRaw => JRaw parsedRaw
                          | None => JStr resp
                          end)])].

Definition functionResponsePart (incl : bool) (name fid : string) (resp : option string)
  : json :=
  JObj [("functionResponse",
         JObj ([("name", JStr name)] ++ (if incl then [("id", JStr fid)] else [])
               ++ responseField resp))].

Definition functionResponseParts (incl : bool) (tcID2Name toolResponses : gmap string string)
    (fid : string) : list json :=
  match tcID2Name !! fid with
  | Some name => [functionResponsePart incl name fid (toolResponses !! fid)]
  | None => []
  end.

Lemma functionResponse_parts incl tcID2Name toolResponses ps fid :
  functionResponse incl tcID2Name toolResponses (mkNode "function" ps, length ps) fid
  = (mkNode "function" (ps ++ functionResponseParts incl tcID2Name toolResponses fid),
     length (ps ++ functionResponseParts incl tcID2Name toolResponses fid)).
Proof.
  unfold functionResponse, functionResponseParts, functionResponsePart, responseField.
  destruct (tcID2Name !! fid) as [name|]; [|node_eq].
  unfold partPath. cbn [List.map]. rewrite set_new_part. cbn [build].
  set (resp := if String.eqb (default EmptyString (toolResponses !! fid)) EmptyString
               then "{}" else default EmptyString (toolResponses !! fid)).
  destruct incl; [erewrite set_last_part by reflexivity|];
    (destruct (String.eqb resp "null"); cbn [negb];
     [|destruct (parseJSONRaw resp); erewrite set_last_part by reflexivity];
     cbn [app]; rewrite length_app; cbn [length]; rewrite Nat.add_1_r; reflexivity).
Qed.

Lemma functionResponses_parts incl tcID2Name toolResponses fIDs : forall ps,
  fold_left (functionResponse incl tcID2Name toolResponses) fIDs
            (mkNode "function" ps, length ps)
  = (mkNode "function"
       (ps ++ flat_map (functionResponseParts incl tcID2Name toolResponses) fIDs),
     length (ps ++ flat_map (functionResponseParts incl tcID2Name toolResponses) fIDs)).
Proof.
  induction fIDs as [|fid fIDs IH]; intros ps; cbn [fold_left flat_map].
  - node_eq.
  - rewrite functionResponse_parts, IH, <- app_assoc. reflexivity.
Qed.

Lemma functionNode_parts incl tcID2Name toolResponses fIDs :
  functionNode incl tcID2Name toolResponses fIDs
  = (mkNode "function" (flat_map (functionResponseParts incl tcID2Name toolResponses) fIDs),
     length (flat_map (functionResponseParts incl tcID2Name toolResponses) fIDs)).
Proof.
  unfold functionNode.
  change (JObj [("role", JStr "function"); ("parts", JArr [])]) with (mkNode "function" []).
  change O with (length (@nil json)).
  apply functionResponses_parts.
Qed.

End Parts.

(** ** The contents of the request that is built *)

Section Contents.

Definition contentsOf (out : json) : list json :=
  match gjsonGet out [Key "request"; Key "contents"] with
  | Some (JArr cs) => cs
  | _ => []
  end.

Definition partsOf (content : json) : list json :=
  match gjsonGet content [Key "parts"] with
  | Some (JArr ps) => ps
  | _ => []
  end.

(** Every part of every content of the request. *)
Definition emittedParts (out : json) : list json := flat_map partsOf (contentsOf out).

Lemma partsOf_mkNode role ps : partsOf (mkNode role ps) = ps.
Proof. reflexivity. Qed.

Lemma lookupKey_app k ms k' v :
  lookupKey k (ms ++ [(k', v)])
  = match lookupKey k ms with
    | Some x => Some x
    | None => if String.eqb k k' then Some v else None
    end.
Proof.
  induction ms as [|[k0 v0] ms IH]; cbn [app lookupKey]; [reflexivity|].
  destruct (String.eqb k k0); [reflexivity | exact IH].
Qed.

Lemma updFirst_spec k f ms :
  match updFirst k f ms with
  | None => lookupKey k ms = None
  | Some None => exists x, lookupKey k ms = Some x /\ f x = None
  | Some (Some ms') =>
      exists x x', lookupKey k ms = Some x /\ f x = Some x'
                   /\ lookupKey k ms' = Some x'
                   /\ forall k', k' <> k -> lookupKey k' ms' = lookupKey k' ms
  end.
Proof.
  induction ms as [|[k0 v0] ms IH]; cbn [updFirst lookupKey]; [reflexivity|].
  destruct (String.eqb_spec k k0) as [->|Hne].
  - destruct (f v0) as [v'|] eqn:Hf.
    + exists v0, v'. cbn [lookupKey]. rewrite String.eqb_refl.
      repeat split; try assumption.
      intros k' Hk'. destruct (String.eqb_spec k' k0); [contradiction | reflexivity].
    + exists v0. split; [reflexivity | exact Hf].
  - destruct (updFirst k f ms) as [[ms'|]|].
    + destruct IH as (x & x' & H1 & H2 & H3 & H4). exists x, x'.
      cbn [lookupKey]. destruct (String.eqb_spec k k0); [contradiction|].
      repeat split; try assumption.
      intros k' Hk'. destruct (String.eqb k' k0); [reflexivity | apply H4, Hk'].
    + exact IH.
    + exact IH.
Qed.

Lemma build_no_contents k rest v :
  k <> "contents" -> getSeg (Key "contents") (build (Key k :: rest) v) = None.
Proof.
  intros Hk. cbn [build getSeg segKey lookupKey].
  destruct (String.eqb_spec "contents" k); [congruence | reflexivity].
Qed.

(** A member other than [contents] set below an object leaves its [contents]
    alone, or the object is replaced by one without [contents]. *)
Lemma set_member_contents x k rest v x' :
  k <> "contents" ->
  sjsonSet x (Key k :: rest) v = Some x' ->
  getSeg (Key "contents") x' = getSeg (Key "contents") x
  \/ getSeg (Key "contents") x' = None.
Proof.
  intros Hk. destruct x as [ | | | | xs | rs | ]; cbn [sjsonSet segKey];
    try (intros [= <-]; right; apply build_no_contents, Hk); try discriminate.
  pose proof (updFirst_spec k (fun y => sjsonSet y rest v) rs) as Hspec.
  destruct (updFirst k _ rs) as [[rs'|]|]; try discriminate; intros [= <-]; left; cbn.
  - destruct Hspec as (_ & _ & _ & _ & _ & H). apply H. congruence.
  - rewrite lookupKey_app. destruct (lookupKey "contents" rs); [reflexivity|].
    destruct (String.eqb_spec "contents" k); [congruence | reflexivity].
Qed.

(** The contents held by the value of [request]. *)
Definition contentsIn (x : json) : list json :=
  match getSeg (Key "contents") x with
  | Some (JArr cs) => cs
  | _ => []
  end.

Lemma contentsOf_request ms x :
  lookupKey "request" ms = Some x -> contentsOf (JObj ms) = contentsIn x.
Proof.
  intros H. unfold contentsOf, contentsIn. cbn [gjsonGet getSeg segKey]. rewrite H.
  destruct (getSeg (Key "contents") x); reflexivity.
Qed.

Lemma contentsOf_build p v :
  contentsOf (build (Key "request" :: p) v) = contentsIn (build p v).
Proof. cbn [build]. apply contentsOf_request. reflexivity. Qed.

(** What a set below [request] does to the contents, given what it does to
    the value of [request]. *)
Lemma contentsOf_set_request out p v (Q : list json -> Prop) :
  Q [] ->
  (forall x x', sjsonSet x p v = Some x' -> contentsIn x = contentsOf out ->
     Q (contentsIn x')) ->
  Q (contentsIn (build p v)) ->
  Q (contentsOf (set out (Key "request" :: p) v)).
Proof.
  intros Hnil Hset Hbuild. unfold set.
  destruct out as [ | | | | xs | ms | ]; cbn [sjsonSet segKey orEmpty];
    try (rewrite contentsOf_build; exact Hbuild);
    try exact Hnil.
  pose proof (updFirst_spec "request" (fun y => sjsonSet y p v) ms) as Hspec.
  destruct (updFirst "request" _ ms) as [[ms'|]|]; cbn [orEmpty].
  - destruct Hspec as (x & x' & H1 & H2 & H3 & _).
    rewrite (contentsOf_request _ _ H3).
    apply (Hset _ _ H2). symmetry. apply contentsOf_request, H1.
  - exact Hnil.
  - rewrite (contentsOf_request _ (build p v)); [exact Hbuild|].
    rewrite lookupKey_app, Hspec, String.eqb_refl. reflexivity.
Qed.

Lemma contentsOf_set_other out k rest v :
  k <> "contents" ->
  contentsOf (set out (Key "request" :: Key k :: rest) v) = []
  \/ contentsOf (set out (Key "request" :: Key k :: rest) v) = contentsOf out.
Proof.
  intros Hk.
  apply (contentsOf_set_request out (Key k :: rest) v
           (fun cs => cs = [] \/ cs = contentsOf out)).
  - left. reflexivity.
  - intros x x' H Hx. unfold contentsIn in *.
    destruct (set_member_contents x k rest v x' Hk H) as [E|E];
      rewrite E; [right; exact Hx | left; reflexivity].
  - left. unfold contentsIn. rewrite (build_no_contents k rest v Hk). reflexivity.
Qed.

(** Appending a content: the contents grow by it, or start anew with it, or
    are lost. *)
Lemma contentsOf_append out node :
  contentsOf (set out contentsAppend node) = []
  \/ contentsOf (set out contentsAppend node) = [node]
  \/ contentsOf (set out contentsAppend node) = contentsOf out ++ [node].
Proof.
  unfold contentsAppend.
  apply (contentsOf_set_request out [Key "contents"; Append] node
           (fun cs => cs = [] \/ cs = [node] \/ cs = contentsOf out ++ [node])).
  - left. reflexivity.
  - intros x x' Hx Hout.
    destruct x as [ | | | | xs | rs | ]; cbn [sjsonSet segKey] in Hx;
      try (injection Hx as <-; right; left; reflexivity); try discriminate.
    pose proof (updFirst_spec "contents" (fun y => sjsonSet y [Append] node) rs) as Hspec.
    destruct (updFirst "contents" _ rs) as [[rs'|]|]; try discriminate;
      injection Hx as <-.
    + destruct Hspec as (c & c' & H1 & H2 & H3 & _).
      unfold contentsIn in *. cbn [getSeg segKey] in *. rewrite H3. rewrite H1 in Hout.
      destruct c as [ | | | | cs | ms | ]; cbn [sjsonSet segKey] in H2;
        try (injection H2 as <-; right; left; reflexivity).
      * injection H2 as <-. right. right. rewrite <- Hout. reflexivity.
      * destruct (updFirst "-1" _ ms) as [[ms'|]|]; try discriminate;
          injection H2 as <-; left; reflexivity.
    + unfold contentsIn. cbn [getSeg segKey]. rewrite lookupKey_app, Hspec.
      right. left. reflexivity.
  - right. left. reflexivity.
Qed.

(** A property of all emitted parts is kept by a set outside the contents
    and by appending a content whose parts have it. *)
Lemma emittedParts_set_other (P : json -> Prop) out k rest v :
  k <> "contents" ->
  Forall P (emittedParts out) ->
  Forall P (emittedParts (set out (Key "request" :: Key k :: rest) v)).
Proof.
  intros Hk H. unfold emittedParts.
  destruct (contentsOf_set_other out k rest v Hk) as [E|E]; rewrite E;
    [constructor | exact H].
Qed.

Lemma emittedParts_append (P : json -> Prop) out node :
  Forall P (emittedParts out) -> Forall P (partsOf node) ->
  Forall P (emittedParts (set out contentsAppend node)).
Proof.
  intros H Hn. unfold emittedParts in *.
  destruct (contentsOf_append out node) as [E|[E|E]]; rewrite E.
  - constructor.
  - cbn [flat_map]. rewrite app_nil_r. exact Hn.
  - rewrite flat_map_app. apply Forall_app. split; [exact H|].
    cbn [flat_map]. rewrite app_nil_r. exact Hn.
Qed.

End Contents.

(** ** The tool call id policy (lines 54-63, 323-325, 368-377, 402-414, 435-437) *)

Section ToolCallIds.
Context `{Ext : Externals}.

(** The member [k] of a part, when it is there, has a non-empty string [id]. *)
Definition carriesId (part : json) (k : string) : bool :=
  match gjsonGet part [Key k] with
  | None => true
  | Some x =>
      match gjsonGet x [Key "id"] with
      | Some (JStr id) => negb (String.eqb id EmptyString)
      | _ => false
      end
  end.

Definition lacksId (part : json) (k : string) : bool :=
  negb (exists_ (gjsonGet part [Key k; Key "id"])).

(** The policy: with ids included, every function call and every function
    response has its id; without, none has an [id] member. *)
Definition idPolicy (incl : bool) (part : json) : bool :=
  if incl then (carriesId part "functionCall" && carriesId part "functionResponse")%bool
  else (lacksId part "functionCall" && lacksId part "functionResponse")%bool.

Abbreviation obeys incl := (fun part => idPolicy incl part = true).

Lemma idPolicy_text incl s : idPolicy incl (textPart s) = true.
Proof. destruct incl; reflexivity. Qed.

Lemma idPolicy_inlineData incl mime data : idPolicy incl (inlineDataPart mime data) = true.
Proof. destruct incl; reflexivity. Qed.

Lemma idPolicy_functionCall incl name id fargs :
  (incl = true -> id <> EmptyString) ->
  idPolicy incl (functionCallPart incl name id fargs) = true.
Proof.
  intros H. unfold functionCallPart, idField, argsField.
  destruct incl; cbn [andb].
  - specialize (H eq_refl). destruct id as [|c id]; [congruence|].
    destruct (gjsonValid fargs); reflexivity.
  - destruct (gjsonValid fargs); reflexivity.
Qed.

Lemma idPolicy_functionResponse incl name fid resp :
  fid <> EmptyString ->
  idPolicy incl (functionResponsePart incl name fid resp) = true.
Proof.
  intros H. destruct fid as [|c fid]; [congruence|]. unfold functionResponsePart.
  destruct incl; [reflexivity|].
  unfold responseField. destruct (String.eqb _ "null"); reflexivity.
Qed.

(** No tool name is kept under the empty id. *)
Definition namesOk (names : gmap string string) : Prop := names !! EmptyString = None.

Lemma noteName_ok id name names : namesOk names -> namesOk (noteName id name names).
Proof.
  unfold namesOk, noteName. intros H.
  destruct (String.eqb_spec id EmptyString) as [->|Hne]; cbn [negb andb]; [exact H|].
  destruct (negb _); [|exact H].
  rewrite lookup_insert_ne by exact Hne. exact H.
Qed.

Lemma fold_noteName_ok {A} (f : A -> bool) (g h : A -> string) xs : forall names,
  namesOk names ->
  namesOk (fold_left (fun acc x => if f x then noteName (g x) (h x) acc else acc) xs names).
Proof.
  induction xs as [|x xs IH]; intros names H; cbn [fold_left]; [exact H|].
  apply IH. destruct (f x); [apply noteName_ok, H | exact H].
Qed.

Lemma collectNames_ok arr : namesOk (collectNames arr).
Proof.
  unfold collectNames.
  assert (H : forall names, namesOk names -> namesOk (fold_left collectNamesOfMessage arr names)).
  { induction arr as [|m arr IH]; intros names Hn; cbn [fold_left]; [exact Hn|].
    apply IH. unfold collectNamesOfMessage.
    destruct (String.eqb _ "assistant"); [|exact Hn].
    assert (H1 : namesOk
      (if isArray (gjsonGet m [Key "tool_calls"])
       then fold_left (fun acc tc =>
              if isFunctionCallType (str (gjsonGet tc [Key "type"]))
              then noteName (str (gjsonGet tc [Key "id"]))
                            (str (gjsonGet tc [Key "function"; Key "name"])) acc
              else acc) (array (gjsonGet m [Key "tool_calls"])) names
       else names)).
    { destruct (isArray _); [|exact Hn].
      apply (fold_noteName_ok
               (fun tc => isFunctionCallType (str (gjsonGet tc [Key "type"])))
               (fun tc => str (gjsonGet tc [Key "id"]))
               (fun tc => str (gjsonGet tc [Key "function"; Key "name"]))), Hn. }
    destruct (isArray (gjsonGet m [Key "content"])); [|exact H1].
    apply (fold_noteName_ok
             (fun item => String.eqb (str (gjsonGet item [Key "type"])) "tool_use")
             (fun item => str (gjsonGet item [Key "id"]))
             (fun item => str (gjsonGet item [Key "name"]))), H1. }
  apply H. apply lookup_empty.
Qed.

Lemma idPolicy_toolResult incl names item :
  namesOk names -> Forall (obeys incl) (toolResultParts incl names item).
Proof.
  intros Hn. cbv beta zeta delta [toolResultParts].
  destruct (names !! _) as [name|] eqn:Hl; [|constructor].
  constructor; [|constructor].
  assert (Hid : str (gjsonGet item [Key "tool_use_id"]) <> EmptyString).
  { intros E. rewrite E in Hl. unfold namesOk in Hn. congruence. }
  unfold idField. destruct (str (gjsonGet item [Key "tool_use_id"])) as [|c id];
    [congruence|].
  destruct incl; reflexivity.
Qed.

Lemma idPolicy_image incl item : Forall (obeys incl) (imageParts item).
Proof.
  unfold imageParts.
  destruct (Nat.ltb 5 _); [|constructor].
  destruct (splitN2 _) as [mime [rest|]]; [|constructor].
  destruct (Nat.ltb 7 _); [|constructor].
  constructor; [apply idPolicy_inlineData | constructor].
Qed.

Lemma idPolicy_file incl item : Forall (obeys incl) (fileParts item).
Proof.
  unfold fileParts. destruct (MimeTypes !! _); [|constructor].
  constructor; [apply idPolicy_inlineData | constructor].
Qed.

Lemma idPolicy_userParts incl names content :
  namesOk names -> Forall (obeys incl) (userParts incl names content).
Proof.
  intros Hn. unfold userParts.
  destruct content as [[ | | | s | items | | ]|]; try constructor.
  - apply idPolicy_text.
  - constructor.
  - induction items as [|item items IH]; cbn [flat_map]; [constructor|].
    apply Forall_app. split; [|exact IH].
    unfold userItemParts.
    destruct (String.eqb _ "text"); [constructor; [apply idPolicy_text | constructor]|].
    destruct (String.eqb _ "image_url"); [apply idPolicy_image|].
    destruct (String.eqb _ "file"); [apply idPolicy_file|].
    destruct (String.eqb _ "tool_result"); [apply idPolicy_toolResult, Hn | constructor].
Qed.

(** *** Generated ids *)

Definition isAlnum (c : ascii) : bool :=
  let n := Ascii.nat_of_ascii c in
  ((Nat.leb 48 n && Nat.leb n 57) || (Nat.leb 65 n && Nat.leb n 90)
   || (Nat.leb 97 n && Nat.leb n 122))%bool.

Fixpoint allAlnum (s : string) : bool :=
  match s with
  | EmptyString => true
  | String c s' => (isAlnum c && allAlnum s')%bool
  end.

Lemma letterAt_alnum k : k < 62 -> isAlnum (letterAt k) = true.
Proof.
  intros H. do 62 (destruct k as [|k]; [reflexivity|]). lia.
Qed.

Lemma genLetters_shape n : forall r,
  String.length (fst (genLetters n r)) = n
  /\ allAlnum (fst (genLetters n r)) = true
  /\ pos (snd (genLetters n r)) = pos r + n
  /\ oracle (snd (genLetters n r)) = oracle r.
Proof.
  induction n as [|n IH]; intros r; cbn [genLetters].
  - cbn. auto.
  - unfold randInt.
    set (r1 := mkRng (oracle r) (S (pos r))).
    destruct (IH r1) as (H1 & H2 & H3 & H4).
    destruct (genLetters n r1) as [s r2]. cbn [fst snd] in *.
    cbn [String.length allAlnum]. rewrite H1, H2, H3, H4.
    rewrite letterAt_alnum by (apply Nat.mod_upper_bound; discriminate).
    cbn [pos r1 oracle]. repeat split; lia.
Qed.

(** [genToolCallID] returns [toolu_] and 24 letters or digits, and reads 24
    numbers from the random source. *)
Lemma genToolCallID_shape r :
  exists s, fst (genToolCallID r) = "toolu_" +:+ s
            /\ String.length s = 24 /\ allAlnum s = true
            /\ pos (snd (genToolCallID r)) = pos r + 24.
Proof.
  unfold genToolCallID. destruct (genLetters_shape 24 r) as (H1 & H2 & H3 & _).
  destruct (genLetters 24 r) as [s r']. exists s. auto.
Qed.

Lemma effectiveId_client incl fid r :
  fid <> EmptyString -> effectiveId incl fid r = (fid, r).
Proof.
  intros H. unfold effectiveId. apply String.eqb_neq in H. rewrite H.
  destruct incl; reflexivity.
Qed.

Lemma effectiveId_without incl fid r :
  incl = false -> effectiveId incl fid r = (fid, r).
Proof. intros ->. reflexivity. Qed.

Lemma effectiveId_generated r : effectiveId true EmptyString r = genToolCallID r.
Proof. reflexivity. Qed.

Lemma effectiveId_nonempty fid r : fst (effectiveId true fid r) <> EmptyString.
Proof.
  unfold effectiveId. destruct (String.eqb_spec fid EmptyString) as [->|Hne]; cbn [andb].
  - destruct (genToolCallID_shape r) as (s & -> & _). discriminate.
  - exact Hne.
Qed.

(** *** The parts of an assistant message obey the policy *)

Lemma idPolicy_toolUse incl r item : Forall (obeys incl) (fst (toolUseParts incl r item)).
Proof.
  unfold toolUseParts.
  pose proof (effectiveId_nonempty (str (gjsonGet item [Key "id"])) r) as Hne.
  destruct incl.
  - destruct (effectiveId true _ r) as [fid r']. cbn [fst] in *.
    constructor; [apply idPolicy_functionCall; intros _; exact Hne | constructor].
  - cbn [effectiveId andb fst].
    constructor; [apply idPolicy_functionCall; discriminate | constructor].
Qed.

Lemma idPolicy_assistantItems incl items : forall r,
  Forall (obeys incl) (fst (assistantItemsParts incl r items)).
Proof.
  induction items as [|item items IH]; intros r; cbn [assistantItemsParts]; [constructor|].
  assert (H1 : Forall (obeys incl) (fst (assistantItemParts incl r item))).
  { unfold assistantItemParts.
    destruct (String.eqb _ "text"); [constructor; [apply idPolicy_text | constructor]|].
    destruct (String.eqb _ "image_url"); [apply idPolicy_image|].
    destruct (String.eqb _ "tool_use"); [apply idPolicy_toolUse | constructor]. }
  destruct (assistantItemParts incl r item) as [ps1 r1].
  specialize (IH r1). destruct (assistantItemsParts incl r1 items) as [ps2 r2].
  cbn [fst] in *. apply Forall_app. split; assumption.
Qed.

Lemma idPolicy_assistantParts incl content r :
  Forall (obeys incl) (fst (assistantParts incl content r)).
Proof.
  unfold assistantParts.
  destruct content as [[ | | | s | items | | ]|]; try constructor.
  - apply idPolicy_text.
  - constructor.
  - apply idPolicy_assistantItems.
Qed.

(** What the loop over the tool calls keeps: parts that obey the policy, no
    name under the empty id, no empty id among the ids to answer. *)
Definition callsOk (incl : bool)
    (x : list json * gmap string string * rng * list string) : Prop :=
  let '(ps, names, r, fIDs) := x in
  Forall (obeys incl) ps /\ namesOk names /\ Forall (fun fid => fid <> EmptyString) fIDs.

Lemma toolCallStep_ok incl ps names r fIDs tc :
  callsOk incl (ps, names, r, fIDs) ->
  callsOk incl (toolCallStep incl ps names r fIDs tc).
Proof.
  intros (Hp & Hn & Hf). unfold toolCallStep.
  destruct (negb (isFunctionCallType _)); [repeat split; assumption|].
  pose proof (effectiveId_nonempty (str (gjsonGet tc [Key "id"])) r) as Hne.
  pose proof (effectiveId_without incl (str (gjsonGet tc [Key "id"])) r) as Hwo.
  destruct (effectiveId incl _ r) as [fid r'] eqn:He. cbn [callsOk].
  split; [|split].
  - apply Forall_app. split; [exact Hp|].
    constructor; [|constructor]. apply idPolicy_functionCall.
    intros ->. rewrite He in Hne. exact Hne.
  - destruct (String.eqb_spec fid EmptyString) as [->|Hfid]; cbn [negb andb].
    + rewrite andb_false_r. exact Hn.
    + destruct (incl && true && negb _)%bool; [|exact Hn].
      unfold namesOk. rewrite lookup_insert_ne by exact Hfid. exact Hn.
  - destruct (String.eqb_spec fid EmptyString) as [->|Hfid]; cbn [negb]; [exact Hf|].
    apply Forall_app. split; [exact Hf | constructor; [exact Hfid | constructor]].
Qed.

Lemma toolCallSteps_ok incl calls : forall ps names r fIDs,
  callsOk incl (ps, names, r, fIDs) ->
  callsOk incl (toolCallSteps incl ps names r fIDs calls).
Proof.
  induction calls as [|tc calls IH]; intros ps names r fIDs H; [exact H|].
  cbn [toolCallSteps].
  pose proof (toolCallStep_ok incl ps names r fIDs tc H) as H1.
  destruct (toolCallStep incl ps names r fIDs tc) as [[[ps' names'] r'] fIDs'].
  apply IH, H1.
Qed.

Lemma idPolicy_functionResponses incl names toolResponses fIDs :
  Forall (fun fid => fid <> EmptyString) fIDs ->
  Forall (obeys incl) (flat_map (functionResponseParts incl names toolResponses) fIDs).
Proof.
  induction 1 as [|fid fIDs Hfid _ IH]; cbn [flat_map]; [constructor|].
  apply Forall_app. split; [|exact IH].
  unfold functionResponseParts. destruct (names !! fid); [|constructor].
  constructor; [apply idPolicy_functionResponse, Hfid | constructor].
Qed.

(** *** The policy is kept along the translation *)

Definition partsObey (incl : bool) (out : json) : Prop :=
  Forall (obeys incl) (emittedParts out).

Ltac outside_contents :=
  apply emittedParts_set_other; [discriminate | try assumption].

Lemma systemParts_obey incl contents : forall out j,
  partsObey incl out -> partsObey incl (systemParts out j contents).
Proof.
  induction contents as [|c contents IH]; intros out j H; cbn [systemParts]; [exact H|].
  apply IH. unfold systemText, systemInstructionPath, partsObey. outside_contents.
Qed.

Lemma systemInstruction_obey incl content out :
  partsObey incl out -> partsObey incl (systemInstruction content out).
Proof.
  intros H. unfold systemInstruction.
  destruct content as [[ | | | s | contents | ms | ]|]; try exact H.
  - unfold systemText, systemInstructionPath, partsObey. outside_contents. outside_contents.
  - destruct contents; [exact H|]. apply systemParts_obey.
    unfold systemInstructionPath, partsObey. outside_contents.
  - destruct (String.eqb _ "text"); [|exact H].
    unfold systemText, systemInstructionPath, partsObey. outside_contents. outside_contents.
Qed.

Definition loopOk (incl : bool) (st : loopState) : Prop :=
  partsObey incl (lsOut st) /\ namesOk (lsNames st).

Lemma assistantMessage_ok incl toolResponses st m :
  loopOk incl st -> loopOk incl (assistantMessage incl toolResponses st m).
Proof.
  intros [Hout Hn]. unfold assistantMessage. rewrite assistantNode_parts.
  pose proof (idPolicy_assistantParts incl (gjsonGet m [Key "content"]) (lsRng st)) as Hps.
  destruct (assistantParts incl (gjsonGet m [Key "content"]) (lsRng st)) as [ps0 r0].
  cbn [fst snd] in *.
  destruct (gjsonGet m [Key "tool_calls"]) as [[ | | | | calls | | ]|];
    try (split; [apply emittedParts_append; [exact Hout | exact Hps] | exact Hn]).
  change (mkCallState (mkNode "model" ps0) (length ps0) (lsNames st) r0 [])
    with (callStateOf "model" (ps0, lsNames st, r0, [])).
  rewrite toolCalls_steps.
  pose proof (toolCallSteps_ok incl calls ps0 (lsNames st) r0 []
                (conj Hps (conj Hn (List.Forall_nil _)))) as Hc.
  destruct (toolCallSteps incl ps0 (lsNames st) r0 [] calls) as [[[ps names] r] fIDs].
  destruct Hc as (Hp & Hn' & Hf).
  cbn [callStateOf csNode csNames csFIDs csRng].
  rewrite functionNode_parts.
  pose proof (idPolicy_functionResponses incl names toolResponses fIDs Hf) as Hr.
  split; [|exact Hn']. cbn [lsOut].
  destruct (Nat.ltb 0 _).
  - apply emittedParts_append; [apply emittedParts_append; assumption | exact Hr].
  - apply emittedParts_append; assumption.
Qed.

Lemma message_ok incl n toolResponses st m :
  loopOk incl st -> loopOk incl (message incl n toolResponses st m).
Proof.
  intros [Hout Hn]. unfold message.
  destruct (_ && _)%bool.
  { split; [apply systemInstruction_obey, Hout | exact Hn]. }
  destruct (_ || _)%bool.
  { split; [|exact Hn]. cbn [lsOut]. rewrite userNode_parts.
    apply emittedParts_append; [exact Hout|]. apply idPolicy_userParts, Hn. }
  destruct (String.eqb _ "tool"); [split; assumption|].
  destruct (String.eqb _ "assistant"); [|split; assumption].
  apply assistantMessage_ok. split; assumption.
Qed.

Lemma messages_ok incl n toolResponses arr : forall st,
  loopOk incl st -> loopOk incl (fold_left (message incl n toolResponses) arr st).
Proof.
  induction arr as [|m arr IH]; intros st H; [exact H|].
  cbn [fold_left]. apply IH, message_ok, H.
Qed.

Lemma applyMessages_obey incl rawJSON out r :
  partsObey incl out -> partsObey incl (fst (applyMessages incl rawJSON out r)).
Proof.
  intros H. unfold applyMessages.
  destruct (gjsonGet rawJSON [Key "messages"]) as [[ | | | | arr | | ]|]; try exact H.
  cbn [fst]. apply messages_ok. split; [exact H | apply collectNames_ok].
Qed.

Lemma applyGenerationParams_obey incl rawJSON out :
  partsObey incl out -> partsObey incl (applyGenerationParams rawJSON out).
Proof.
  intros H. unfold applyGenerationParams.
  assert (Hc : forall from to o, partsObey incl o -> partsObey incl (copyNumber rawJSON from to o)).
  { intros from to o Ho. unfold copyNumber.
    destruct (gjsonGet rawJSON [Key from]) as [[ | | n | | | | ]|]; try exact Ho.
    unfold generationConfigPath, partsObey. outside_contents. }
  assert (Hm : forall o, partsObey incl o -> partsObey incl (applyModalities rawJSON o)).
  { intros o Ho. unfold applyModalities.
    destruct (gjsonGet rawJSON [Key "modalities"]) as [[ | | | | mods | | ]|]; try exact Ho.
    destruct (responseModalities mods); [exact Ho|].
    unfold generationConfigPath, partsObey. outside_contents. }
  assert (Hi : forall o, partsObey incl o -> partsObey incl (applyImageConfig rawJSON o)).
  { intros o Ho. unfold applyImageConfig.
    destruct (gjsonGet rawJSON [Key "image_config"]) as [[ | | | | | ms | ]|]; try exact Ho.
    assert (H1 : partsObey incl
      match gjsonGet (JObj ms) [Key "aspect_ratio"] with
      | Some (JStr ar) => set o (imageConfigPath "aspectRatio") (JStr ar)
      | _ => o
      end).
    { destruct (gjsonGet (JObj ms) [Key "aspect_ratio"]) as [[ | | | ar | | | ]|]; try exact Ho.
      unfold imageConfigPath, partsObey. outside_contents. }
    destruct (gjsonGet (JObj ms) [Key "image_size"]) as [[ | | | size | | | ]|]; try exact H1.
    unfold imageConfigPath, partsObey. outside_contents. }
  apply Hi, Hm, Hc, Hc, Hc, Hc, H.
Qed.

Lemma applyTools_obey incl rawJSON out :
  partsObey incl out -> partsObey incl (applyTools rawJSON out).
Proof.
  intros H. unfold applyTools.
  destruct (gjsonGet rawJSON [Key "tools"]) as [[ | | | | [|t ts] | | ]|]; try exact H.
  destruct (tsHasTool _); [|exact H].
  unfold partsObey. outside_contents. outside_contents.
Qed.

Lemma applyToolChoice_obey incl rawJSON out :
  partsObey incl out -> partsObey incl (applyToolChoice rawJSON out).
Proof.
  intros H. unfold applyToolChoice.
  destruct (gjsonGet rawJSON [Key "tool_choice"]) as [tc|]; [|exact H].
  assert (Hmode : forall mode o, partsObey incl o ->
            partsObey incl (if negb (String.eqb mode EmptyString)
                            then set o (functionCallingConfigPath "mode") (JStr mode)
                            else o)).
  { intros mode o Ho. destruct (negb _); [|exact Ho].
    unfold functionCallingConfigPath, partsObey. outside_contents. }
  destruct tc as [ | | | s | | ms | ]; try apply Hmode; try exact H.
  destruct (String.eqb _ "function"); [|apply Hmode, H].
  destruct (negb _); apply Hmode; [|exact H].
  unfold functionCallingConfigPath, partsObey. outside_contents.
Qed.

Lemma AttachDefaultSafetySettings_obey incl out :
  partsObey incl out ->
  partsObey incl (AttachDefaultSafetySettings out [Key "request"; Key "safetySettings"]).
Proof.
  intros H. unfold AttachDefaultSafetySettings.
  destruct (exists_ _); [exact H|]. unfold partsObey. outside_contents.
Qed.

(** C2.  Let the helpers that apply the reasoning effort leave the contents
    of the base envelope empty.  Then every part of every content of the
    translated request obeys the id policy of the model: under a name that
    contains "claude", each [functionCall] and each [functionResponse] has a
    non-empty [id]; under any other name none of them has an [id] member.
    The id of a call is the client's when that is not empty, and otherwise,
    under Claude, [toolu_] followed by 24 letters or digits drawn from the
    random source; the function content answers each call under the id the
    call was emitted with. *)
Theorem C2_tool_call_id_policy :
  forall (modelName : string) (inputRawJSON : json) (stream : bool) (r : rng),
    emittedParts (applyThinking modelName inputRawJSON (baseEnvelope modelName)) = [] ->
    Forall (obeys (includeToolIDs modelName))
           (emittedParts (fst (ConvertOpenAIRequestToAntigravity modelName inputRawJSON stream r)))
    /\ (forall incl fid r0, fid <> EmptyString -> effectiveId incl fid r0 = (fid, r0))
    /\ (forall fid r0, effectiveId false fid r0 = (fid, r0))
    /\ (forall r0, exists s,
          fst (effectiveId true EmptyString r0) = "toolu_" +:+ s
          /\ String.length s = 24 /\ allAlnum s = true)
    /\ (forall incl role ps names r0 fIDs tc,
          toolCall incl (callStateOf role (ps, names, r0, fIDs)) tc
          = callStateOf role (toolCallStep incl ps names r0 fIDs tc))
    /\ (forall incl role ps r0 item,
          toolUsePart incl (mkNode role ps) (length ps) r0 item
          = (mkNode role (ps ++ fst (toolUseParts incl r0 item)),
             length (ps ++ fst (toolUseParts incl r0 item)),
             snd (toolUseParts incl r0 item)))
    /\ (forall incl names toolResponses fIDs,
          functionNode incl names toolResponses fIDs
          = (mkNode "function" (flat_map (functionResponseParts incl names toolResponses) fIDs),
             length (flat_map (functionResponseParts incl names toolResponses) fIDs))).
Proof.
  intros modelName inputRawJSON stream r Hthink.
  split; [|split; [|split; [|split; [|split; [|split]]]]].
  - unfold ConvertOpenAIRequestToAntigravity.
    set (incl := includeToolIDs modelName).
    assert (H0 : partsObey incl (applyThinking modelName inputRawJSON (baseEnvelope modelName))).
    { unfold partsObey. rewrite Hthink. constructor. }
    apply (applyGenerationParams_obey incl inputRawJSON) in H0.
    apply (applyMessages_obey incl inputRawJSON _ r) in H0.
    destruct (applyMessages incl inputRawJSON _ r) as [out r']. cbn [fst] in *.
    apply AttachDefaultSafetySettings_obey, applyToolChoice_obey, applyTools_obey, H0.
  - intros incl fid r0. apply effectiveId_client.
  - intros fid r0. reflexivity.
  - intros r0. rewrite effectiveId_generated.
    destruct (genToolCallID_shape r0) as (s & H1 & H2 & H3 & _). exists s. auto.
  - intros. apply toolCall_step.
  - intros. apply toolUsePart_parts.
  - intros. apply functionNode_parts.
Qed.

End ToolCallIds.

(** ** Function responses (lines 210-222 and 428-456) *)

Section FunctionResponses.
Context `{Ext : Externals}.

(** [m] is a tool message that answers the call [id]. *)
Definition answers (id : string) (m : json) : bool :=
  (String.eqb (str (gjsonGet m [Key "role"])) "tool"
   && String.eqb (str (gjsonGet m [Key "tool_call_id"])) id)%bool.

Definition noteResponse (acc : gmap string string) (m : json) : gmap string string :=
  if String.eqb (str (gjsonGet m [Key "role"])) "tool" then
    let toolCallID := str (gjsonGet m [Key "tool_call_id"]) in
    if negb (String.eqb toolCallID EmptyString)
    then <[toolCallID := raw (gjsonGet m [Key "content"])]> acc
    else acc
  else acc.

Lemma collectToolResponses_fold arr :
  collectToolResponses arr = fold_left noteResponse arr ∅.
Proof. reflexivity. Qed.

Lemma noteResponse_other id acc m :
  answers id m = false -> noteResponse acc m !! id = acc !! id.
Proof.
  unfold answers, noteResponse. intros H.
  destruct (String.eqb _ "tool"); [|reflexivity].
  destruct (negb _); [|reflexivity].
  cbn [andb] in H. apply String.eqb_neq in H.
  rewrite lookup_insert_ne by exact H. reflexivity.
Qed.

Lemma noteResponses_other id ms : forall acc,
  forallb (fun m => negb (answers id m)) ms = true ->
  fold_left noteResponse ms acc !! id = acc !! id.
Proof.
  induction ms as [|m ms IH]; intros acc H; [reflexivity|].
  cbn [forallb] in H. apply andb_prop in H as [Hm Hms].
  cbn [fold_left]. rewrite (IH _ Hms). apply noteResponse_other.
  destruct (answers id m); [discriminate | reflexivity].
Qed.

(** The response kept for a call is the raw content of the last tool message
    that answers it. *)
Lemma collectToolResponses_last id pre m post :
  id <> EmptyString -> answers id m = true ->
  forallb (fun m' => negb (answers id m')) post = true ->
  collectToolResponses (pre ++ m :: post) !! id = Some (raw (gjsonGet m [Key "content"])).
Proof.
  intros Hid Hm Hpost. rewrite collectToolResponses_fold, fold_left_app. cbn [fold_left].
  rewrite (noteResponses_other _ _ _ Hpost).
  unfold answers in Hm. apply andb_prop in Hm as [Hrole Htid].
  unfold noteResponse. rewrite Hrole. apply String.eqb_eq in Htid. rewrite Htid.
  destruct (String.eqb_spec id EmptyString) as [E|E]; [contradiction|].
  cbn [negb]. apply lookup_insert_eq.
Qed.

Lemma collectToolResponses_none id arr :
  forallb (fun m' => negb (answers id m')) arr = true ->
  collectToolResponses arr !! id = None.
Proof.
  intros H. rewrite collectToolResponses_fold, (noteResponses_other _ _ _ H).
  apply lookup_empty.
Qed.

Definition resultField (v : json) : list (string * json) :=
  [("response", JObj [("result", v)])].

(** C5 (amended).  For an assistant message whose [tool_calls] is an array,
    the model content is appended and after it, when at least one response
    part comes out, one content with role [function]: it holds one
    [functionResponse] for each call that has a type of [function] or none and
    an id (its own, or a generated one under a Claude model) for which a tool
    name is known, in the order of the calls; a call without such an id gets
    none, and without any such call no function content is appended.  The
    response kept for an id is the raw content of the last tool message with
    that [tool_call_id].  No kept response gives the result [{}]; a content that is a JSON
    object or array is stored raw; the content [null] leaves the result out;
    a content that is a JSON string or boolean is stored as a JSON string. *)
Theorem C5_function_responses :
  forall (incl : bool) (toolResponses : gmap string string) (st : loopState)
         (m : json) (calls : list json),
    (gjsonGet m [Key "tool_calls"] = Some (JArr calls) ->
     let '(ps0, r0) := assistantParts incl (gjsonGet m [Key "content"]) (lsRng st) in
     let '(ps, names, r, fIDs) := toolCallSteps incl ps0 (lsNames st) r0 [] calls in
     let responses := flat_map (functionResponseParts incl names toolResponses) fIDs in
     assistantMessage incl toolResponses st m
     = mkLoop (match responses with
               | [] => set (lsOut st) contentsAppend (mkNode "model" ps)
               | _ :: _ => set (set (lsOut st) contentsAppend (mkNode "model" ps))
                               contentsAppend (mkNode "function" responses)
               end) names r)
    /\ (forall id pre tm post,
          id <> EmptyString -> answers id tm = true ->
          forallb (fun m' => negb (answers id m')) post = true ->
          collectToolResponses (pre ++ tm :: post) !! id
          = Some (raw (gjsonGet tm [Key "content"])))
    /\ (forall id arr,
          forallb (fun m' => negb (answers id m')) arr = true ->
          collectToolResponses arr !! id = None)
    /\ responseField None = resultField (JRaw "{}")
    /\ (forall ms, responseField (Some (raw (Some (JObj ms))))
                   = resultField (JRaw (render (JObj ms))))
    /\ (forall xs, responseField (Some (raw (Some (JArr xs))))
                   = resultField (JRaw (render (JArr xs))))
    /\ responseField (Some (raw (Some JNull))) = []
    /\ (forall s, exists t, responseField (Some (raw (Some (JStr s)))) = resultField (JStr t))
    /\ (forall b, exists t, responseField (Some (raw (Some (JBool b)))) = resultField (JStr t)).
Proof.
  intros incl toolResponses st m calls.
  split; [|split; [|split; [|split; [|split; [|split; [|split; [|split]]]]]]].
  - intros Htc. unfold assistantMessage. rewrite assistantNode_parts, Htc.
    destruct (assistantParts incl (gjsonGet m [Key "content"]) (lsRng st)) as [ps0 r0].
    cbn [fst snd].
    change (mkCallState (mkNode "model" ps0) (length ps0) (lsNames st) r0 [])
      with (callStateOf "model" (ps0, lsNames st, r0, [])).
    rewrite toolCalls_steps.
    destruct (toolCallSteps incl ps0 (lsNames st) r0 [] calls) as [[[ps names] r] fIDs].
    cbn [callStateOf csNode csNames csFIDs csRng].
    rewrite functionNode_parts.
    destruct (flat_map (functionResponseParts incl names toolResponses) fIDs); reflexivity.
  - intros id pre tm post. apply collectToolResponses_last.
  - intros id arr. apply collectToolResponses_none.
  - reflexivity.
  - intros ms. reflexivity.
  - intros xs. reflexivity.
  - reflexivity.
  - intros s. eexists. reflexivity.
  - intros [|]; eexists; reflexivity.
Qed.

End FunctionResponses.

Section FunctionResponseExamples.
#[local] Existing Instance Sample.sampleExternals.

Definition addCall (id : list (string * json)) : json :=
  JObj (id ++ [("type", JStr "function");
               ("function", JObj [("name", JStr "add"); ("arguments", JStr "{}")])]).

Definition assistantWith (call : json) : json :=
  JObj [("role", JStr "assistant"); ("tool_calls", JArr [call])].

(** C5, as stated, fails: the assistant message carries a tool call, the call
    has no id and the model is not Claude, and the translator appends the
    model content alone: there is no content with role [function]. *)
Lemma C5_no_function_content_without_id :
  gjsonGet (fst (ConvertOpenAIRequestToAntigravity "gemini-2.5-pro"
                   (JObj [("messages", JArr [assistantWith (addCall [])])])
                   false Sample.zeroRng)) [Key "request"; Key "contents"]
  = Some (JArr [mkNode "model"
                  [JObj [("functionCall", JObj [("name", JStr "add"); ("args", JRaw "{}")])]]]).
Proof. vm_compute. reflexivity. Qed.

Definition sampleLoop : loopState :=
  mkLoop (baseEnvelope "gemini-2.5-pro") {[ "call_1" := "add" ]} Sample.zeroRng.

Lemma C5_function_responses_witness :
  gjsonGet (assistantWith (addCall [("id", JStr "call_1")])) [Key "tool_calls"]
  = Some (JArr [addCall [("id", JStr "call_1")]])
  /\ assistantMessage false ∅ sampleLoop (assistantWith (addCall [("id", JStr "call_1")]))
     = mkLoop
         (set (set (baseEnvelope "gemini-2.5-pro") contentsAppend
                   (mkNode "model"
                      [JObj [("functionCall",
                              JObj [("name", JStr "add"); ("args", JRaw "{}")])]]))
              contentsAppend
              (mkNode "function"
                 [JObj [("functionResponse",
                         JObj [("name", JStr "add");
                               ("response", JObj [("result", JRaw "{}")])])]]))
         {[ "call_1" := "add" ]} Sample.zeroRng.
Proof.
  split; [reflexivity|].
  exact (proj1 (C5_function_responses false ∅ sampleLoop
                  (assistantWith (addCall [("id", JStr "call_1")]))
                  [addCall [("id", JStr "call_1")]]) eq_refl).
Defined.

(** The tool call scenario of the specification under a model that is not
    Claude: the call and its response carry no id.  The content of the tool
    message is a JSON string, and what is stored under [result] is a string
    that holds the raw text of that string, quotes included. *)
Example tool_call_round_trip :
  gjsonGet (fst (ConvertOpenAIRequestToAntigravity "gemini-2.5-pro"
     (JObj [("messages", JArr [
        assistantWith (addCall [("id", JStr "call_1")]);
        JObj [("role", JStr "tool"); ("tool_call_id", JStr "call_1");
              ("content", JStr "{}")]])])
     false Sample.zeroRng)) [Key "request"; Key "contents"]
  = Some (JArr [
      mkNode "model"
        [JObj [("functionCall", JObj [("name", JStr "add"); ("args", JRaw "{}")])]];
      mkNode "function"
        [JObj [("functionResponse",
                JObj [("name", JStr "add");
                      ("response", JObj [("result", JStr (Json.quote "{}"))])])]]]).
Proof. vm_compute. reflexivity. Qed.

End FunctionResponseExamples.

(** ** Image URLs (lines 259-270 and 351-363) *)

Section ImageURL.
Context `{Ext : Externals}.

Definition imageItem (url : string) : json :=
  JObj [("type", JStr "image_url"); ("image_url", JObj [("url", JStr url)])].

Fixpoint noSemicolon (s : string) : bool :=
  match s with
  | EmptyString => true
  | String c s' => (negb (Ascii.eqb c ";") && noSemicolon s')%bool
  end.

Lemma splitN2_at_semicolon a b :
  noSemicolon a = true -> splitN2 (a +:+ String ";" b) = (a, Some b).
Proof.
  induction a as [|c a IH]; intros H.
  - reflexivity.
  - simpl in H. apply andb_prop in H as [Hc Ha].
    change (splitN2 (String c a +:+ String ";" b))
      with (if Ascii.eqb c ";" then (EmptyString, Some (a +:+ String ";" b))
            else let (x, y) := splitN2 (a +:+ String ";" b) in (String c x, y)).
    destruct (Ascii.eqb c ";"); [discriminate|].
    rewrite (IH Ha). reflexivity.
Qed.

Lemma splitN2_without_semicolon a :
  noSemicolon a = true -> splitN2 a = (a, None).
Proof.
  induction a as [|c a IH]; intros H; [reflexivity|].
  simpl in H. apply andb_prop in H as [Hc Ha].
  change (splitN2 (String c a))
    with (if Ascii.eqb c ";" then (EmptyString, Some a)
          else let (x, y) := splitN2 a in (String c x, y)).
  destruct (Ascii.eqb c ";"); [discriminate|].
  rewrite (IH Ha). reflexivity.
Qed.

Lemma imageItem_url url :
  str (gjsonGet (imageItem url) [Key "image_url"; Key "url"]) = url.
Proof. reflexivity. Qed.

(** A data URL whose media type has no semicolon and whose payload is not
    empty is split into the media type and the payload. *)
Lemma imageURLPart_data_url node p mime data :
  noSemicolon mime = true -> data <> EmptyString ->
  imageURLPart node p (imageItem ("data:" +:+ mime +:+ ";base64," +:+ data))
  = (set (set node (partPath p ["inlineData"; "mime_type"]) (JStr mime))
         (partPath p ["inlineData"; "data"]) (JStr data), S p).
Proof.
  intros Hm Hd. cbv beta zeta delta [imageURLPart]. rewrite imageItem_url.
  assert (Hlen : Nat.ltb 5 (String.length ("data:" +:+ mime +:+ ";base64," +:+ data)) = true).
  { apply Nat.ltb_lt. rewrite !TextFacts.app_length. cbn. lia. }
  rewrite Hlen.
  change (Text.dropStr 5 ("data:" +:+ mime +:+ ";base64," +:+ data))
    with (mime +:+ String ";" ("base64," +:+ data)).
  rewrite (splitN2_at_semicolon _ _ Hm).
  assert (Hlen' : Nat.ltb 7 (String.length ("base64," +:+ data)) = true).
  { apply Nat.ltb_lt. rewrite TextFacts.app_length.
    destruct data; [congruence|]. cbn. lia. }
  rewrite Hlen'. reflexivity.
Qed.

(** A URL with no semicolon after its fifth character gives no part. *)
Lemma imageURLPart_without_semicolon node p url :
  noSemicolon (Text.dropStr 5 url) = true ->
  imageURLPart node p (imageItem url) = (node, p).
Proof.
  intros H. cbv beta zeta delta [imageURLPart]. rewrite imageItem_url.
  destruct (Nat.ltb 5 (String.length url)); [|reflexivity].
  rewrite (splitN2_without_semicolon _ H). reflexivity.
Qed.

(** C4. The code takes an [image_url] for a data URL without looking at its
    first five characters: the https URL
    [https://example.com/a;sessionid=abcdef] is not dropped.  It gives an
    [inlineData] part whose media type is [://example.com/a] and whose data is
    [id=abcdef], in a user message and in an assistant message alike. *)
Theorem C4_non_data_url_gives_a_part :
  userNode false ∅ (Some (JArr [imageItem "https://example.com/a;sessionid=abcdef"]))
  = JObj [("role", JStr "user");
          ("parts", JArr [JObj [("inlineData",
              JObj [("mime_type", JStr "://example.com/a"); ("data", JStr "id=abcdef")])]])]
  /\ fst (fst (assistantNode false
        (Some (JArr [imageItem "https://example.com/a;sessionid=abcdef"])) Sample.zeroRng))
     = JObj [("role", JStr "model");
          ("parts", JArr [JObj [("inlineData",
              JObj [("mime_type", JStr "://example.com/a"); ("data", JStr "id=abcdef")])]])].
Proof. split; reflexivity. Qed.

End ImageURL.

(** ** Reasoning effort, thinking_config and thinking (lines 67-127) *)

Section Reasoning.
Context `{Ext : Externals}.

(** Two requests that differ at most in the member [k]. *)
Definition sameExcept (k : string) (a b : json) : Prop :=
  forall k' rest, k' <> k -> gjsonGet a (Key k' :: rest) = gjsonGet b (Key k' :: rest).

Lemma lookupKey_removeFirst k k' ms :
  k' <> k -> lookupKey k' (removeFirst k ms) = lookupKey k' ms.
Proof.
  intros Hne. induction ms as [|[k0 v] ms IH]; [reflexivity|].
  cbn. destruct (String.eqb_spec k k0) as [->|Hk].
  - destruct (String.eqb_spec k' k0); [congruence | reflexivity].
  - cbn. rewrite IH. reflexivity.
Qed.

Lemma sameExcept_delete k ms :
  sameExcept k (JObj ms) (JObj (removeFirst k ms)).
Proof.
  intros k' rest Hne. cbn. rewrite lookupKey_removeFirst by exact Hne. reflexivity.
Qed.

Ltac same H key := rewrite !(H key _ ltac:(congruence)).

Lemma copyNumber_same k a b from to out :
  sameExcept k a b -> k <> from -> copyNumber a from to out = copyNumber b from to out.
Proof. intros H Hk. unfold copyNumber. same H from. reflexivity. Qed.

Lemma applyModalities_same k a b out :
  sameExcept k a b -> k <> "modalities" -> applyModalities a out = applyModalities b out.
Proof. intros H Hk. unfold applyModalities. same H "modalities". reflexivity. Qed.

Lemma applyImageConfig_same k a b out :
  sameExcept k a b -> k <> "image_config" -> applyImageConfig a out = applyImageConfig b out.
Proof. intros H Hk. unfold applyImageConfig. same H "image_config". reflexivity. Qed.

Lemma applyGenerationParams_same k a b out :
  sameExcept k a b ->
  k <> "temperature" -> k <> "top_p" -> k <> "top_k" -> k <> "max_tokens" ->
  k <> "modalities" -> k <> "image_config" ->
  applyGenerationParams a out = applyGenerationParams b out.
Proof.
  intros H H1 H2 H3 H4 H5 H6. unfold applyGenerationParams.
  rewrite (copyNumber_same k a b "temperature") by assumption.
  rewrite (copyNumber_same k a b "top_p") by assumption.
  rewrite (copyNumber_same k a b "top_k") by assumption.
  rewrite (copyNumber_same k a b "max_tokens") by assumption.
  rewrite (applyModalities_same k a b) by assumption.
  apply (applyImageConfig_same k); assumption.
Qed.

Lemma applyMessages_same k incl a b out r :
  sameExcept k a b -> k <> "messages" ->
  applyMessages incl a out r = applyMessages incl b out r.
Proof.
  intros H Hk. unfold applyMessages. same H "messages". reflexivity.
Qed.

Lemma applyTools_same k a b out :
  sameExcept k a b -> k <> "tools" -> applyTools a out = applyTools b out.
Proof.
  intros H Hk. unfold applyTools. same H "tools". reflexivity.
Qed.

Lemma applyToolChoice_same k a b out :
  sameExcept k a b -> k <> "tool_choice" -> applyToolChoice a out = applyToolChoice b out.
Proof.
  intros H Hk. unfold applyToolChoice. same H "tool_choice". reflexivity.
Qed.

Lemma applyReasoningEffort_same k m a b out :
  sameExcept k a b -> k <> "reasoning_effort" ->
  applyReasoningEffort m a out = applyReasoningEffort m b out.
Proof.
  intros H Hk. unfold applyReasoningEffort, hasOfficialThinking.
  same H "reasoning_effort". reflexivity.
Qed.

Lemma applyThinkingConfigExtension_same k m a b out :
  sameExcept k a b -> k <> "reasoning_effort" -> k <> "extra_body" ->
  applyThinkingConfigExtension m a out = applyThinkingConfigExtension m b out.
Proof.
  intros H Hk Hk'. unfold applyThinkingConfigExtension, hasOfficialThinking.
  same H "reasoning_effort". same H "extra_body". reflexivity.
Qed.

Lemma applyAnthropicThinking_same k m a b out :
  sameExcept k a b -> k <> "thinking" ->
  applyAnthropicThinking m a out = applyAnthropicThinking m b out.
Proof.
  intros H Hk. unfold applyAnthropicThinking.
  same H "thinking". reflexivity.
Qed.

(** The extension is read only when [reasoning_effort] is absent. *)
Lemma extension_ignored m rawJSON out :
  hasOfficialThinking rawJSON = true ->
  applyThinkingConfigExtension m rawJSON out = out.
Proof. intros H. unfold applyThinkingConfigExtension. rewrite H. reflexivity. Qed.

(** The Anthropic form is read only when no [thinkingConfig] is there yet. *)
Lemma anthropic_ignored m rawJSON out :
  exists_ (gjsonGet out thinkingConfigPath) = true ->
  applyAnthropicThinking m rawJSON out = out.
Proof. intros H. unfold applyAnthropicThinking. rewrite H. reflexivity. Qed.

(** What the two sources of higher precedence have emitted before the
    Anthropic form is looked at. *)
Definition beforeAnthropic (m : string) (rawJSON : json) : json :=
  applyThinkingConfigExtension m rawJSON (applyReasoningEffort m rawJSON (baseEnvelope m)).

Lemma convert_same k m a b stream r :
  sameExcept k a b ->
  applyThinking m a (baseEnvelope m) = applyThinking m b (baseEnvelope m) ->
  k = "extra_body" \/ k = "thinking" ->
  ConvertOpenAIRequestToAntigravity m a stream r = ConvertOpenAIRequestToAntigravity m b stream r.
Proof.
  intros H Ht Hk. unfold ConvertOpenAIRequestToAntigravity. rewrite Ht.
  rewrite (applyGenerationParams_same k a b) by (try exact H; destruct Hk; subst; discriminate).
  rewrite (applyMessages_same k _ a b) by (try exact H; destruct Hk; subst; discriminate).
  destruct (applyMessages _ b _ r) as [out r'].
  rewrite (applyTools_same k a b) by (try exact H; destruct Hk; subst; discriminate).
  rewrite (applyToolChoice_same k a b) by (try exact H; destruct Hk; subst; discriminate).
  reflexivity.
Qed.

(** C3 (amended).  When [reasoning_effort] is present the extension
    [extra_body.google.thinking_config] contributes nothing: the translation
    is the same whatever [extra_body] holds.  The Anthropic [thinking] object
    contributes nothing once the sources before it have emitted a
    [thinkingConfig]: the translation is then the same whatever [thinking]
    holds. *)
Theorem C3_reasoning_precedence :
  forall (m : string) (a b : json) (stream : bool) (r : rng),
    (hasOfficialThinking a = true -> sameExcept "extra_body" a b ->
     ConvertOpenAIRequestToAntigravity m a stream r
     = ConvertOpenAIRequestToAntigravity m b stream r)
    /\ (exists_ (gjsonGet (beforeAnthropic m a) thinkingConfigPath) = true ->
        sameExcept "thinking" a b ->
        ConvertOpenAIRequestToAntigravity m a stream r
        = ConvertOpenAIRequestToAntigravity m b stream r).
Proof.
  intros m a b stream r. split.
  - intros Ha H.
    assert (Hb : hasOfficialThinking b = true).
    { unfold hasOfficialThinking in *.
      rewrite <- (H "reasoning_effort" [] ltac:(discriminate)). exact Ha. }
    apply (convert_same "extra_body"); [exact H | | left; reflexivity].
    unfold applyThinking.
    rewrite (extension_ignored m a) by exact Ha.
    rewrite (extension_ignored m b) by exact Hb.
    rewrite (applyReasoningEffort_same "extra_body" m a b) by (try exact H; discriminate).
    apply (applyAnthropicThinking_same "extra_body"); [exact H | discriminate].
  - intros Ha H.
    assert (Hsame : beforeAnthropic m a = beforeAnthropic m b).
    { unfold beforeAnthropic.
      rewrite (applyReasoningEffort_same "thinking" m a b) by (try exact H; discriminate).
      apply (applyThinkingConfigExtension_same "thinking"); [exact H | discriminate..]. }
    apply (convert_same "thinking"); [exact H | | right; reflexivity].
    unfold applyThinking. fold (beforeAnthropic m a). fold (beforeAnthropic m b).
    rewrite <- Hsame.
    rewrite !anthropic_ignored by exact Ha. reflexivity.
Qed.


Definition effortNoneWithThinking : json :=
  JObj [("reasoning_effort", JStr "none");
        ("thinking", JObj [("type", JStr "enabled"); ("budget_tokens", JNum "1024")])].

(** On a Gemini 3 model that supports thinking, the effort [none] deletes the
    thinking configuration, and the Anthropic form then sets its budget:
    whatever the helpers outside the file are. *)
Lemma anthropic_applies_after_effort_none m :
  ModelSupportsThinking m = true -> IsGemini3Model m = true ->
  applyThinking m effortNoneWithThinking (baseEnvelope m)
  = set (set (baseEnvelope m) thinkingBudgetPath (JNum (ztoa (resultInt (JNum "1024")))))
        includeThoughtsPath (JBool true).
Proof.
  intros Hs Hg. unfold applyThinking, applyReasoningEffort, applyThinkingConfigExtension,
    applyAnthropicThinking.
  change (hasOfficialThinking effortNoneWithThinking) with true.
  rewrite Hs, Hg. reflexivity.
Qed.

End Reasoning.

Section ReasoningExamples.
#[local] Existing Instance Sample.sampleExternals.

(** C3, as stated, fails: [reasoning_effort] is present, and the Anthropic
    [thinking] object still decides the emitted [thinkingConfig].  With it the
    budget is 1024, without it there is no [thinkingConfig] at all. *)
Lemma C3_thinking_contributes_beside_reasoning_effort :
  hasOfficialThinking effortNoneWithThinking = true
  /\ gjsonGet (fst (ConvertOpenAIRequestToAntigravity "gemini-3-pro"
                      effortNoneWithThinking false Sample.zeroRng)) thinkingConfigPath
     = Some (JObj [("thinkingBudget", JNum "1024"); ("include_thoughts", JBool true)])
  /\ gjsonGet (fst (ConvertOpenAIRequestToAntigravity "gemini-3-pro"
                      (JObj [("reasoning_effort", JStr "none")]) false Sample.zeroRng))
              thinkingConfigPath
     = None.
Proof. repeat split; vm_compute; reflexivity. Qed.

Definition effortHighWithBoth : list (string * json) :=
  [("reasoning_effort", JStr "high");
   ("extra_body", JObj [("google", JObj [("thinking_config",
                     JObj [("thinkingBudget", JNum "256")])])]);
   ("thinking", JObj [("type", JStr "enabled"); ("budget_tokens", JNum "1024")])].

(** The scenario of the specification: the effort [high] decides the budget,
    the extension's 256 is ignored. *)
Example reasoning_effort_high_wins :
  gjsonGet (fst (ConvertOpenAIRequestToAntigravity "gemini-2.5-pro"
                   (JObj effortHighWithBoth) false Sample.zeroRng)) thinkingConfigPath
  = Some (JObj [("thinkingBudget", JNum "32768")]).
Proof. vm_compute. reflexivity. Qed.

Lemma C3_reasoning_precedence_witness :
  ConvertOpenAIRequestToAntigravity "gemini-2.5-pro" (JObj effortHighWithBoth) false Sample.zeroRng
  = ConvertOpenAIRequestToAntigravity "gemini-2.5-pro"
      (JObj (removeFirst "extra_body" effortHighWithBoth)) false Sample.zeroRng
  /\ ConvertOpenAIRequestToAntigravity "gemini-2.5-pro" (JObj effortHighWithBoth) false Sample.zeroRng
     = ConvertOpenAIRequestToAntigravity "gemini-2.5-pro"
         (JObj (removeFirst "thinking" effortHighWithBoth)) false Sample.zeroRng.
Proof.
  split.
  - apply (proj1 (C3_reasoning_precedence "gemini-2.5-pro" (JObj effortHighWithBoth)
                    (JObj (removeFirst "extra_body" effortHighWithBoth)) false Sample.zeroRng)).
    + reflexivity.
    + apply sameExcept_delete.
  - apply (proj2 (C3_reasoning_precedence "gemini-2.5-pro" (JObj effortHighWithBoth)
                    (JObj (removeFirst "thinking" effortHighWithBoth)) false Sample.zeroRng)).
    + vm_compute. reflexivity.
    + apply sameExcept_delete.
Defined.

End ReasoningExamples.

End TranslatorFacts.

(** * The translation, stage by stage

    Every stage of the translator sets its own members of [request] and
    leaves the others alone; no set fails on an envelope that is well
    formed.  From this: what the whole translation puts where. *)

Module Stages.
Import Json Translator TranslatorFacts.
Local Open Scope nat_scope.
Local Open Scope list_scope.

(** ** Reading after writing: gjson on what sjson made *)

Section Paths.

Definition keys (ks : list string) : path := List.map Key ks.

Fixpoint noAppend (p : path) : bool :=
  match p with
  | [] => true
  | Append :: _ => false
  | _ :: p' => noAppend p'
  end.

Lemma nth_error_fill {A} (xs : list A) (d x : A) n :
  length xs <= n -> nth_error (xs ++ repeat d (n - length xs) ++ [x]) n = Some x.
Proof.
  intros H. rewrite nth_error_app2 by exact H.
  rewrite nth_error_app2 by (rewrite repeat_length; lia).
  rewrite repeat_length, Nat.sub_diag. reflexivity.
Qed.

Lemma get_build p v : noAppend p = true -> gjsonGet (build p v) p = Some v.
Proof.
  induction p as [|s p IH]; [reflexivity|].
  destruct s as [k|n|]; cbn [noAppend]; intros H; [| |discriminate].
  - cbn [build gjsonGet getSeg segKey lookupKey]. rewrite String.eqb_refl. apply IH, H.
  - cbn [build gjsonGet getSeg].
    pose proof (nth_error_fill [] JNull (build p v) n (Nat.le_0_l n)) as E.
    cbn [app length] in E. rewrite Nat.sub_0_r in E. rewrite E. apply IH, H.
Qed.

Lemma updNth_spec n f : forall xs r,
  updNth n f xs = Some r ->
  exists x x', nth_error xs n = Some x /\ f x = Some x' /\ nth_error r n = Some x'.
Proof.
  induction n as [|n IH]; intros [|x xs] r; cbn [updNth]; try discriminate.
  - destruct (f x) as [x'|] eqn:E; [|discriminate]. intros [= <-]. exists x, x'. auto.
  - destruct (updNth n f xs) as [r'|] eqn:E; [|discriminate]. intros [= <-].
    destruct (IH xs r' E) as (y & y' & H1 & H2 & H3). exists y, y'. auto.
Qed.

Lemma updNth_ok n f : forall xs x x',
  nth_error xs n = Some x -> f x = Some x' -> exists r, updNth n f xs = Some r.
Proof.
  induction n as [|n IH]; intros [|y xs] x x'; cbn [nth_error updNth]; try discriminate.
  - intros [= ->] ->. eauto.
  - intros H1 H2. destruct (IH xs x x' H1 H2) as [r ->]. eauto.
Qed.

(** What was set is what is read, on a path that does not append. *)
Lemma get_sjsonSet p v : forall j j',
  noAppend p = true -> sjsonSet j p v = Some j' -> gjsonGet j' p = Some v.
Proof.
  induction p as [|s p IH]; intros j j' Hp; [cbn; congruence|].
  assert (Hp' : noAppend p = true) by (destruct s; [exact Hp | exact Hp | discriminate]).
  assert (Hb : gjsonGet (build (s :: p) v) (s :: p) = Some v) by (apply get_build, Hp).
  destruct j as [ | | | | xs | ms | ]; cbn [sjsonSet];
    try (intros [= <-]; exact Hb).
  - destruct s as [k|n|]; [discriminate| |discriminate].
    destruct (Nat.ltb_spec n (length xs)) as [Hlt|Hge].
    + destruct (updNth n (fun x => sjsonSet x p v) xs) as [r|] eqn:E; [|discriminate].
      intros [= <-]. destruct (updNth_spec _ _ _ _ E) as (x & x' & _ & H2 & H3).
      cbn [gjsonGet getSeg]. rewrite H3. apply (IH x x' Hp' H2).
    + intros [= <-]. cbn [gjsonGet getSeg]. rewrite (nth_error_fill xs JNull _ n Hge).
      apply get_build, Hp'.
  - pose proof (updFirst_spec (segKey s) (fun x => sjsonSet x p v) ms) as Hspec.
    destruct (updFirst (segKey s) _ ms) as [[r|]|]; [|discriminate|]; intros [= <-].
    + destruct Hspec as (x & x' & _ & H2 & H3 & _).
      cbn [gjsonGet getSeg]. rewrite H3. apply (IH x x' Hp' H2).
    + cbn [gjsonGet getSeg]. rewrite lookupKey_app, Hspec, String.eqb_refl.
      apply get_build, Hp'.
Qed.

(** Two paths part at a key: after a common prefix of keys the one goes on
    with a key, the other with another key. *)
Fixpoint partAtKey (p q : path) : bool :=
  match p, q with
  | Key k :: p', Key k' :: q' => if String.eqb k k' then partAtKey p' q' else true
  | _, _ => false
  end.

Lemma get_build_parted q v : forall p, partAtKey p q = true -> gjsonGet (build q v) p = None.
Proof.
  induction q as [|s q IH]; intros [|t p]; cbn [partAtKey]; try discriminate;
    destruct t as [k| |]; try discriminate.
  destruct s as [k'| |]; try discriminate.
  cbn [build gjsonGet getSeg segKey lookupKey].
  destruct (String.eqb k k'); [apply IH | reflexivity].
Qed.

Lemma get_scalar_parted j p q :
  match j with JObj _ | JArr _ => False | _ => True end ->
  partAtKey p q = true -> gjsonGet j p = None.
Proof.
  destruct p as [|[k| |] p]; cbn [partAtKey]; try discriminate.
  destruct j; cbn; tauto.
Qed.

(** A set leaves alone what is read on a path that parts from its own at a
    key. *)
Lemma get_sjsonSet_parted q v : forall p j j',
  partAtKey p q = true -> sjsonSet j q v = Some j' -> gjsonGet j' p = gjsonGet j p.
Proof.
  induction q as [|s q IH]; intros [|t p] j j'; cbn [partAtKey]; try discriminate;
    destruct t as [k| |]; try discriminate.
  destruct s as [k'| |]; try discriminate.
  intros Hpart.
  assert (Hb : gjsonGet (build (Key k' :: q) v) (Key k :: p) = None).
  { apply get_build_parted. cbn [partAtKey]. exact Hpart. }
  destruct j as [ | | | | xs | ms | ]; cbn [sjsonSet segKey];
    try (intros [= <-]; exact Hb); try (intros Hx; discriminate Hx).
  pose proof (updFirst_spec k' (fun x => sjsonSet x q v) ms) as Hspec.
  destruct (updFirst k' _ ms) as [[r|]|]; [|discriminate|]; intros [= <-];
    cbn [gjsonGet getSeg segKey].
  - destruct Hspec as (x & x' & H1 & H2 & H3 & H4).
    destruct (String.eqb_spec k k') as [->|Hne].
    + rewrite H1, H3. apply (IH p x x' Hpart H2).
    + rewrite (H4 k Hne). reflexivity.
  - rewrite lookupKey_app.
    destruct (String.eqb_spec k k') as [->|Hne].
    + rewrite Hspec. apply get_build_parted, Hpart.
    + destruct (lookupKey k ms); reflexivity.
Qed.


(** ** When a set goes through

    [sjson.Set] fails when a key of the path meets an array.  [settable j ks]
    says that this does not happen for the keys [ks], as far as [j] goes
    along them. *)
Fixpoint settable (j : json) (ks : list string) : bool :=
  match ks with
  | [] => true
  | k :: ks' =>
      match j with
      | JArr _ => false
      | JObj ms =>
          match lookupKey k ms with
          | Some x => settable x ks'
          | None => true
          end
      | _ => true
      end
  end.

Lemma updFirst_ok k f ms x x' :
  lookupKey k ms = Some x -> f x = Some x' -> exists r, updFirst k f ms = Some (Some r).
Proof.
  intros H1 H2. pose proof (updFirst_spec k f ms) as Hspec.
  destruct (updFirst k f ms) as [[r|]|].
  - eauto.
  - destruct Hspec as (y & Hy & Hf). congruence.
  - congruence.
Qed.

(** A set on the keys [ks] and then on [r] goes through when the keys are
    settable and the set on [r] goes through on what the keys lead to. *)
Lemma sjsonSet_ok r v : forall ks j,
  settable j ks = true ->
  (forall x, gjsonGet j (keys ks) = Some x -> is_Some (sjsonSet x r v)) ->
  is_Some (sjsonSet j (keys ks ++ r) v).
Proof.
  induction ks as [|k ks IH]; intros j Hs Hr; [apply Hr; reflexivity|].
  cbn [keys List.map app]. fold (keys ks).
  destruct j as [ | | | | xs | ms | ]; cbn [sjsonSet segKey]; try (eexists; reflexivity).
  - discriminate.
  - cbn [settable] in Hs.
    destruct (lookupKey k ms) as [x|] eqn:Hk.
    + destruct (IH x Hs) as [x' Hx'].
      { intros y Hy. apply Hr. cbn [keys List.map gjsonGet getSeg segKey]. rewrite Hk. exact Hy. }
      destruct (updFirst_ok k (fun y => sjsonSet y (keys ks ++ r) v) ms x x' Hk Hx') as [r' ->].
      eexists; reflexivity.
    + pose proof (updFirst_spec k (fun y => sjsonSet y (keys ks ++ r) v) ms) as Hspec.
      destruct (updFirst k _ ms) as [[r'|]|]; try (eexists; reflexivity).
      destruct Hspec as (y & Hy & _). congruence.
Qed.

Lemma sjsonSet_keys_ok ks v j :
  settable j ks = true -> is_Some (sjsonSet j (keys ks) v).
Proof.
  intros Hs. rewrite <- (app_nil_r (keys ks)). apply sjsonSet_ok; [exact Hs|].
  intros x _. eexists; reflexivity.
Qed.

Lemma sjsonSet_append_ok ks v j :
  settable j ks = true -> is_Some (sjsonSet j (keys ks ++ [Append]) v).
Proof.
  intros Hs. apply sjsonSet_ok; [exact Hs|]. intros x _.
  destruct x as [ | | | | xs | ms | ]; cbn [sjsonSet segKey]; try (eexists; reflexivity).
  pose proof (updFirst_spec "-1" (fun y => sjsonSet y [] v) ms) as Hspec.
  destruct (updFirst "-1" _ ms) as [[r'|]|]; try (eexists; reflexivity).
  destruct Hspec as (y & _ & Hy). discriminate.
Qed.

(** The keys [ks] and the path [q] go together: they part at a key, or [q]
    goes on where the keys end. *)
Fixpoint compatible (ks : list string) (q : path) : bool :=
  match ks, q with
  | [], _ => true
  | k :: ks', Key k' :: q' => if String.eqb k k' then compatible ks' q' else true
  | _ :: _, _ => false
  end.

Lemma settable_build q v : forall ks, compatible ks q = true -> settable (build q v) ks = true.
Proof.
  induction q as [|s q IH]; intros [|k ks]; cbn [compatible]; try reflexivity;
    try discriminate.
  destruct s as [k'| |]; try discriminate.
  cbn [build settable lookupKey].
  destruct (String.eqb k k'); [apply IH | reflexivity].
Qed.

(** A set keeps the keys settable that go together with its path. *)
Lemma settable_sjsonSet q v : forall ks j j',
  compatible ks q = true -> sjsonSet j q v = Some j' ->
  settable j ks = true -> settable j' ks = true.
Proof.
  induction q as [|s q IH]; intros [|k ks] j j'; cbn [compatible]; try reflexivity;
    try discriminate.
  destruct s as [k'| |]; try discriminate.
  intros Hc.
  assert (Hb : settable (build (Key k' :: q) v) (k :: ks) = true).
  { apply settable_build. cbn [compatible]. exact Hc. }
  destruct j as [ | | | | xs | ms | ]; cbn [sjsonSet segKey];
    try (intros [= <-] _; exact Hb); try (intros Hx; discriminate Hx).
  pose proof (updFirst_spec k' (fun x => sjsonSet x q v) ms) as Hspec.
  destruct (updFirst k' _ ms) as [[r|]|]; [|discriminate|]; intros [= <-];
    cbn [settable].
  - destruct Hspec as (x & x' & H1 & H2 & H3 & H4).
    destruct (String.eqb_spec k k') as [->|Hne].
    + rewrite H1, H3. apply (IH ks x x' Hc H2).
    + rewrite (H4 k Hne). trivial.
  - rewrite lookupKey_app.
    destruct (String.eqb_spec k k') as [->|Hne].
    + rewrite Hspec. intros _. apply settable_build, Hc.
    + destruct (lookupKey k ms); trivial.
Qed.

(** Appending to the array the keys lead to. *)
Lemma get_sjsonSet_append v : forall ks j j' xs,
  gjsonGet j (keys ks) = Some (JArr xs) ->
  sjsonSet j (keys ks ++ [Append]) v = Some j' ->
  gjsonGet j' (keys ks) = Some (JArr (xs ++ [v])).
Proof.
  induction ks as [|k ks IH]; intros j j' xs.
  - cbn. intros [= ->] [= <-]. reflexivity.
  - cbn [keys List.map app gjsonGet getSeg segKey]. fold (keys ks).
    destruct j as [ | | | | ys | ms | ]; try discriminate.
    cbn [getSeg segKey sjsonSet].
    destruct (lookupKey k ms) as [x|] eqn:Hk; [|discriminate]. intros Hx.
    pose proof (updFirst_spec k (fun y => sjsonSet y (keys ks ++ [Append]) v) ms) as Hspec.
    destruct (updFirst k _ ms) as [[r|]|]; [|discriminate|]; intros [= <-].
    + destruct Hspec as (y & y' & H1 & H2 & H3 & _).
      cbn [gjsonGet getSeg segKey]. rewrite H3.
      rewrite Hk in H1. injection H1 as <-. apply (IH x y' xs Hx H2).
    + congruence.
Qed.


Lemma get_build_keys r v : forall ks,
  gjsonGet (build (keys ks ++ r) v) (keys ks) = Some (build r v).
Proof.
  induction ks as [|k ks IH]; [reflexivity|].
  cbn [keys List.map app build gjsonGet getSeg segKey lookupKey].
  rewrite String.eqb_refl. exact IH.
Qed.

(** What the keys lead to after a set that goes on below them. *)
Lemma get_sjsonSet_under r v : forall ks j j',
  sjsonSet j (keys ks ++ r) v = Some j' ->
  exists x', gjsonGet j' (keys ks) = Some x'
             /\ match gjsonGet j (keys ks) with
                | Some x => sjsonSet x r v = Some x'
                | None => x' = build r v
                end.
Proof.
  induction ks as [|k ks IH]; intros j j' Hset.
  - exists j'. split; [reflexivity | exact Hset].
  - cbn [keys List.map app] in *. fold (keys ks) in *.
    assert (Hb : exists x', gjsonGet (build (Key k :: keys ks ++ r) v) (Key k :: keys ks) = Some x'
                            /\ x' = build r v).
    { exists (build r v). split; [|reflexivity]. apply (get_build_keys r v (k :: ks)). }
    destruct j as [ | | | | xs | ms | ]; cbn [sjsonSet segKey] in Hset;
      try (injection Hset as <-; exact Hb); try discriminate.
    pose proof (updFirst_spec k (fun y => sjsonSet y (keys ks ++ r) v) ms) as Hspec.
    destruct (updFirst k _ ms) as [[r'|]|]; [|discriminate|]; injection Hset as <-;
      cbn [gjsonGet getSeg segKey].
    + destruct Hspec as (y & y' & H1 & H2 & H3 & _). rewrite H1, H3. apply (IH y y' H2).
    + rewrite lookupKey_app, Hspec, String.eqb_refl.
      exists (build r v). split; [apply get_build_keys | reflexivity].
Qed.

Lemma partAtKey_app p q r : partAtKey p q = true -> partAtKey p (q ++ r) = true.
Proof.
  revert p. induction q as [|s q IH]; intros [|t p]; cbn [partAtKey app]; try discriminate;
    destruct t as [k| |]; try discriminate.
  destruct s as [k'| |]; try discriminate.
  destruct (String.eqb k k'); [apply IH | reflexivity].
Qed.

Lemma noAppend_keys ks : noAppend (keys ks) = true.
Proof. induction ks; [reflexivity | exact IHks]. Qed.

End Paths.

(** ** The envelope along the translation *)

Ltac in_paths := cbn [In]; repeat (first [left; reflexivity | right]).

Section Envelope.
Context `{Ext : Externals}.

(** The key paths the translator sets. *)
Definition pathsUsed : list (list string) :=
  [ ["request"; "generationConfig"; "temperature"];
    ["request"; "generationConfig"; "topP"];
    ["request"; "generationConfig"; "topK"];
    ["request"; "generationConfig"; "maxOutputTokens"];
    ["request"; "generationConfig"; "responseModalities"];
    ["request"; "generationConfig"; "imageConfig"; "aspectRatio"];
    ["request"; "generationConfig"; "imageConfig"; "imageSize"];
    ["request"; "generationConfig"; "thinkingConfig"; "thinkingBudget"];
    ["request"; "generationConfig"; "thinkingConfig"; "include_thoughts"];
    ["request"; "systemInstruction"; "role"];
    ["request"; "systemInstruction"; "parts"];
    ["request"; "contents"];
    ["request"; "tools"];
    ["request"; "toolConfig"; "functionCallingConfig"; "allowedFunctionNames"];
    ["request"; "toolConfig"; "functionCallingConfig"; "mode"];
    ["request"; "safetySettings"] ].

Definition notArray (j : json) : bool :=
  match j with JArr _ => false | _ => true end.

Definition sysPartsPath : path := keys ["request"; "systemInstruction"; "parts"].

(** The parts of the system instruction: none yet, or an array that holds no
    array. *)
Definition partsOk (r : option json) : bool :=
  match r with
  | None => true
  | Some (JArr ps) => forallb notArray ps
  | Some _ => false
  end.

(** No set of the translator can fail on [out]. *)
Definition wellFormed (out : json) : bool :=
  forallb (settable out) pathsUsed && partsOk (gjsonGet out sysPartsPath).

Lemma wellFormed_settable out ks :
  wellFormed out = true -> In ks pathsUsed -> settable out ks = true.
Proof.
  unfold wellFormed. intros H Hin. apply andb_prop in H as [H _].
  rewrite forallb_forall in H. apply H, Hin.
Qed.

(** One set of the translator outside the parts of the system instruction. *)
Lemma set_step out q v :
  wellFormed out = true ->
  forallb (fun ks => compatible ks q) pathsUsed = true ->
  partAtKey sysPartsPath q = true ->
  is_Some (sjsonSet out q v) ->
  sjsonSet out q v = Some (set out q v)
  /\ wellFormed (set out q v) = true
  /\ (forall p, partAtKey p q = true -> gjsonGet (set out q v) p = gjsonGet out p).
Proof.
  intros Hwf Hc Hparts [j' Hj']. unfold set. rewrite Hj'. cbn [orEmpty].
  split; [reflexivity|]. split.
  - unfold wellFormed in *. apply andb_prop in Hwf as [H1 H2]. apply andb_true_intro. split.
    + rewrite forallb_forall in *. intros ks Hin.
      apply (settable_sjsonSet q v ks out j'); [apply Hc, Hin | exact Hj' | apply H1, Hin].
    + rewrite (get_sjsonSet_parted q v _ out j' Hparts Hj'). exact H2.
  - intros p Hp. apply (get_sjsonSet_parted q v p out j' Hp Hj').
Qed.

(** A set on one of the key paths. *)
Lemma set_keys out ks v :
  wellFormed out = true ->
  In ks pathsUsed ->
  partAtKey sysPartsPath (keys ks) = true ->
  wellFormed (set out (keys ks) v) = true
  /\ (forall p, partAtKey p (keys ks) = true ->
        gjsonGet (set out (keys ks) v) p = gjsonGet out p)
  /\ gjsonGet (set out (keys ks) v) (keys ks) = Some v.
Proof.
  intros Hwf Hin Hparts.
  destruct (set_step out (keys ks) v Hwf) as (H1 & H2 & H3);
    [|exact Hparts|apply sjsonSet_keys_ok, (wellFormed_settable _ _ Hwf Hin)|].
  { cbn [In pathsUsed] in Hin.
    repeat (destruct Hin as [<-|Hin]; [reflexivity|]). contradiction. }
  split; [exact H2|]. split; [exact H3|].
  apply (get_sjsonSet (keys ks) v out); [apply noAppend_keys | exact H1].
Qed.

Lemma set_keys_eq out ks v :
  wellFormed out = true -> In ks pathsUsed ->
  sjsonSet out (keys ks) v = Some (set out (keys ks) v).
Proof.
  intros Hwf Hin.
  destruct (sjsonSet_keys_ok ks v out (wellFormed_settable _ _ Hwf Hin)) as [j' Hj'].
  unfold set. rewrite Hj'. reflexivity.
Qed.


(** *** Generation parameters (lines 129-169) *)

Definition generationConfig : path := keys ["request"; "generationConfig"].

Lemma copyNumber_stage rawJSON from to out :
  wellFormed out = true ->
  In ["request"; "generationConfig"; to] pathsUsed ->
  wellFormed (copyNumber rawJSON from to out) = true
  /\ (forall p, partAtKey p (generationConfigPath to) = true ->
        gjsonGet (copyNumber rawJSON from to out) p = gjsonGet out p)
  /\ gjsonGet (copyNumber rawJSON from to out) (generationConfigPath to)
     = match gjsonGet rawJSON [Key from] with
       | Some (JNum n) => Some (JNum (formatFloat64 n))
       | _ => gjsonGet out (generationConfigPath to)
       end.
Proof.
  intros Hwf Hin. unfold copyNumber.
  destruct (gjsonGet rawJSON [Key from]) as [[ | | n | | | | ]|]; auto.
  apply (set_keys out ["request"; "generationConfig"; to] (JNum (formatFloat64 n)) Hwf Hin).
  reflexivity.
Qed.

Lemma applyModalities_stage rawJSON out :
  wellFormed out = true ->
  wellFormed (applyModalities rawJSON out) = true
  /\ (forall p, partAtKey p (generationConfigPath "responseModalities") = true ->
        gjsonGet (applyModalities rawJSON out) p = gjsonGet out p)
  /\ gjsonGet (applyModalities rawJSON out) (generationConfigPath "responseModalities")
     = match gjsonGet rawJSON [Key "modalities"] with
       | Some (JArr mods) =>
           match responseModalities mods with
           | [] => gjsonGet out (generationConfigPath "responseModalities")
           | rs => Some (JArr rs)
           end
       | _ => gjsonGet out (generationConfigPath "responseModalities")
       end.
Proof.
  intros Hwf. unfold applyModalities.
  destruct (gjsonGet rawJSON [Key "modalities"]) as [[ | | | | mods | | ]|]; auto.
  destruct (responseModalities mods) as [|x rs]; auto.
  apply (set_keys out ["request"; "generationConfig"; "responseModalities"] (JArr (x :: rs)) Hwf);
    [in_paths | reflexivity].
Qed.

Lemma applyImageConfig_stage rawJSON out :
  wellFormed out = true ->
  wellFormed (applyImageConfig rawJSON out) = true
  /\ (forall p, partAtKey p (generationConfig ++ [Key "imageConfig"]) = true ->
        gjsonGet (applyImageConfig rawJSON out) p = gjsonGet out p).
Proof.
  intros Hwf. unfold applyImageConfig.
  destruct (gjsonGet rawJSON [Key "image_config"]) as [[ | | | | | ms | ]|]; auto.
  set (out1 := match gjsonGet (JObj ms) [Key "aspect_ratio"] with
               | Some (JStr ar) => set out (imageConfigPath "aspectRatio") (JStr ar)
               | _ => out
               end).
  assert (H1 : wellFormed out1 = true
               /\ forall p, partAtKey p (generationConfig ++ [Key "imageConfig"]) = true ->
                    gjsonGet out1 p = gjsonGet out p).
  { unfold out1.
    destruct (gjsonGet (JObj ms) [Key "aspect_ratio"]) as [[ | | | ar | | | ]|]; auto.
    destruct (set_keys out ["request"; "generationConfig"; "imageConfig"; "aspectRatio"]
                (JStr ar) Hwf) as (Ha & Hb & _); [in_paths | reflexivity|].
    split; [exact Ha|]. intros p Hp. apply Hb.
    apply (partAtKey_app p (generationConfig ++ [Key "imageConfig"]) [Key "aspectRatio"] Hp). }
  destruct H1 as [Hwf1 Hf1].
  destruct (gjsonGet (JObj ms) [Key "image_size"]) as [[ | | | size | | | ]|]; auto.
  destruct (set_keys out1 ["request"; "generationConfig"; "imageConfig"; "imageSize"]
              (JStr size) Hwf1) as (Ha & Hb & _); [in_paths | reflexivity|].
  split; [exact Ha|]. intros p Hp. rewrite <- (Hf1 p Hp). apply Hb.
  apply (partAtKey_app p (generationConfig ++ [Key "imageConfig"]) [Key "imageSize"] Hp).
Qed.

(** The four numbers the translator copies, under the name the request has
    and the name the upstream has. *)
Definition numberParams : list (string * string) :=
  [("temperature", "temperature"); ("top_p", "topP"); ("top_k", "topK");
   ("max_tokens", "maxOutputTokens")].

Lemma applyGenerationParams_stage rawJSON out :
  wellFormed out = true ->
  wellFormed (applyGenerationParams rawJSON out) = true
  /\ (forall p, partAtKey p generationConfig = true ->
        gjsonGet (applyGenerationParams rawJSON out) p = gjsonGet out p)
  /\ (forall from to, In (from, to) numberParams ->
        gjsonGet (applyGenerationParams rawJSON out) (generationConfigPath to)
        = match gjsonGet rawJSON [Key from] with
          | Some (JNum n) => Some (JNum (formatFloat64 n))
          | _ => gjsonGet out (generationConfigPath to)
          end)
  /\ gjsonGet (applyGenerationParams rawJSON out) (generationConfigPath "responseModalities")
     = match gjsonGet rawJSON [Key "modalities"] with
       | Some (JArr mods) =>
           match responseModalities mods with
           | [] => gjsonGet out (generationConfigPath "responseModalities")
           | rs => Some (JArr rs)
           end
       | _ => gjsonGet out (generationConfigPath "responseModalities")
       end.
Proof.
  intros Hwf. unfold applyGenerationParams.
  destruct (copyNumber_stage rawJSON "temperature" "temperature" out Hwf)
    as (W1 & F1 & V1); [in_paths|].
  set (o1 := copyNumber rawJSON "temperature" "temperature" out) in *.
  destruct (copyNumber_stage rawJSON "top_p" "topP" o1 W1) as (W2 & F2 & V2); [in_paths|].
  set (o2 := copyNumber rawJSON "top_p" "topP" o1) in *.
  destruct (copyNumber_stage rawJSON "top_k" "topK" o2 W2) as (W3 & F3 & V3); [in_paths|].
  set (o3 := copyNumber rawJSON "top_k" "topK" o2) in *.
  destruct (copyNumber_stage rawJSON "max_tokens" "maxOutputTokens" o3 W3)
    as (W4 & F4 & V4); [in_paths|].
  set (o4 := copyNumber rawJSON "max_tokens" "maxOutputTokens" o3) in *.
  destruct (applyModalities_stage rawJSON o4 W4) as (W5 & F5 & V5).
  set (o5 := applyModalities rawJSON o4) in *.
  destruct (applyImageConfig_stage rawJSON o5 W5) as (W6 & F6).
  split; [exact W6|]. split; [|split].
  - intros p Hp.
    rewrite F6 by (apply (partAtKey_app p generationConfig [Key "imageConfig"] Hp)).
    rewrite F5 by (apply (partAtKey_app p generationConfig [Key "responseModalities"] Hp)).
    rewrite F4 by (apply (partAtKey_app p generationConfig [Key "maxOutputTokens"] Hp)).
    rewrite F3 by (apply (partAtKey_app p generationConfig [Key "topK"] Hp)).
    rewrite F2 by (apply (partAtKey_app p generationConfig [Key "topP"] Hp)).
    apply F1, (partAtKey_app p generationConfig [Key "temperature"] Hp).
  - intros from to Hin. cbn [In numberParams] in Hin.
    destruct Hin as [[= <- <-]|[[= <- <-]|[[= <- <-]|[[= <- <-]|[]]]]];
      rewrite F6 by reflexivity; rewrite F5 by reflexivity.
    + rewrite F4, F3, F2 by reflexivity. exact V1.
    + rewrite F4, F3 by reflexivity. rewrite V2. rewrite F1 by reflexivity. reflexivity.
    + rewrite F4 by reflexivity. rewrite V3. rewrite F2, F1 by reflexivity. reflexivity.
    + rewrite V4. rewrite F3, F2, F1 by reflexivity. reflexivity.
  - rewrite F6 by reflexivity. rewrite V5.
    rewrite F4, F3, F2, F1 by reflexivity. reflexivity.
Qed.


(** *** The system instruction (lines 229-245) *)

Lemma forallb_repeat {A} (P : A -> bool) x n : P x = true -> forallb P (repeat x n) = true.
Proof. intros H. induction n as [|n IH]; cbn; [reflexivity | rewrite H; exact IH]. Qed.

Lemma updNth_forallb (P : json -> bool) f n : forall xs r,
  (forall y y', f y = Some y' -> P y' = true) ->
  forallb P xs = true -> updNth n f xs = Some r -> forallb P r = true.
Proof.
  induction n as [|n IH]; intros [|x xs] r Hf; cbn [updNth forallb]; try discriminate.
  - intros H. apply andb_prop in H as [_ H].
    destruct (f x) as [x'|] eqn:E; [|discriminate]. intros [= <-].
    cbn [forallb]. rewrite (Hf x x' E). exact H.
  - intros H. apply andb_prop in H as [H1 H2].
    destruct (updNth n f xs) as [r'|] eqn:E; [|discriminate]. intros [= <-].
    cbn [forallb]. rewrite H1. apply (IH xs r' Hf H2 E).
Qed.

(** Setting a key of a value that is not an array gives an object. *)
Lemma set_key_notArray y k v :
  notArray y = true ->
  exists y', sjsonSet y [Key k] v = Some y' /\ notArray y' = true.
Proof.
  destruct y as [ | | | | xs | ms | ]; cbn [notArray sjsonSet segKey build]; try discriminate;
    intros _; try (eexists; split; reflexivity).
  pose proof (updFirst_spec k (fun x => sjsonSet x [] v) ms) as Hspec.
  destruct (updFirst k _ ms) as [[r|]|]; try (eexists; split; reflexivity).
  destruct Hspec as (x & _ & Hx). discriminate.
Qed.

Definition partText (j : nat) : path := sysPartsPath ++ [Idx j; Key "text"].

Lemma sjsonSet_idx xs n p v :
  sjsonSet (JArr xs) (Idx n :: p) v
  = if Nat.ltb n (length xs)
    then match updNth n (fun x => sjsonSet x p v) xs with
         | Some r => Some (JArr r)
         | None => None
         end
    else Some (JArr (xs ++ repeat JNull (n - length xs) ++ [build p v])).
Proof. reflexivity. Qed.

Lemma set_part_text_ok x j v :
  partsOk (Some x) = true ->
  exists x', sjsonSet x [Idx j; Key "text"] v = Some x' /\ partsOk (Some x') = true.
Proof.
  destruct x as [ | | | | ps | ms | ]; cbn [partsOk]; try discriminate. intros Hps.
  rewrite sjsonSet_idx.
  destruct (Nat.ltb_spec j (length ps)) as [Hlt|Hge].
  - destruct (nth_error ps j) as [y|] eqn:Hy;
      [|apply nth_error_None in Hy; lia].
    assert (Hn : notArray y = true).
    { rewrite forallb_forall in Hps. apply Hps, (nth_error_In _ _ Hy). }
    destruct (set_key_notArray y "text" v Hn) as (y' & Hy' & _).
    destruct (updNth_ok j (fun x => sjsonSet x [Key "text"] v) ps y y' Hy Hy') as [r Hr].
    rewrite Hr. eexists. split; [reflexivity|]. cbn [partsOk].
    apply (updNth_forallb notArray (fun x => sjsonSet x [Key "text"] v) j ps r);
      [|exact Hps|exact Hr].
    intros z z' Hz. destruct z as [ | | | | zs | zm | ]; cbn [sjsonSet segKey build] in Hz;
      try (injection Hz as <-; reflexivity); try discriminate.
    destruct (updFirst "text" _ zm) as [[r'|]|]; try discriminate; injection Hz as <-;
      reflexivity.
  - eexists. split; [reflexivity|]. cbn [partsOk build].
    rewrite !forallb_app, Hps, forallb_repeat by reflexivity. reflexivity.
Qed.

Lemma systemText_stage out j text :
  wellFormed out = true ->
  wellFormed (systemText out j text) = true
  /\ (forall p, partAtKey p sysPartsPath = true ->
        gjsonGet (systemText out j text) p = gjsonGet out p)
  /\ gjsonGet (systemText out j text) (partText j) = Some (JStr text).
Proof.
  intros Hwf. unfold systemText.
  change (systemInstructionPath [Key "parts"; Idx j; Key "text"]) with (partText j).
  assert (Hok : is_Some (sjsonSet out (partText j) (JStr text))).
  { apply (sjsonSet_ok [Idx j; Key "text"] (JStr text) ["request"; "systemInstruction"; "parts"]).
    - apply (wellFormed_settable _ _ Hwf). in_paths.
    - intros x Hx. unfold wellFormed in Hwf. apply andb_prop in Hwf as [_ Hp].
      unfold sysPartsPath in Hp. rewrite Hx in Hp.
      destruct (set_part_text_ok x j (JStr text) Hp) as (x' & Hx' & _). eauto. }
  destruct Hok as [j' Hj']. unfold set. rewrite Hj'. cbn [orEmpty].
  split; [|split].
  - pose proof Hwf as Hwf'. unfold wellFormed in Hwf |- *.
    apply andb_prop in Hwf as [H1 H2]. apply andb_true_intro. split.
    + rewrite forallb_forall in *. intros ks Hin.
      apply (settable_sjsonSet (partText j) (JStr text) ks out j'); [|exact Hj'|apply H1, Hin].
      cbn [In pathsUsed] in Hin.
      repeat (destruct Hin as [<-|Hin]; [reflexivity|]). contradiction.
    + destruct (get_sjsonSet_under [Idx j; Key "text"] (JStr text)
                  ["request"; "systemInstruction"; "parts"] out j' Hj') as (x' & Hx' & Hrel).
      fold sysPartsPath in Hx', Hrel. rewrite Hx'.
      destruct (gjsonGet out sysPartsPath) as [x|].
      * destruct (set_part_text_ok x j (JStr text) H2) as (x'' & Hx'' & Hp'').
        congruence.
      * subst x'. cbn [partsOk build]. rewrite forallb_app, forallb_repeat by reflexivity.
        reflexivity.
  - intros p Hp. apply (get_sjsonSet_parted (partText j) (JStr text) p out j'); [|exact Hj'].
    apply (partAtKey_app p sysPartsPath [Idx j; Key "text"] Hp).
  - apply (get_sjsonSet (partText j) (JStr text) out j'); [reflexivity | exact Hj'].
Qed.

Definition systemInstructionKeys : path := keys ["request"; "systemInstruction"].

Lemma partAtKey_parts p :
  partAtKey p systemInstructionKeys = true -> partAtKey p sysPartsPath = true.
Proof. apply (partAtKey_app p systemInstructionKeys [Key "parts"]). Qed.

Lemma systemRole_stage out :
  wellFormed out = true ->
  wellFormed (set out (systemInstructionPath [Key "role"]) (JStr "user")) = true
  /\ (forall p, partAtKey p systemInstructionKeys = true ->
        gjsonGet (set out (systemInstructionPath [Key "role"]) (JStr "user")) p
        = gjsonGet out p)
  /\ gjsonGet (set out (systemInstructionPath [Key "role"]) (JStr "user"))
              (systemInstructionPath [Key "role"]) = Some (JStr "user").
Proof.
  intros Hwf.
  destruct (set_keys out ["request"; "systemInstruction"; "role"] (JStr "user") Hwf)
    as (H1 & H2 & H3); [in_paths | reflexivity|].
  split; [exact H1|]. split; [|exact H3].
  intros p Hp. apply H2. apply (partAtKey_app p systemInstructionKeys [Key "role"] Hp).
Qed.

Lemma systemParts_stage contents : forall out j,
  wellFormed out = true ->
  wellFormed (systemParts out j contents) = true
  /\ (forall p, partAtKey p sysPartsPath = true ->
        gjsonGet (systemParts out j contents) p = gjsonGet out p).
Proof.
  induction contents as [|c contents IH]; intros out j Hwf; cbn [systemParts]; [auto|].
  destruct (systemText_stage out j (str (gjsonGet c [Key "text"])) Hwf) as (H1 & H2 & _).
  destruct (IH _ (S j) H1) as (H3 & H4).
  split; [exact H3|]. intros p Hp. rewrite (H4 p Hp). apply H2, Hp.
Qed.

Lemma systemInstruction_stage content out :
  wellFormed out = true ->
  wellFormed (systemInstruction content out) = true
  /\ (forall p, partAtKey p systemInstructionKeys = true ->
        gjsonGet (systemInstruction content out) p = gjsonGet out p).
Proof.
  intros Hwf. unfold systemInstruction.
  destruct (systemRole_stage out Hwf) as (R1 & R2 & _).
  destruct content as [[ | | | s | contents | ms | ]|]; auto.
  - destruct (systemText_stage _ 0 s R1) as (H1 & H2 & _).
    split; [exact H1|]. intros p Hp. rewrite (H2 p (partAtKey_parts p Hp)). apply R2, Hp.
  - destruct contents as [|c contents]; [auto|].
    destruct (systemParts_stage (c :: contents) _ 0 R1) as (H1 & H2).
    split; [exact H1|]. intros p Hp. rewrite (H2 p (partAtKey_parts p Hp)). apply R2, Hp.
  - destruct (String.eqb _ "text"); [|auto].
    destruct (systemText_stage _ 0 (str (gjsonGet (JObj ms) [Key "text"])) R1) as (H1 & H2 & _).
    split; [exact H1|]. intros p Hp. rewrite (H2 p (partAtKey_parts p Hp)). apply R2, Hp.
Qed.


(** *** The contents (lines 246-461) *)

Definition contentsPath : path := keys ["request"; "contents"].

Lemma append_stage out node :
  wellFormed out = true ->
  wellFormed (set out contentsAppend node) = true
  /\ (forall p, partAtKey p contentsPath = true ->
        gjsonGet (set out contentsAppend node) p = gjsonGet out p)
  /\ (forall cs, gjsonGet out contentsPath = Some (JArr cs) ->
        gjsonGet (set out contentsAppend node) contentsPath = Some (JArr (cs ++ [node]))).
Proof.
  intros Hwf.
  destruct (set_step out contentsAppend node Hwf) as (H1 & H2 & H3);
    [reflexivity | reflexivity | |].
  { apply (sjsonSet_append_ok ["request"; "contents"]).
    apply (wellFormed_settable _ _ Hwf). in_paths. }
  split; [exact H2|]. split.
  - intros p Hp. apply H3. apply (partAtKey_app p contentsPath [Append] Hp).
  - intros cs Hcs.
    apply (get_sjsonSet_append node ["request"; "contents"] out _ cs Hcs H1).
Qed.

(** What one message adds to the contents, and the names and the random
    source after it: the loop body without the envelope. *)
Definition turn (incl : bool) (n : nat) (toolResponses : gmap string string)
    (names : gmap string string) (r : rng) (m : json)
  : list json * gmap string string * rng :=
  let role := str (gjsonGet m [Key "role"]) in
  let content := gjsonGet m [Key "content"] in
  if (String.eqb role "system" && Nat.ltb 1 n)%bool then ([], names, r)
  else if (String.eqb role "user" || (String.eqb role "system" && Nat.eqb n 1))%bool then
    ([userNode incl names content], names, r)
  else if String.eqb role "tool" then ([], names, r)
  else if String.eqb role "assistant" then
    let '(node, p, r1) := assistantNode incl content r in
    match gjsonGet m [Key "tool_calls"] with
    | Some (JArr calls) =>
        let cs := fold_left (toolCall incl) calls (mkCallState node p names r1 []) in
        let (toolNode, pp) := functionNode incl (csNames cs) toolResponses (csFIDs cs) in
        (csNode cs :: (if Nat.ltb 0 pp then [toolNode] else []), csNames cs, csRng cs)
    | _ => ([node], names, r1)
    end
  else ([], names, r).

Fixpoint turns (incl : bool) (n : nat) (toolResponses : gmap string string)
    (names : gmap string string) (r : rng) (arr : list json) : list json :=
  match arr with
  | [] => []
  | m :: arr' =>
      let '(nodes, names', r') := turn incl n toolResponses names r m in
      nodes ++ turns incl n toolResponses names' r' arr'
  end.

(** A message that is turned into the system instruction. *)
Definition systemTurn (n : nat) (m : json) : bool :=
  (String.eqb (str (gjsonGet m [Key "role"])) "system" && Nat.ltb 1 n)%bool.

(** The paths the loop over the messages does not set. *)
Definition besideMessages (p : path) : bool :=
  (partAtKey p contentsPath && partAtKey p systemInstructionKeys)%bool.

Lemma message_stage incl n toolResponses st m :
  wellFormed (lsOut st) = true ->
  let st' := message incl n toolResponses st m in
  let res := turn incl n toolResponses (lsNames st) (lsRng st) m in
  wellFormed (lsOut st') = true
  /\ lsNames st' = snd (fst res) /\ lsRng st' = snd res
  /\ (forall p, partAtKey p contentsPath = true ->
        (systemTurn n m = true -> partAtKey p systemInstructionKeys = true) ->
        gjsonGet (lsOut st') p = gjsonGet (lsOut st) p)
  /\ (forall cs, gjsonGet (lsOut st) contentsPath = Some (JArr cs) ->
        gjsonGet (lsOut st') contentsPath = Some (JArr (cs ++ fst (fst res)))).
Proof.
  intros Hwf. cbn zeta. unfold message, turn, systemTurn.
  destruct (String.eqb _ "system" && Nat.ltb 1 n)%bool.
  { destruct (systemInstruction_stage (gjsonGet m [Key "content"]) (lsOut st) Hwf) as (H1 & H2).
    cbn [lsOut lsNames lsRng fst snd]. repeat split; try assumption.
    - intros p _ Hp. apply H2, Hp. reflexivity.
    - intros cs Hcs. rewrite app_nil_r. rewrite H2 by reflexivity. exact Hcs. }
  destruct (String.eqb _ "user" || _)%bool.
  { destruct (append_stage (lsOut st)
                (userNode incl (lsNames st) (gjsonGet m [Key "content"])) Hwf) as (H1 & H2 & H3).
    cbn [lsOut lsNames lsRng fst snd]. repeat split; try assumption.
    intros p Hp _. apply H2, Hp. }
  destruct (String.eqb _ "tool").
  { cbn [fst snd]. repeat split; try assumption.
    intros cs Hcs. rewrite app_nil_r. exact Hcs. }
  destruct (String.eqb _ "assistant").
  2:{ cbn [fst snd]. repeat split; try assumption.
      intros cs Hcs. rewrite app_nil_r. exact Hcs. }
  unfold assistantMessage.
  destruct (assistantNode incl (gjsonGet m [Key "content"]) (lsRng st)) as [[node p] r1].
  destruct (gjsonGet m [Key "tool_calls"]) as [[ | | | | calls | | ]|];
    try (destruct (append_stage (lsOut st) node Hwf) as (H1 & H2 & H3);
         cbn [lsOut lsNames lsRng fst snd]; repeat split; try assumption;
         intros q Hq _; apply H2, Hq).
  set (cs := fold_left (toolCall incl) calls (mkCallState node p (lsNames st) r1 [])).
  destruct (append_stage (lsOut st) (csNode cs) Hwf) as (H1 & H2 & H3).
  destruct (functionNode incl (csNames cs) toolResponses (csFIDs cs)) as [toolNode pp].
  cbn [lsOut lsNames lsRng fst snd].
  destruct (Nat.ltb 0 pp).
  - destruct (append_stage _ toolNode H1) as (H4 & H5 & H6).
    repeat split; try assumption.
    + intros q Hq _. rewrite (H5 q Hq). apply H2, Hq.
    + intros cs0 Hcs. rewrite (H6 _ (H3 _ Hcs)). rewrite <- app_assoc. reflexivity.
  - repeat split; try assumption.
    intros q Hq _. apply H2, Hq.
Qed.

Lemma messages_stage incl n toolResponses arr : forall st,
  wellFormed (lsOut st) = true ->
  let st' := fold_left (message incl n toolResponses) arr st in
  wellFormed (lsOut st') = true
  /\ (forall p, partAtKey p contentsPath = true ->
        (existsb (systemTurn n) arr = true -> partAtKey p systemInstructionKeys = true) ->
        gjsonGet (lsOut st') p = gjsonGet (lsOut st) p)
  /\ (forall cs, gjsonGet (lsOut st) contentsPath = Some (JArr cs) ->
        gjsonGet (lsOut st') contentsPath
        = Some (JArr (cs ++ turns incl n toolResponses (lsNames st) (lsRng st) arr))).
Proof.
  induction arr as [|m arr IH]; intros st Hwf; cbn zeta.
  - cbn [fold_left turns]. repeat split; try assumption.
    intros cs Hcs. rewrite app_nil_r. exact Hcs.
  - cbn [fold_left turns existsb].
    destruct (message_stage incl n toolResponses st m Hwf) as (H1 & H2 & H3 & H4 & H5).
    destruct (IH _ H1) as (I1 & I2 & I3).
    destruct (turn incl n toolResponses (lsNames st) (lsRng st) m) as [[nodes names'] r'].
    cbn [fst snd] in *. split; [exact I1|]. split.
    + intros p Hp Hsys. rewrite I2; [apply H4| |].
      * exact Hp.
      * intros Hm. apply Hsys. rewrite Hm. reflexivity.
      * exact Hp.
      * intros Hm. apply Hsys. rewrite Hm. apply orb_true_r.
    + intros cs Hcs. rewrite (I3 _ (H5 _ Hcs)), H2, H3, <- app_assoc. reflexivity.
Qed.

(** The contents the messages of a request give. *)
Definition messageNodes (incl : bool) (rawJSON : json) (r : rng) : list json :=
  match gjsonGet rawJSON [Key "messages"] with
  | Some (JArr arr) =>
      turns incl (length arr) (collectToolResponses arr) (collectNames arr) r arr
  | _ => []
  end.

Lemma applyMessages_stage incl rawJSON out r :
  wellFormed out = true ->
  wellFormed (fst (applyMessages incl rawJSON out r)) = true
  /\ (forall p, besideMessages p = true ->
        gjsonGet (fst (applyMessages incl rawJSON out r)) p = gjsonGet out p)
  /\ (forall cs, gjsonGet out contentsPath = Some (JArr cs) ->
        gjsonGet (fst (applyMessages incl rawJSON out r)) contentsPath
        = Some (JArr (cs ++ messageNodes incl rawJSON r))).
Proof.
  intros Hwf. unfold applyMessages, messageNodes.
  destruct (gjsonGet rawJSON [Key "messages"]) as [[ | | | | arr | | ]|];
    try (cbn [fst]; repeat split; try assumption;
         intros cs Hcs; rewrite app_nil_r; exact Hcs).
  cbn [fst].
  destruct (messages_stage incl (length arr) (collectToolResponses arr) arr
              (mkLoop out (collectNames arr) r) Hwf) as (H1 & H2 & H3).
  split; [exact H1|]. split; [|exact H3].
  intros p Hp. unfold besideMessages in Hp. apply andb_prop in Hp as [Hc Hs].
  apply H2; [exact Hc | intros _; exact Hs].
Qed.


(** *** Tools (lines 464-603) *)

Definition toolsPath : path := keys ["request"; "tools"].

Lemma applyTools_stage rawJSON out :
  wellFormed out = true ->
  wellFormed (applyTools rawJSON out) = true
  /\ (forall p, partAtKey p toolsPath = true ->
        gjsonGet (applyTools rawJSON out) p = gjsonGet out p)
  /\ gjsonGet (applyTools rawJSON out) toolsPath
     = match gjsonGet rawJSON [Key "tools"] with
       | Some (JArr (t :: ts)) =>
           if tsHasTool (toolsNode (t :: ts))
           then Some (JArr [JRaw (cleanToolSchema (render (tsNode (toolsNode (t :: ts)))))])
           else gjsonGet out toolsPath
       | _ => gjsonGet out toolsPath
       end.
Proof.
  intros Hwf. unfold applyTools.
  destruct (gjsonGet rawJSON [Key "tools"]) as [[ | | | | [|t ts] | | ]|]; auto.
  destruct (tsHasTool (toolsNode (t :: ts))); auto.
  set (v := JRaw (cleanToolSchema (render (tsNode (toolsNode (t :: ts)))))).
  destruct (set_keys out ["request"; "tools"] (JArr []) Hwf) as (W1 & F1 & V1);
    [in_paths | reflexivity|].
  change (keys ["request"; "tools"]) with toolsPath in *.
  change [Key "request"; Key "tools"] with toolsPath.
  change [Key "request"; Key "tools"; Idx 0] with (toolsPath ++ [Idx 0]).
  set (o1 := set out toolsPath (JArr [])) in *.
  destruct (set_step o1 (toolsPath ++ [Idx 0]) v W1) as (E2 & W2 & F2);
    [reflexivity | reflexivity | |].
  { apply (sjsonSet_ok [Idx 0] v ["request"; "tools"]).
    - apply (wellFormed_settable _ _ W1). in_paths.
    - intros x Hx. fold toolsPath in Hx. rewrite V1 in Hx. injection Hx as <-.
      eexists; reflexivity. }
  split; [exact W2|]. split.
  - intros p Hp. rewrite F2 by (apply (partAtKey_app p toolsPath [Idx 0] Hp)).
    apply F1, Hp.
  - destruct (get_sjsonSet_under [Idx 0] v ["request"; "tools"] o1 _ E2) as (x' & Hx' & Hrel).
    fold toolsPath in Hx', Hrel. rewrite V1 in Hrel. rewrite Hx'.
    cbn in Hrel. congruence.
Qed.

(** *** tool_choice (lines 605-629) *)

Definition toolConfigPath : path := keys ["request"; "toolConfig"].

Definition callingConfig : list string := ["functionCallingConfig"].

Lemma toolChoice_set out k v :
  wellFormed out = true ->
  In ["request"; "toolConfig"; "functionCallingConfig"; k] pathsUsed ->
  wellFormed (set out (functionCallingConfigPath k) v) = true
  /\ (forall p, partAtKey p toolConfigPath = true ->
        gjsonGet (set out (functionCallingConfigPath k) v) p = gjsonGet out p)
  /\ exists x',
       gjsonGet (set out (functionCallingConfigPath k) v) toolConfigPath = Some x'
       /\ match gjsonGet out toolConfigPath with
          | Some x => sjsonSet x [Key "functionCallingConfig"; Key k] v = Some x'
          | None => x' = build [Key "functionCallingConfig"; Key k] v
          end.
Proof.
  intros Hwf Hin.
  destruct (set_keys out ["request"; "toolConfig"; "functionCallingConfig"; k] v Hwf Hin)
    as (W & F & _); [reflexivity|].
  split; [exact W|]. split.
  - intros p Hp. apply F.
    apply (partAtKey_app p toolConfigPath [Key "functionCallingConfig"; Key k] Hp).
  - apply (get_sjsonSet_under [Key "functionCallingConfig"; Key k] v ["request"; "toolConfig"]).
    apply (set_keys_eq out ["request"; "toolConfig"; "functionCallingConfig"; k] v Hwf Hin).
Qed.

(** The [toolConfig] a request asks for: what [applyToolChoice] builds in a
    document that has none. *)
Definition toolConfigOf (rawJSON : json) : option json :=
  gjsonGet (applyToolChoice rawJSON (JObj [])) toolConfigPath.

Lemma applyToolChoice_stage rawJSON out :
  wellFormed out = true ->
  wellFormed (applyToolChoice rawJSON out) = true
  /\ (forall p, partAtKey p toolConfigPath = true ->
        gjsonGet (applyToolChoice rawJSON out) p = gjsonGet out p)
  /\ (gjsonGet out toolConfigPath = None ->
      gjsonGet (applyToolChoice rawJSON out) toolConfigPath = toolConfigOf rawJSON).
Proof.
  intros Hwf. unfold toolConfigOf, applyToolChoice.
  destruct (gjsonGet rawJSON [Key "tool_choice"]) as [tc|]; [|auto].
  assert (Hmode : forall mode o,
            wellFormed o = true ->
            let o' := if negb (String.eqb mode EmptyString)
                      then set o (functionCallingConfigPath "mode") (JStr mode) else o in
            wellFormed o' = true
            /\ (forall p, partAtKey p toolConfigPath = true -> gjsonGet o' p = gjsonGet o p)
            /\ (gjsonGet o toolConfigPath = None ->
                gjsonGet o' toolConfigPath
                = gjsonGet (if negb (String.eqb mode EmptyString)
                            then set (JObj []) (functionCallingConfigPath "mode") (JStr mode)
                            else JObj []) toolConfigPath)).
  { intros mode o Ho. cbn zeta. destruct (negb _); [|auto].
    destruct (toolChoice_set o "mode" (JStr mode) Ho) as (W & F & x' & Hx' & Hrel); [in_paths|].
    split; [exact W|]. split; [exact F|].
    intros Hnone. rewrite Hnone in Hrel. subst x'. rewrite Hx'. reflexivity. }
  destruct tc as [ | | | s | | ms | ]; try (apply Hmode, Hwf).
  destruct (String.eqb _ "function"); [|apply Hmode, Hwf].
  destruct (negb _); [|apply Hmode, Hwf].
  set (name := str (gjsonGet (JObj ms) [Key "function"; Key "name"])).
  destruct (toolChoice_set out "allowedFunctionNames" (JArr [JStr name]) Hwf)
    as (W1 & F1 & x1 & Hx1 & Hrel1); [in_paths|].
  destruct (toolChoice_set _ "mode" (JStr "ANY") W1) as (W2 & F2 & x2 & Hx2 & Hrel2);
    [in_paths|].
  cbn [negb String.eqb Ascii.eqb Bool.eqb]. split; [exact W2|]. split.
  - intros p Hp. rewrite (F2 p Hp). apply F1, Hp.
  - intros Hnone. rewrite Hnone in Hrel1. subst x1. rewrite Hx1 in Hrel2.
    rewrite Hx2. cbn in Hrel2. injection Hrel2 as <-. reflexivity.
Qed.

(** *** The safety settings (line 634) *)

Definition safetyPath : path := keys ["request"; "safetySettings"].

Lemma AttachDefaultSafetySettings_stage out :
  wellFormed out = true ->
  wellFormed (AttachDefaultSafetySettings out safetyPath) = true
  /\ (forall p, partAtKey p safetyPath = true ->
        gjsonGet (AttachDefaultSafetySettings out safetyPath) p = gjsonGet out p).
Proof.
  intros Hwf. unfold AttachDefaultSafetySettings.
  destruct (exists_ _); [auto|].
  destruct (set_keys out ["request"; "safetySettings"] defaultSafetySettings Hwf)
    as (W & F & _); [in_paths | reflexivity|].
  auto.
Qed.


(** *** The whole translation *)

Definition requestKey : path := keys ["request"].

(** The request after the thinking stage, which calls helpers from outside
    the file: the translator goes on from there. *)
Definition afterThinking (modelName : string) (rawJSON : json) : json :=
  applyThinking modelName rawJSON (baseEnvelope modelName).

Lemma convert_stages modelName rawJSON stream r :
  wellFormed (afterThinking modelName rawJSON) = true ->
  let out1 := afterThinking modelName rawJSON in
  let final := fst (ConvertOpenAIRequestToAntigravity modelName rawJSON stream r) in
  wellFormed final = true
  /\ (forall p, partAtKey p requestKey = true -> gjsonGet final p = gjsonGet out1 p)
  /\ (forall p, gjsonGet final (generationConfig ++ p)
                = gjsonGet (applyGenerationParams rawJSON out1) (generationConfig ++ p))
  /\ (forall cs, gjsonGet out1 contentsPath = Some (JArr cs) ->
        gjsonGet final contentsPath
        = Some (JArr (cs ++ messageNodes (includeToolIDs modelName) rawJSON r)))
  /\ (forall p, gjsonGet final (systemInstructionKeys ++ p)
                = gjsonGet (fst (applyMessages (includeToolIDs modelName) rawJSON
                                   (applyGenerationParams rawJSON out1) r))
                           (systemInstructionKeys ++ p))
  /\ gjsonGet final toolsPath
     = match gjsonGet rawJSON [Key "tools"] with
       | Some (JArr (t :: ts)) =>
           if tsHasTool (toolsNode (t :: ts))
           then Some (JArr [JRaw (cleanToolSchema (render (tsNode (toolsNode (t :: ts)))))])
           else gjsonGet out1 toolsPath
       | _ => gjsonGet out1 toolsPath
       end
  /\ (gjsonGet out1 toolConfigPath = None ->
      gjsonGet final toolConfigPath = toolConfigOf rawJSON).
Proof.
  intros Hwf. cbn zeta. unfold ConvertOpenAIRequestToAntigravity.
  fold (afterThinking modelName rawJSON).
  set (out1 := afterThinking modelName rawJSON) in *.
  destruct (applyGenerationParams_stage rawJSON out1 Hwf) as (W2 & F2 & _).
  set (o2 := applyGenerationParams rawJSON out1) in *.
  destruct (applyMessages_stage (includeToolIDs modelName) rawJSON o2 r W2) as (W3 & F3 & C3).
  destruct (applyMessages (includeToolIDs modelName) rawJSON o2 r) as [o3 r3].
  cbn [fst] in *.
  destruct (applyTools_stage rawJSON o3 W3) as (W4 & F4 & V4).
  set (o4 := applyTools rawJSON o3) in *.
  destruct (applyToolChoice_stage rawJSON o4 W4) as (W5 & F5 & V5).
  set (o5 := applyToolChoice rawJSON o4) in *.
  change [Key "request"; Key "safetySettings"] with safetyPath.
  destruct (AttachDefaultSafetySettings_stage o5 W5) as (W6 & F6).
  split; [exact W6|]. split; [|split; [|split; [|split; [|split]]]].
  - intros p Hp.
    rewrite F6 by (apply (partAtKey_app p requestKey [Key "safetySettings"] Hp)).
    rewrite F5 by (apply (partAtKey_app p requestKey [Key "toolConfig"] Hp)).
    rewrite F4 by (apply (partAtKey_app p requestKey [Key "tools"] Hp)).
    rewrite F3.
    + apply F2, (partAtKey_app p requestKey [Key "generationConfig"] Hp).
    + unfold besideMessages. apply andb_true_intro. split.
      * apply (partAtKey_app p requestKey [Key "contents"] Hp).
      * apply (partAtKey_app p requestKey [Key "systemInstruction"] Hp).
  - intros p. rewrite F6, F5, F4, F3 by reflexivity. reflexivity.
  - intros cs Hcs. rewrite F6, F5, F4 by reflexivity. apply C3.
    rewrite F2 by reflexivity. exact Hcs.
  - intros p. rewrite F6, F5, F4 by reflexivity. reflexivity.
  - rewrite F6, F5 by reflexivity. rewrite V4.
    rewrite F3, F2 by reflexivity. reflexivity.
  - intros Hnone. rewrite F6 by reflexivity. apply V5.
    rewrite F4, F3, F2 by reflexivity. exact Hnone.
Qed.

(** The thinking stage left the envelope as the translator made it, but for
    what it put under [request.generationConfig]: the model and the empty
    project are there, the contents are empty, and [request] has no system
    instruction, tools, tool configuration or safety settings yet. *)
Definition absent (out : json) (p : path) : bool := negb (exists_ (gjsonGet out p)).

Definition plain (modelName : string) (out : json) : bool :=
  wellFormed out
  && match gjsonGet out [Key "model"] with
     | Some (JStr s) => String.eqb s modelName
     | _ => false
     end
  && match gjsonGet out [Key "project"] with
     | Some (JStr s) => String.eqb s EmptyString
     | _ => false
     end
  && match gjsonGet out contentsPath with
     | Some (JArr []) => true
     | _ => false
     end
  && absent out systemInstructionKeys
  && absent out toolsPath
  && absent out toolConfigPath
  && absent out safetyPath.

Lemma absent_None out p : absent out p = true -> gjsonGet out p = None.
Proof. unfold absent. destruct (gjsonGet out p); [discriminate | reflexivity]. Qed.

Lemma plain_spec modelName out :
  plain modelName out = true ->
  wellFormed out = true
  /\ gjsonGet out [Key "model"] = Some (JStr modelName)
  /\ gjsonGet out [Key "project"] = Some (JStr EmptyString)
  /\ gjsonGet out contentsPath = Some (JArr [])
  /\ gjsonGet out systemInstructionKeys = None
  /\ gjsonGet out toolsPath = None
  /\ gjsonGet out toolConfigPath = None
  /\ gjsonGet out safetyPath = None.
Proof.
  unfold plain. intros H.
  apply andb_prop in H as [H H7]. apply andb_prop in H as [H H6].
  apply andb_prop in H as [H H5]. apply andb_prop in H as [H H4].
  apply andb_prop in H as [H H3]. apply andb_prop in H as [H H2].
  apply andb_prop in H as [H H1].
  split; [exact H|]. split; [|split; [|split; [|repeat split; apply absent_None; assumption]]].
  - destruct (gjsonGet out [Key "model"]) as [[ | | | s | | | ]|]; try discriminate.
    apply String.eqb_eq in H1. subst s. reflexivity.
  - destruct (gjsonGet out [Key "project"]) as [[ | | | s | | | ]|]; try discriminate.
    apply String.eqb_eq in H2. subst s. reflexivity.
  - destruct (gjsonGet out contentsPath) as [[ | | | | [|c cs] | | ]|]; try discriminate.
    reflexivity.
Qed.


(** ** What the translation gives *)

(** The model of the upstream request is the [modelName] the translator is
    called with, and the project stays empty: nothing in the body of the
    request reaches them, a [model] member of the body is not read. *)
Theorem model_and_project_of_the_call :
  forall (modelName : string) (rawJSON : json) (stream : bool) (r : rng),
    plain modelName (afterThinking modelName rawJSON) = true ->
    gjsonGet (fst (ConvertOpenAIRequestToAntigravity modelName rawJSON stream r)) [Key "model"]
    = Some (JStr modelName)
    /\ gjsonGet (fst (ConvertOpenAIRequestToAntigravity modelName rawJSON stream r))
                [Key "project"]
       = Some (JStr EmptyString).
Proof.
  intros modelName rawJSON stream r Hplain.
  destruct (plain_spec _ _ Hplain) as (Hwf & Hm & Hp & _).
  destruct (convert_stages modelName rawJSON stream r Hwf) as (_ & Htop & _).
  rewrite !Htop by reflexivity. auto.
Qed.

(** [temperature], [top_p], [top_k] and [max_tokens] are copied to
    [request.generationConfig] as [temperature], [topP], [topK] and
    [maxOutputTokens] when they are JSON numbers, as the float64 of the
    number is formatted; a value of any other type (a string that holds a
    number, [null], ...) is not copied, and the place keeps what the thinking
    stage left there. *)
Theorem generation_numbers_are_copied :
  forall (modelName : string) (rawJSON : json) (stream : bool) (r : rng)
         (from to : string),
    wellFormed (afterThinking modelName rawJSON) = true ->
    In (from, to) numberParams ->
    gjsonGet (fst (ConvertOpenAIRequestToAntigravity modelName rawJSON stream r))
             (generationConfigPath to)
    = match gjsonGet rawJSON [Key from] with
      | Some (JNum n) => Some (JNum (formatFloat64 n))
      | _ => gjsonGet (afterThinking modelName rawJSON) (generationConfigPath to)
      end.
Proof.
  intros modelName rawJSON stream r from to Hwf Hin.
  destruct (convert_stages modelName rawJSON stream r Hwf) as (_ & _ & Hgen & _).
  destruct (applyGenerationParams_stage rawJSON _ Hwf) as (_ & _ & Hnum & _).
  rewrite <- (Hnum from to Hin). apply (Hgen [Key to]).
Qed.












(** *** Tools that are not taken *)





(** *** System messages *)

Lemma collectNames_not_assistant m :
  String.eqb (str (gjsonGet m [Key "role"])) "assistant" = false ->
  collectNames [m] = ∅.
Proof. intros H. unfold collectNames, collectNamesOfMessage. cbn [fold_left]. rewrite H. reflexivity. Qed.

(** A system message that is the only message of the request is not a system
    instruction: it is translated as a user message, and the upstream request
    has no [systemInstruction]. *)
Theorem lone_system_message_is_a_user_message :
  forall (modelName : string) (rawJSON : json) (stream : bool) (r : rng) (m : json),
    plain modelName (afterThinking modelName rawJSON) = true ->
    gjsonGet rawJSON [Key "messages"] = Some (JArr [m]) ->
    str (gjsonGet m [Key "role"]) = "system" ->
    gjsonGet (fst (ConvertOpenAIRequestToAntigravity modelName rawJSON stream r)) contentsPath
    = Some (JArr [mkNode "user" (userParts (includeToolIDs modelName) ∅
                                   (gjsonGet m [Key "content"]))])
    /\ gjsonGet (fst (ConvertOpenAIRequestToAntigravity modelName rawJSON stream r))
                systemInstructionKeys = None.
Proof.
  intros modelName rawJSON stream r m Hplain Hmsgs Hrole.
  destruct (plain_spec _ _ Hplain) as (Hwf & _ & _ & Hc & Hs & _).
  destruct (convert_stages modelName rawJSON stream r Hwf) as (_ & _ & _ & Hcs & Hsys & _).
  split.
  - rewrite (Hcs [] Hc). unfold messageNodes. rewrite Hmsgs.
    cbn [app length turns]. unfold turn. rewrite Hrole.
    cbn [String.eqb Ascii.eqb Bool.eqb andb orb Nat.ltb Nat.leb Nat.eqb fst snd app].
    rewrite collectNames_not_assistant by (rewrite Hrole; reflexivity).
    rewrite userNode_parts. reflexivity.
  - specialize (Hsys []). rewrite app_nil_r in Hsys. rewrite Hsys.
    destruct (applyGenerationParams_stage rawJSON _ Hwf) as (W2 & F2 & _).
    unfold applyMessages. rewrite Hmsgs. cbn [fst fold_left lsOut length].
    destruct (message_stage (includeToolIDs modelName) 1 (collectToolResponses [m])
                (mkLoop (applyGenerationParams rawJSON (afterThinking modelName rawJSON))
                        (collectNames [m]) r) m W2) as (_ & _ & _ & F & _).
    cbn [lsOut] in F. rewrite F.
    + rewrite F2 by reflexivity. exact Hs.
    + reflexivity.
    + unfold systemTurn. rewrite Hrole. discriminate.
Qed.

Lemma message_system incl n toolResponses st m s :
  wellFormed (lsOut st) = true ->
  systemTurn n m = true ->
  gjsonGet m [Key "content"] = Some (JStr s) ->
  wellFormed (lsOut (message incl n toolResponses st m)) = true
  /\ gjsonGet (lsOut (message incl n toolResponses st m)) (systemInstructionPath [Key "role"])
     = Some (JStr "user")
  /\ gjsonGet (lsOut (message incl n toolResponses st m)) (partText 0) = Some (JStr s).
Proof.
  intros Hwf Hsys Hcontent. unfold message. unfold systemTurn in Hsys. rewrite Hsys, Hcontent.
  cbn [lsOut systemInstruction].
  destruct (systemRole_stage (lsOut st) Hwf) as (R1 & _ & R3).
  destruct (systemText_stage _ 0 s R1) as (T1 & T2 & T3).
  split; [exact T1|]. split; [|exact T3].
  rewrite T2 by reflexivity. exact R3.
Qed.

(** Of several system messages the last one counts: when the last system
    message of a request with more than one message has a string as its
    content, the system instruction has the role [user] and that string as
    the text of its first part, whatever the system messages before it
    held.  The messages after it leave the system instruction alone. *)
Theorem last_system_message_wins :
  forall (modelName : string) (rawJSON : json) (stream : bool) (r : rng)
         (pre post : list json) (m : json) (s : string),
    plain modelName (afterThinking modelName rawJSON) = true ->
    gjsonGet rawJSON [Key "messages"] = Some (JArr (pre ++ m :: post)) ->
    systemTurn (length (pre ++ m :: post)) m = true ->
    gjsonGet m [Key "content"] = Some (JStr s) ->
    existsb (systemTurn (length (pre ++ m :: post))) post = false ->
    gjsonGet (fst (ConvertOpenAIRequestToAntigravity modelName rawJSON stream r))
             (systemInstructionPath [Key "role"]) = Some (JStr "user")
    /\ gjsonGet (fst (ConvertOpenAIRequestToAntigravity modelName rawJSON stream r))
                (partText 0) = Some (JStr s).
Proof.
  intros modelName rawJSON stream r pre post m s Hplain Hmsgs Hsys Hcontent Hpost.
  destruct (plain_spec _ _ Hplain) as (Hwf & _).
  destruct (convert_stages modelName rawJSON stream r Hwf) as (_ & _ & _ & _ & Hs & _).
  pose proof (Hs [Key "role"]) as Hrole. pose proof (Hs [Key "parts"; Idx 0; Key "text"]) as Htext.
  change (systemInstructionKeys ++ [Key "role"]) with (systemInstructionPath [Key "role"]) in Hrole.
  change (systemInstructionKeys ++ [Key "parts"; Idx 0; Key "text"]) with (partText 0) in Htext.
  rewrite Hrole, Htext. clear Hs Hrole Htext.
  destruct (applyGenerationParams_stage rawJSON _ Hwf) as (W2 & _).
  unfold applyMessages. rewrite Hmsgs. cbn [fst].
  set (n := length (pre ++ m :: post)) in *.
  set (tr := collectToolResponses (pre ++ m :: post)).
  rewrite fold_left_app. cbn [fold_left].
  destruct (messages_stage (includeToolIDs modelName) n tr pre
              (mkLoop (applyGenerationParams rawJSON (afterThinking modelName rawJSON))
                      (collectNames (pre ++ m :: post)) r) W2) as (W3 & _).
  cbn zeta in W3.
  destruct (message_system (includeToolIDs modelName) n tr _ m s W3 Hsys Hcontent)
    as (W4 & R4 & T4).
  destruct (messages_stage (includeToolIDs modelName) n tr post _ W4) as (_ & F5 & _).
  cbn zeta in F5.
  rewrite !F5; try reflexivity; try (rewrite Hpost; discriminate).
  auto.
Qed.


(** *** When the envelope is plain after the thinking stage *)

Lemma plain_intro modelName out :
  wellFormed out = true ->
  gjsonGet out [Key "model"] = Some (JStr modelName) ->
  gjsonGet out [Key "project"] = Some (JStr EmptyString) ->
  gjsonGet out contentsPath = Some (JArr []) ->
  gjsonGet out systemInstructionKeys = None ->
  gjsonGet out toolsPath = None ->
  gjsonGet out toolConfigPath = None ->
  gjsonGet out safetyPath = None ->
  plain modelName out = true.
Proof.
  intros H1 H2 H3 H4 H5 H6 H7 H8. unfold plain, absent.
  rewrite H1, H2, H3, H4, H5, H6, H7, H8, String.eqb_refl. reflexivity.
Qed.

Lemma plain_baseEnvelope modelName : plain modelName (baseEnvelope modelName) = true.
Proof. apply plain_intro; reflexivity. Qed.

(** A set below [request.generationConfig.thinkingConfig] keeps the envelope
    plain. *)
Lemma plain_set_thinking modelName out k v :
  plain modelName out = true ->
  In ["request"; "generationConfig"; "thinkingConfig"; k] pathsUsed ->
  plain modelName (set out (thinkingConfigPath ++ [Key k]) v) = true.
Proof.
  intros Hplain Hin.
  destruct (plain_spec _ _ Hplain) as (Hwf & H2 & H3 & H4 & H5 & H6 & H7 & H8).
  destruct (set_keys out ["request"; "generationConfig"; "thinkingConfig"; k] v Hwf Hin)
    as (W & F & _); [reflexivity|].
  change (keys ["request"; "generationConfig"; "thinkingConfig"; k])
    with (thinkingConfigPath ++ [Key k]) in *.
  apply plain_intro; try exact W; rewrite F by reflexivity; assumption.
Qed.

Lemma applyThinkingConfigExtension_plain modelName rawJSON out :
  plain modelName out = true ->
  plain modelName (applyThinkingConfigExtension modelName rawJSON out) = true.
Proof.
  intros Hplain. unfold applyThinkingConfigExtension.
  destruct (_ && _ && _)%bool; [|exact Hplain].
  destruct (gjsonGet rawJSON [Key "extra_body"; Key "google"; Key "thinking_config"])
    as [[ | | | | | ms | ]|]; try exact Hplain.
  assert (Hb : forall v, plain modelName (set out thinkingBudgetPath v) = true).
  { intros v. apply (plain_set_thinking modelName out "thinkingBudget" v Hplain). in_paths. }
  assert (Hi : forall o v, plain modelName o = true ->
                 plain modelName (set o includeThoughtsPath v) = true).
  { intros o v Ho. apply (plain_set_thinking modelName o "include_thoughts" v Ho). in_paths. }
  destruct (gjsonGet (JObj ms) [Key "thinkingBudget"]) as [v|].
  { destruct (gjsonGet (JObj ms) [Key "includeThoughts"]); [apply Hi, Hb|].
    destruct (gjsonGet (JObj ms) [Key "include_thoughts"]); [apply Hi, Hb|].
    destruct (_ && _)%bool; [apply Hi, Hb | apply Hb]. }
  destruct (gjsonGet (JObj ms) [Key "thinking_budget"]) as [v|].
  { destruct (gjsonGet (JObj ms) [Key "includeThoughts"]); [apply Hi, Hb|].
    destruct (gjsonGet (JObj ms) [Key "include_thoughts"]); [apply Hi, Hb|].
    destruct (_ && _)%bool; [apply Hi, Hb | apply Hb]. }
  destruct (gjsonGet (JObj ms) [Key "includeThoughts"]); [apply Hi, Hplain|].
  destruct (gjsonGet (JObj ms) [Key "include_thoughts"]); [apply Hi, Hplain|].
  exact Hplain.
Qed.

Lemma applyAnthropicThinking_plain modelName rawJSON out :
  plain modelName out = true ->
  plain modelName (applyAnthropicThinking modelName rawJSON out) = true.
Proof.
  intros Hplain. unfold applyAnthropicThinking.
  destruct (_ && _)%bool; [|exact Hplain].
  destruct (gjsonGet rawJSON [Key "thinking"]) as [[ | | | | | ms | ]|]; try exact Hplain.
  destruct (String.eqb _ "enabled"); [|exact Hplain].
  destruct (gjsonGet (JObj ms) [Key "budget_tokens"]) as [[ | | n | | | | ]|]; try exact Hplain.
  apply (plain_set_thinking modelName _ "include_thoughts"); [|in_paths].
  apply (plain_set_thinking modelName out "thinkingBudget"); [exact Hplain | in_paths].
Qed.

(** Without [reasoning_effort], and for a model that does not think, none of
    the helpers from outside is called, and the envelope is plain after the
    thinking stage. *)
Lemma plain_without_helpers modelName rawJSON :
  (hasOfficialThinking rawJSON && ModelSupportsThinking modelName)%bool = false ->
  plain modelName (afterThinking modelName rawJSON) = true.
Proof.
  intros H. unfold afterThinking, applyThinking.
  apply applyAnthropicThinking_plain, applyThinkingConfigExtension_plain.
  unfold applyReasoningEffort. rewrite H. apply plain_baseEnvelope.
Qed.

End Envelope.

Section EmptyContents.
Context `{Ext : Externals}.

Lemma turns_app incl n toolResponses xs ys : forall names r,
  exists names' r',
    turns incl n toolResponses names r (xs ++ ys)
    = turns incl n toolResponses names r xs ++ turns incl n toolResponses names' r' ys.
Proof.
  induction xs as [|x xs IH]; intros names r; cbn [app turns].
  - exists names, r. reflexivity.
  - destruct (turn incl n toolResponses names r x) as [[nodes names1] r1].
    destruct (IH names1 r1) as (names' & r' & E). exists names', r'.
    rewrite E, app_assoc. reflexivity.
Qed.

Lemma turn_length incl n toolResponses names r m :
  length (fst (fst (turn incl n toolResponses names r m))) <= 2.
Proof.
  unfold turn.
  destruct (_ && _)%bool; [cbn; lia|].
  destruct (_ || _)%bool; [cbn; lia|].
  destruct (String.eqb _ "tool"); [cbn; lia|].
  destruct (String.eqb _ "assistant"); [|cbn; lia].
  destruct (assistantNode incl (gjsonGet m [Key "content"]) r) as [[node p] r1].
  destruct (gjsonGet m [Key "tool_calls"]) as [[ | | | | calls | | ]|]; try (cbn; lia).
  destruct (functionNode _ _ _ _) as [toolNode pp].
  cbn [fst]. destruct (Nat.ltb 0 pp); cbn; lia.
Qed.

Lemma turns_length incl n toolResponses arr : forall names r,
  length (turns incl n toolResponses names r arr) <= 2 * length arr.
Proof.
  induction arr as [|m arr IH]; intros names r; cbn [turns length]; [lia|].
  pose proof (turn_length incl n toolResponses names r m) as H.
  destruct (turn incl n toolResponses names r m) as [[nodes names'] r'].
  cbn [fst] in H. rewrite length_app. specialize (IH names' r'). lia.
Qed.

(** A content that gives no part: neither a string nor an array. *)
Definition noParts (content : option json) : bool :=
  match content with
  | Some (JStr _) | Some (JArr _) => false
  | _ => true
  end.

(** A user message, or an assistant message without an array of tool calls,
    whose content gives no part. *)
Definition withoutContent (m : json) : bool :=
  (noParts (gjsonGet m [Key "content"])
   && (String.eqb (str (gjsonGet m [Key "role"])) "user"
       || (String.eqb (str (gjsonGet m [Key "role"])) "assistant"
           && negb (isArray (gjsonGet m [Key "tool_calls"])))))%bool.

Definition upstreamRole (m : json) : string :=
  if String.eqb (str (gjsonGet m [Key "role"])) "user" then "user" else "model".

Lemma turn_without_content incl n toolResponses names r m :
  withoutContent m = true ->
  fst (fst (turn incl n toolResponses names r m)) = [mkNode (upstreamRole m) []].
Proof.
  unfold withoutContent, upstreamRole, turn. intros H.
  apply andb_prop in H as [Hc Hr].
  destruct (String.eqb_spec (str (gjsonGet m [Key "role"])) "user") as [E|_].
  - rewrite E. cbn [String.eqb Ascii.eqb Bool.eqb andb orb fst].
    rewrite userNode_parts. unfold userParts.
    destruct (gjsonGet m [Key "content"]) as [[ | | | | | | ]|]; try discriminate; reflexivity.
  - cbn [orb] in Hr. apply andb_prop in Hr as [Ha Ht].
    apply String.eqb_eq in Ha. rewrite Ha.
    cbn [String.eqb Ascii.eqb Bool.eqb andb orb].
    rewrite assistantNode_parts. unfold assistantParts.
    destruct (gjsonGet m [Key "tool_calls"]) as [[ | | | | calls | | ]|]; try discriminate;
      destruct (gjsonGet m [Key "content"]) as [[ | | | | | | ]|]; try discriminate;
      reflexivity.
Qed.

(** A message without usable content is not passed over.  A user message,
    or an assistant message without tool calls, whose content is neither a
    string nor an array (it is missing, [null], an object, a number) still
    gives a content of the upstream request, with its role and an empty
    array of parts, at its place among the contents. *)
Theorem message_without_content_gives_empty_parts :
  forall (modelName : string) (rawJSON : json) (stream : bool) (r : rng)
         (pre post : list json) (m : json),
    plain modelName (afterThinking modelName rawJSON) = true ->
    gjsonGet rawJSON [Key "messages"] = Some (JArr (pre ++ m :: post)) ->
    withoutContent m = true ->
    exists before after,
      gjsonGet (fst (ConvertOpenAIRequestToAntigravity modelName rawJSON stream r)) contentsPath
      = Some (JArr (before ++ mkNode (upstreamRole m) [] :: after))
      /\ length before <= 2 * length pre.
Proof.
  intros modelName rawJSON stream r pre post m Hplain Hmsgs Hm.
  destruct (plain_spec _ _ Hplain) as (Hwf & _ & _ & Hc & _).
  destruct (convert_stages modelName rawJSON stream r Hwf) as (_ & _ & _ & Hcs & _).
  rewrite (Hcs [] Hc). unfold messageNodes. rewrite Hmsgs. cbn [app].
  set (n := length (pre ++ m :: post)).
  set (tr := collectToolResponses (pre ++ m :: post)).
  destruct (turns_app (includeToolIDs modelName) n tr pre (m :: post)
              (collectNames (pre ++ m :: post)) r) as (names' & r' & E).
  rewrite E. cbn [turns].
  pose proof (turn_without_content (includeToolIDs modelName) n tr names' r' m Hm) as Ht.
  destruct (turn (includeToolIDs modelName) n tr names' r' m) as [[nodes names2] r2].
  cbn [fst] in Ht. subst nodes. cbn [app].
  eexists _, _. split; [reflexivity|]. apply turns_length.
Qed.

End EmptyContents.

Section Declarations.
Context `{Ext : Externals}.

(** The functions declared so far. *)
Definition declared (st : toolsState) : list json :=
  if tsHasFunction st then
    match gjsonGet (tsNode st) [Key "functionDeclarations"] with
    | Some (JArr ds) => ds
    | _ => []
    end
  else [].

Definition isObj (j : json) : bool :=
  match j with JObj _ => true | _ => false end.

(** The tool node is an object, and once a function is declared its
    declarations are an array. *)
Definition nodeOk (st : toolsState) : Prop :=
  isObj (tsNode st) = true
  /\ (tsHasFunction st = true ->
      exists ds, gjsonGet (tsNode st) [Key "functionDeclarations"] = Some (JArr ds)).

Lemma sjsonSet_object ms s p v j' :
  sjsonSet (JObj ms) (s :: p) v = Some j' -> isObj j' = true.
Proof.
  cbn [sjsonSet]. destruct (updFirst _ _ ms) as [[r|]|]; try discriminate;
    intros [= <-]; reflexivity.
Qed.

Lemma set_key_object j k v :
  isObj j = true ->
  exists j', sjsonSet j [Key k] v = Some j' /\ isObj j' = true
             /\ gjsonGet j' [Key k] = Some v.
Proof.
  destruct j as [ | | | | | ms | ]; try discriminate. intros _.
  destruct (sjsonSet_keys_ok [k] v (JObj ms)) as [j' Hj'].
  { cbn [settable]. destruct (lookupKey k ms); reflexivity. }
  exists j'. split; [exact Hj'|]. split; [apply (sjsonSet_object _ _ _ _ _ Hj')|].
  apply (get_sjsonSet [Key k] v (JObj ms) j'); [reflexivity | exact Hj'].
Qed.

Lemma append_declaration_ok j ds v :
  isObj j = true ->
  gjsonGet j [Key "functionDeclarations"] = Some (JArr ds) ->
  exists j', sjsonSet j [Key "functionDeclarations"; Append] v = Some j' /\ isObj j' = true
             /\ gjsonGet j' [Key "functionDeclarations"] = Some (JArr (ds ++ [v])).
Proof.
  destruct j as [ | | | | | ms | ]; try discriminate. intros _ Hds.
  destruct (sjsonSet_append_ok ["functionDeclarations"] v (JObj ms)) as [j' Hj'].
  { cbn [settable]. cbn in Hds. destruct (lookupKey "functionDeclarations" ms) as [x|];
      [injection Hds as ->; reflexivity | reflexivity]. }
  exists j'. split; [exact Hj'|]. split; [apply (sjsonSet_object _ _ _ _ _ Hj')|].
  apply (get_sjsonSet_append v ["functionDeclarations"] (JObj ms) j' ds Hds Hj').
Qed.

(** Appending a declaration goes through: the function is declared after the
    ones declared before. *)
Lemma appendDeclaration_ok st fnRaw :
  nodeOk st ->
  snd (appendDeclaration st fnRaw) = false
  /\ nodeOk (fst (appendDeclaration st fnRaw))
  /\ tsHasTool (fst (appendDeclaration st fnRaw)) = true
  /\ declared (fst (appendDeclaration st fnRaw)) = declared st ++ [fnRaw].
Proof.
  intros [Ho Hd]. unfold appendDeclaration, declared.
  destruct (tsHasFunction st) eqn:Hf; cbn [negb].
  - destruct (Hd eq_refl) as [ds Hds].
    destruct (append_declaration_ok (tsNode st) ds fnRaw Ho Hds) as (j' & -> & Ho' & Hg').
    cbn [fst snd tsNode tsHasTool tsHasFunction]. rewrite Hg', Hds.
    repeat split; try assumption. intros _. eauto.
  - destruct (set_key_object (tsNode st) "functionDeclarations" (JArr []) Ho) as (j1 & E1 & Ho1 & Hg1).
    unfold set. rewrite E1. cbn [orEmpty].
    destruct (append_declaration_ok j1 [] fnRaw Ho1 Hg1) as (j' & -> & Ho' & Hg').
    cbn [fst snd tsNode tsHasTool tsHasFunction]. rewrite Hg'.
    repeat split; try assumption. intros _. eauto.
Qed.


Lemma googleSearch_ok st gs :
  nodeOk st ->
  let st' := match sjsonSet (tsNode st) [Key "googleSearch"] gs with
             | Some toolNode => mkTools toolNode true (tsHasFunction st)
             | None => mkTools (JRaw EmptyString) (tsHasTool st) (tsHasFunction st)
             end in
  nodeOk st' /\ declared st' = declared st /\ tsHasTool st' = true.
Proof.
  intros [Ho Hd]. cbn zeta.
  destruct (set_key_object (tsNode st) "googleSearch" gs Ho) as (j' & E & Ho' & _).
  rewrite E.
  assert (Hg : gjsonGet j' [Key "functionDeclarations"]
               = gjsonGet (tsNode st) [Key "functionDeclarations"]).
  { apply (get_sjsonSet_parted [Key "googleSearch"] gs _ (tsNode st) j'); [reflexivity | exact E]. }
  unfold nodeOk, declared. cbn [tsNode tsHasTool tsHasFunction]. rewrite Hg.
  repeat split; assumption.
Qed.

(** What the loop does with a tool once the tool is declared or passed
    over. *)
Definition afterDeclaration (t : json) (res : toolsState * bool) : toolsState :=
  if snd res then fst res
  else
    match gjsonGet t [Key "google_search"] with
    | Some gs =>
        match sjsonSet (tsNode (fst res)) [Key "googleSearch"] gs with
        | Some toolNode => mkTools toolNode true (tsHasFunction (fst res))
        | None => mkTools (JRaw EmptyString) (tsHasTool (fst res)) (tsHasFunction (fst res))
        end
    | None => fst res
    end.

Lemma tool_afterDeclaration st t :
  tool st t
  = afterDeclaration t
      (if String.eqb (str (gjsonGet t [Key "type"])) "function" then functionTool st t
       else if exists_ (gjsonGet t [Key "name"]) then directTool st t
       else (st, false)).
Proof.
  unfold tool, afterDeclaration.
  destruct (if String.eqb _ "function" then _ else _) as [st1 c]. reflexivity.
Qed.

Lemma afterDeclaration_ok t res :
  nodeOk (fst res) ->
  nodeOk (afterDeclaration t res)
  /\ declared (afterDeclaration t res) = declared (fst res)
  /\ (tsHasTool (fst res) = true -> tsHasTool (afterDeclaration t res) = true).
Proof.
  intros Hok. unfold afterDeclaration.
  destruct (snd res); [auto|].
  destruct (gjsonGet t [Key "google_search"]) as [gs|]; [|auto].
  destruct (googleSearch_ok (fst res) gs Hok) as (H1 & H2 & H3). cbn zeta in *. auto.
Qed.

(** One of the two: the tool is declared, or the state is what it was. *)
Lemma declaration_cases st t :
  let res := if String.eqb (str (gjsonGet t [Key "type"])) "function" then functionTool st t
             else if exists_ (gjsonGet t [Key "name"]) then directTool st t
             else (st, false) in
  (exists fnRaw, res = appendDeclaration st fnRaw) \/ fst res = st.
Proof.
  cbn zeta. destruct (String.eqb _ "function").
  - unfold functionTool.
    destruct (gjsonGet t [Key "function"]) as [[ | | | | | ms | ]|]; try (right; reflexivity).
    destruct (if exists_ _ then _ else _) as [fnRaw|]; [left; eauto | right; reflexivity].
  - destruct (exists_ _); [|right; reflexivity].
    unfold directTool. left. eauto.
Qed.

Lemma tool_ok st t :
  nodeOk st ->
  nodeOk (tool st t)
  /\ (exists extra, declared (tool st t) = declared st ++ extra)
  /\ (tsHasTool st = true -> tsHasTool (tool st t) = true).
Proof.
  intros Hok. rewrite tool_afterDeclaration.
  destruct (declaration_cases st t) as [[fnRaw E]|E]; cbn zeta in E.
  - rewrite E. destruct (appendDeclaration_ok st fnRaw Hok) as (_ & H2 & H3 & H4).
    destruct (afterDeclaration_ok t (appendDeclaration st fnRaw) H2) as (A1 & A2 & A3).
    split; [exact A1|]. split; [exists [fnRaw]; rewrite A2; exact H4|].
    intros _. apply A3, H3.
  - set (res := if String.eqb _ "function" then _ else _) in *.
    destruct (afterDeclaration_ok t res) as (A1 & A2 & A3); [rewrite E; exact Hok|].
    split; [exact A1|]. split; [exists []; rewrite A2, E, app_nil_r; reflexivity|].
    rewrite E in A3. exact A3.
Qed.

Lemma tools_ok ts : forall st,
  nodeOk st ->
  nodeOk (fold_left tool ts st)
  /\ (exists extra, declared (fold_left tool ts st) = declared st ++ extra)
  /\ (tsHasTool st = true -> tsHasTool (fold_left tool ts st) = true).
Proof.
  induction ts as [|t ts IH]; intros st Hok; cbn [fold_left].
  - split; [exact Hok|]. split; [exists []; rewrite app_nil_r; reflexivity | auto].
  - destruct (tool_ok st t Hok) as (H1 & [e1 H2] & H3).
    destruct (IH _ H1) as (I1 & [e2 I2] & I3).
    split; [exact I1|]. split; [exists (e1 ++ e2); rewrite I2, H2, app_assoc; reflexivity|].
    auto.
Qed.

Lemma updFirst_new k f x : forall ms,
  lookupKey k ms = None ->
  updFirst k f (ms ++ [(k, x)])
  = Some (match f x with Some x' => Some (ms ++ [(k, x')]) | None => None end).
Proof.
  induction ms as [|[k0 v0] ms IH]; cbn [app updFirst lookupKey].
  - intros _. rewrite String.eqb_refl. reflexivity.
  - destruct (String.eqb k k0); [discriminate|]. intros H. rewrite (IH H).
    destruct (f x); reflexivity.
Qed.

Lemma updFirst_none k f ms : lookupKey k ms = None -> updFirst k f ms = None.
Proof.
  intros H. pose proof (updFirst_spec k f ms) as Hspec.
  destruct (updFirst k f ms) as [[r|]|]; [| |reflexivity].
  - destruct Hspec as (x & _ & Hx & _). congruence.
  - destruct Hspec as (x & Hx & _). congruence.
Qed.

(** The schema of a function declared without parameters. *)
Definition defaultSchema : json :=
  JObj [("type", JStr "object"); ("properties", JObj [])].

Lemma setDefaultSchema_new ms :
  lookupKey schemaKey ms = None ->
  setDefaultSchema (JObj ms) = Some (JObj (ms ++ [(schemaKey, defaultSchema)])).
Proof.
  intros H. unfold setDefaultSchema.
  cbn [sjsonSet segKey]. rewrite (updFirst_none _ _ _ H). cbn [build].
  rewrite (updFirst_new schemaKey _ _ ms H). reflexivity.
Qed.

(** A tool of type [function] whose function has no [parameters] is
    declared with the default schema: an object without properties.  The
    declaration is the function object with [parametersJsonSchema] added and
    [strict] and [cache_control] taken out; it comes after the functions
    declared before it, and the functions declared after it leave it where
    it is.  The tools of the request are taken then. *)
Theorem function_without_parameters_gets_the_default_schema :
  forall (pre post : list json) (t : json) (ms : list (string * json)),
    str (gjsonGet t [Key "type"]) = "function" ->
    gjsonGet t [Key "function"] = Some (JObj ms) ->
    lookupKey "parameters" ms = None ->
    lookupKey schemaKey ms = None ->
    exists before after,
      declared (toolsNode (pre ++ t :: post))
      = before ++ stripUnsupported (JObj (ms ++ [(schemaKey, defaultSchema)])) :: after
      /\ declared (toolsNode pre) = before
      /\ gjsonGet (stripUnsupported (JObj (ms ++ [(schemaKey, defaultSchema)]))) [Key schemaKey]
         = Some defaultSchema
      /\ tsHasTool (toolsNode (pre ++ t :: post)) = true.
Proof.
  intros pre post t ms Htype Hfn Hpar Hschema.
  unfold toolsNode. rewrite fold_left_app. cbn [fold_left].
  assert (H0 : nodeOk (mkTools (JObj []) false false)).
  { split; [reflexivity | discriminate]. }
  destruct (tools_ok pre _ H0) as (H1 & _ & _).
  set (st1 := fold_left tool pre (mkTools (JObj []) false false)) in *.
  assert (Ht : tool st1 t
               = afterDeclaration t
                   (appendDeclaration st1
                      (stripUnsupported (JObj (ms ++ [(schemaKey, defaultSchema)]))))).
  { rewrite tool_afterDeclaration, Htype. cbn [String.eqb Ascii.eqb Bool.eqb].
    unfold functionTool. rewrite Hfn. cbn [gjsonGet getSeg segKey]. rewrite Hpar.
    cbn [exists_]. rewrite (setDefaultSchema_new ms Hschema). reflexivity. }
  destruct (appendDeclaration_ok st1
              (stripUnsupported (JObj (ms ++ [(schemaKey, defaultSchema)]))) H1)
    as (_ & A2 & A3 & A4).
  destruct (afterDeclaration_ok t _ A2) as (B1 & B2 & B3).
  rewrite <- Ht in B1, B2, B3.
  destruct (tools_ok post _ B1) as (_ & [extra C2] & C3).
  exists (declared st1), extra.
  split; [rewrite C2, B2, A4, <- app_assoc; reflexivity|].
  split; [reflexivity|]. split; [|apply C3, B3, A3].
  unfold stripUnsupported. cbn [sjsonDelete segKey gjsonGet getSeg].
  rewrite !lookupKey_removeFirst by discriminate.
  rewrite lookupKey_app, Hschema, String.eqb_refl. reflexivity.
Qed.

End Declarations.

Section StagesExamples.
#[local] Existing Instance Sample.sampleExternals.

Definition userMessage (text : string) : json :=
  JObj [("role", JStr "user"); ("content", JStr text)].

Definition systemMessage (text : string) : json :=
  JObj [("role", JStr "system"); ("content", JStr text)].

(** A request that names another model in its body. *)
Definition bodyWithModel : json :=
  JObj [("model", JStr "gpt-4o"); ("messages", JArr [userMessage "hi"])].

Lemma model_and_project_of_the_call_witness :
  gjsonGet (fst (ConvertOpenAIRequestToAntigravity "gemini-2.5-pro" bodyWithModel false
                   Sample.zeroRng)) [Key "model"]
  = Some (JStr "gemini-2.5-pro").
Proof.
  assert (H : plain "gemini-2.5-pro" (afterThinking "gemini-2.5-pro" bodyWithModel) = true)
    by (vm_compute; reflexivity).
  exact (proj1 (model_and_project_of_the_call "gemini-2.5-pro" bodyWithModel false
                  Sample.zeroRng H)).
Defined.

Definition bodyWithTemperature : json :=
  JObj [("temperature", JNum "0.5"); ("top_p", JStr "0.9")].

Lemma generation_numbers_are_copied_witness :
  gjsonGet (fst (ConvertOpenAIRequestToAntigravity "gemini-2.5-pro" bodyWithTemperature false
                   Sample.zeroRng)) (generationConfigPath "temperature")
  = Some (JNum "0.5").
Proof.
  assert (H : wellFormed (afterThinking "gemini-2.5-pro" bodyWithTemperature) = true)
    by (vm_compute; reflexivity).
  exact (generation_numbers_are_copied "gemini-2.5-pro" bodyWithTemperature false
           Sample.zeroRng "temperature" "temperature" H (or_introl eq_refl)).
Defined.









Definition loneSystem : json := JObj [("messages", JArr [systemMessage "be brief"])].

Lemma lone_system_message_is_a_user_message_witness :
  gjsonGet (fst (ConvertOpenAIRequestToAntigravity "gemini-2.5-pro" loneSystem false
                   Sample.zeroRng)) contentsPath
  = Some (JArr [mkNode "user" [JObj [("text", JStr "be brief")]]])
  /\ gjsonGet (fst (ConvertOpenAIRequestToAntigravity "gemini-2.5-pro" loneSystem false
                      Sample.zeroRng)) systemInstructionKeys
     = None.
Proof.
  assert (H : plain "gemini-2.5-pro" (afterThinking "gemini-2.5-pro" loneSystem) = true)
    by (vm_compute; reflexivity).
  exact (lone_system_message_is_a_user_message "gemini-2.5-pro" loneSystem false Sample.zeroRng
           (systemMessage "be brief") H eq_refl eq_refl).
Defined.

Definition twoSystems : json :=
  JObj [("messages", JArr [systemMessage "be brief"; systemMessage "be kind";
                           userMessage "hi"])].

Lemma last_system_message_wins_witness :
  gjsonGet (fst (ConvertOpenAIRequestToAntigravity "gemini-2.5-pro" twoSystems false
                   Sample.zeroRng)) (partText 0)
  = Some (JStr "be kind").
Proof.
  assert (H : plain "gemini-2.5-pro" (afterThinking "gemini-2.5-pro" twoSystems) = true)
    by (vm_compute; reflexivity).
  exact (proj2 (last_system_message_wins "gemini-2.5-pro" twoSystems false Sample.zeroRng
                  [systemMessage "be brief"] [userMessage "hi"] (systemMessage "be kind")
                  "be kind" H eq_refl eq_refl eq_refl eq_refl)).
Defined.

Definition bodyWithNullContent : json :=
  JObj [("messages", JArr [userMessage "hi";
                           JObj [("role", JStr "user"); ("content", JNull)]])].

Lemma message_without_content_gives_empty_parts_witness :
  exists before after,
    gjsonGet (fst (ConvertOpenAIRequestToAntigravity "gemini-2.5-pro" bodyWithNullContent false
                     Sample.zeroRng)) contentsPath
    = Some (JArr (before ++ mkNode "user" [] :: after))
    /\ length before <= 2.
Proof.
  assert (H : plain "gemini-2.5-pro" (afterThinking "gemini-2.5-pro" bodyWithNullContent)
              = true) by (vm_compute; reflexivity).
  exact (message_without_content_gives_empty_parts "gemini-2.5-pro" bodyWithNullContent false
           Sample.zeroRng [userMessage "hi"] []
           (JObj [("role", JStr "user"); ("content", JNull)]) H eq_refl eq_refl).
Defined.

(** A strict function without parameters. *)
Definition strictFunction : list (string * json) :=
  [("name", JStr "now"); ("strict", JBool true)].

Definition strictTool : json :=
  JObj [("type", JStr "function"); ("function", JObj strictFunction)].

Lemma function_without_parameters_gets_the_default_schema_witness :
  exists before after,
    declared (toolsNode ([] ++ strictTool :: []))
    = before ++ stripUnsupported (JObj (strictFunction ++ [(schemaKey, defaultSchema)])) :: after
    /\ declared (toolsNode []) = before
    /\ gjsonGet (stripUnsupported (JObj (strictFunction ++ [(schemaKey, defaultSchema)])))
                [Key schemaKey]
       = Some defaultSchema
    /\ tsHasTool (toolsNode ([] ++ strictTool :: [])) = true.
Proof.
  exact (function_without_parameters_gets_the_default_schema [] [] strictTool strictFunction
           eq_refl eq_refl eq_refl eq_refl).
Defined.

(** The declaration of that tool: the name and the default schema. *)
Example strict_function_declared :
  declared (toolsNode [strictTool])
  = [JObj [("name", JStr "now"); (schemaKey, defaultSchema)]].
Proof. vm_compute. reflexivity. Qed.

End StagesExamples.
End Stages.

(** * Properties of the usage pipeline *)

Module UsageFacts.
Import Usage.
Local Open Scope nat_scope.
Local Open Scope list_scope.

Section Ingress.
Context `{GT : GoTime}.

Definition dropWarning : event :=
  EvWarn "usage persistence: queue full, record dropped".

(** C6 (amended).  [HandleUsage] returns for every plugin and every record.
    The channel never holds more than 1000 requests.  While it has room the
    request of the record is put at its end and nothing is logged; when it is
    full the plugin is left as it was and one warning is logged.  The plugin
    keeps no count of the records it dropped. *)
Theorem C6_handle_usage_never_blocks :
  forall (p : SQLitePersistencePlugin) (record : UsageRecord),
    length (writeCh p) <= writeChCapacity ->
    length (writeCh (fst (HandleUsage p record))) <= writeChCapacity
    /\ (length (writeCh p) < writeChCapacity ->
        HandleUsage p record
        = (mkPlugin (store p) (writeCh p ++ [requestOf record]) (stopped p), []))
    /\ (length (writeCh p) = writeChCapacity ->
        HandleUsage p record = (p, [dropWarning])).
Proof.
  intros p record Hcap. unfold HandleUsage.
  destruct (Nat.ltb_spec (length (writeCh p)) writeChCapacity) as [Hlt|Hge].
  - cbn [fst writeCh]. rewrite length_app. cbn [length].
    split; [lia|]. split; [reflexivity | intros Heq; lia].
  - cbn [fst]. split; [exact Hcap|]. split; [intros Hlt; lia | reflexivity].
Qed.

End Ingress.

Section IngressExamples.
#[local] Existing Instance Sample.sampleTime.

Definition sampleRecord : UsageRecord :=
  mkRecord "test-provider" "test-model" "test-api-key" "test-source" "0"
           "2024-01-01T00:00:00Z" false (mkTokens 100 50 0 0 150).

(** A plugin whose channel is full. *)
Definition fullPlugin : SQLitePersistencePlugin :=
  mkPlugin (mkStore "usage.db") (repeat (requestOf sampleRecord) 1000) false.

Lemma C6_handle_usage_never_blocks_witness :
  length (writeCh fullPlugin) <= writeChCapacity
  /\ HandleUsage fullPlugin sampleRecord = (fullPlugin, [dropWarning]).
Proof.
  assert (H : length (writeCh fullPlugin) = writeChCapacity)
    by (vm_compute; reflexivity).
  split; [rewrite H; apply Nat.le_refl|].
  apply (C6_handle_usage_never_blocks fullPlugin sampleRecord);
    [rewrite H; apply Nat.le_refl | exact H].
Defined.

(** C6, as stated, fails: on a full channel the record is dropped and the
    plugin is exactly what it was, so nothing that is read off the plugin goes
    up by one.  The drop leaves a warning in the log and no count. *)
Lemma C6_no_dropped_counter :
  length (writeCh fullPlugin) = writeChCapacity
  /\ ~ (exists dropped : SQLitePersistencePlugin -> nat,
          dropped (fst (HandleUsage fullPlugin sampleRecord)) = S (dropped fullPlugin)).
Proof.
  split; [vm_compute; reflexivity|].
  intros [dropped H].
  assert (E : fst (HandleUsage fullPlugin sampleRecord) = fullPlugin)
    by (vm_compute; reflexivity).
  rewrite E in H. lia.
Qed.

End IngressExamples.

(** ** EnablePersistence *)

Section Enable.
Context `{GT : GoTime}.

(** The variables of the package: the plugin, the registry of
    [coreusage] and the statistics. *)
Definition globals (w : world)
  : option SQLitePersistencePlugin * list string * RequestStatistics :=
  (persistencePlugin w, registeredPlugins w, statistics w).

Lemma closeHandle_head p hs : closeHandle p (p :: hs) = hs.
Proof. cbn. rewrite String.eqb_refl. reflexivity. Qed.

Lemma NewSQLiteStore_globals path w w' res :
  NewSQLiteStore path w = (w', res) -> globals w' = globals w.
Proof.
  unfold NewSQLiteStore.
  destruct (fails _ FOpen); [intros [= <- <-]; reflexivity|].
  destruct (fails _ FPing); intros [= <- <-]; reflexivity.
Qed.

Lemma NewSQLiteStore_handles path w w' :
  (forall st, NewSQLiteStore path w = (w', inl st) ->
     st = mkStore path /\ openStores w' = path :: openStores w)
  /\ (forall err, NewSQLiteStore path w = (w', inr err) -> openStores w' = openStores w).
Proof.
  unfold NewSQLiteStore. split; intros x;
    destruct (fails _ FOpen); try (intros [= <- <-]; auto; fail); try discriminate;
    destruct (fails _ FPing); try (intros [= <- <-]; auto; fail); discriminate.
Qed.


Lemma Close_globals st w :
  globals (Close st w) = globals w
  /\ openStores (Close st w) = closeHandle (dbPath st) (openStores w).
Proof. split; reflexivity. Qed.

Lemma emitAll_fields es : forall w,
  globals (emitAll es w) = globals w
  /\ openStores (emitAll es w) = openStores w
  /\ files (emitAll es w) = files w
  /\ trace (emitAll es w) = trace w ++ es.
Proof.
  induction es as [|e es IH]; intros w; cbn.
  - rewrite app_nil_r. auto.
  - destruct (IH (emit e w)) as (H1 & H2 & H3 & H4).
    unfold emitAll in *. rewrite H1, H2, H3, H4. cbn. rewrite <- app_assoc. auto.
Qed.

(** The statistics after the details of [xs] are recorded, one by one. *)
Definition replay (xs : list (string * string * RequestDetail)) (s : RequestStatistics)
  : RequestStatistics :=
  fold_left (fun s x => recordDetail s (fst (fst x)) (snd (fst x)) (snd x)) xs s.

Definition recordEvents (xs : list (string * string * RequestDetail)) : list event :=
  List.map (fun x => EvRecordDetail (fst (fst x)) (snd (fst x)) (snd x)) xs.

Lemma merge_fields xs : forall w,
  persistencePlugin (fold_left mergeDetail xs w) = persistencePlugin w
  /\ registeredPlugins (fold_left mergeDetail xs w) = registeredPlugins w
  /\ openStores (fold_left mergeDetail xs w) = openStores w
  /\ files (fold_left mergeDetail xs w) = files w
  /\ statistics (fold_left mergeDetail xs w) = replay xs (statistics w)
  /\ trace (fold_left mergeDetail xs w) = trace w ++ recordEvents xs.
Proof.
  induction xs as [|[[a m] d] xs IH]; intros w; cbn [fold_left].
  - cbn. rewrite app_nil_r. auto 6.
  - destruct (IH (mergeDetail w (a, m, d))) as (H1 & H2 & H3 & H4 & H5 & H6).
    rewrite H1, H2, H3, H4, H5, H6. cbn. rewrite <- app_assoc. auto 6.
Qed.




End Enable.

(** ** LoadAll *)

Section Recovery.
Context `{GT : GoTime}.

Abbreviation records := (gmap string (gmap string (list RequestDetail))).













Definition lookupGroup (rs : records) (api model : string) : list RequestDetail :=
  default [] (default ∅ (rs !! api) !! model).










End Recovery.

(** ** Writing, closing and enabling again *)

Section RoundTrip.
Context `{GT : GoTime}.

Abbreviation records := (gmap string (gmap string (list RequestDetail))).
Abbreviation entry := (string * string * RequestDetail)%type.



















(** [InsertRecord] for each entry, in order. *)
Definition insertAll (st : SQLiteStore) (xs : list entry) (w : world) : world :=
  fold_left (fun w x => fst (InsertRecord st (fst (fst x)) (snd (fst x)) (snd x) w)) xs w.

(** Open the store, ensure the schema, insert the entries, close the store:
    what [TestEnablePersistence_LoadsExistingData] does first. *)
Definition writeAndClose (path : string) (xs : list entry) (w : world) : world :=
  match NewSQLiteStore path w with
  | (w1, inl st) =>
      match EnsureSchema st w1 with
      | (w2, None) => Close st (insertAll st xs w2)
      | (w2, Some _) => Close st w2
      end
  | (w1, inr _) => w1
  end.

Lemma fileAt_setFile path d w : fileAt path (setFile path d w) = d.
Proof. unfold fileAt, setFile. cbn [files]. rewrite lookup_insert_eq. reflexivity. Qed.














End RoundTrip.

Section UsageExamples.
#[local] Existing Instance Sample.sampleTime.

Abbreviation entry := (string * string * RequestDetail)%type.

(** A fresh process: no database file, no plugin, empty statistics. *)
Definition freshWorld : world := mkWorld ∅ [] None [] NewRequestStatistics [].

(** The three records of [TestEnablePersistence_LoadsExistingData]. *)
Definition threeEntries : list entry :=
  [("test-api", "test-model",
    mkDetail "2024-01-01T00:00:00Z" "test-source" "0" (mkTokens 100 50 0 0 150) false);
   ("test-api", "test-model",
    mkDetail "2024-01-01T00:01:00Z" "test-source" "0" (mkTokens 200 100 0 0 300) false);
   ("test-api", "test-model",
    mkDetail "2024-01-01T00:02:00Z" "test-source" "0" (mkTokens 300 150 0 0 450) false)].


(** The test itself: three requests and 900 tokens in total. *)
Example three_records_replayed :
  Snapshot (statistics (fst (EnablePersistence "usage.db"
              (writeAndClose "usage.db" threeEntries freshWorld))))
  = mkStats 3 (mkTokens 600 300 0 0 900).
Proof. vm_compute. reflexivity. Qed.

(** Rows out of order, one of them with a timestamp that does not parse. *)
Definition sampleRows : list row :=
  [mkRow "api" "m" "2024-01-02T00:00:00Z" "s" "0" 1 1 0 0 2 0;
   mkRow "api" "m" EmptyString "s" "0" 5 5 0 0 10 0;
   mkRow "api" "m" "2024-01-01T00:00:00Z" "s" "0" 2 2 0 0 4 1].

Definition sampleWorld : world :=
  mkWorld {[ "usage.db" := mkDb (Some sampleRows) true true None ]} [] None []
          NewRequestStatistics [].


(** What [LoadAll] returns for these rows: the two rows that parse, the
    earlier text first, and one warning. *)
Example load_sample_rows :
  exists rs warns,
    LoadAll (mkStore "usage.db") sampleWorld = inl (rs, warns)
    /\ lookupGroup rs "api" "m"
       = [mkDetail "2024-01-01T00:00:00Z" "s" "0" (mkTokens 2 2 0 0 4) true;
          mkDetail "2024-01-02T00:00:00Z" "s" "0" (mkTokens 1 1 0 0 2) false]
    /\ length warns = 1.
Proof. eexists _, _. split; [vm_compute; reflexivity|]. split; vm_compute; reflexivity. Qed.

(** A database that refuses to create the table: the error comes back, the
    store is closed and the plugin variable stays empty. *)
Definition brokenWorld : world :=
  mkWorld {[ "usage.db" := mkDb None false false (Some FCreateTable) ]} [] None []
          NewRequestStatistics [].

Example enable_fails_on_schema :
  snd (EnablePersistence "usage.db" brokenWorld) = Some "usage sqlite: create table"
  /\ persistencePlugin (fst (EnablePersistence "usage.db" brokenWorld)) = None
  /\ openStores (fst (EnablePersistence "usage.db" brokenWorld)) = []
  /\ trace (fst (EnablePersistence "usage.db" brokenWorld))
     = [EvOpen "usage.db"; EvClose "usage.db"].
Proof. repeat split; vm_compute; reflexivity. Qed.

(** Enabling twice: the second call is refused and changes nothing. *)
Example enable_twice :
  let w := fst (EnablePersistence "usage.db" freshWorld) in
  EnablePersistence "usage.db" w = (w, Some "usage persistence: already enabled").
Proof. vm_compute. reflexivity. Qed.

End UsageExamples.

End UsageFacts.

(** * The life cycle of the store and of the plugin

    What [EnsureSchema], [HandleUsage], the writer, [Stop] and
    [DisablePersistence] do beyond the properties above. *)

Module UsageLifecycle.
Import Usage UsageFacts.
Local Open Scope nat_scope.
Local Open Scope list_scope.

Section Schema.
Context `{GT : GoTime}.

Lemma setFile_twice p d w : setFile p d (setFile p d w) = setFile p d w.
Proof. unfold setFile. cbn [files openStores persistencePlugin registeredPlugins statistics trace].
  rewrite insert_insert_eq. reflexivity. Qed.

Lemma fileAt_setFile_other p q d w : q <> p -> fileAt q (setFile p d w) = fileAt q w.
Proof.
  intros H. unfold fileAt, setFile. cbn [files].
  rewrite lookup_insert_ne by congruence. reflexivity.
Qed.

(** [EnsureSchema] can be run again: every statement is [IF NOT EXISTS].  A
    second run after a successful one succeeds and changes nothing; the first
    run keeps the rows the table had and leaves every other database file
    alone. *)
Theorem EnsureSchema_idempotent :
  forall (st : SQLiteStore) (w w1 : world),
    EnsureSchema st w = (w1, None) ->
    EnsureSchema st w1 = (w1, None)
    /\ dbTable (fileAt (dbPath st) w1) = Some (default [] (dbTable (fileAt (dbPath st) w)))
    /\ dbTimestampIndex (fileAt (dbPath st) w1) = true
    /\ dbApiModelIndex (fileAt (dbPath st) w1) = true
    /\ (forall q, q <> dbPath st -> fileAt q w1 = fileAt q w).
Proof.
  intros st w w1. unfold EnsureSchema at 1.
  destruct (fails (fileAt (dbPath st) w) FCreateTable) eqn:E1; [discriminate|].
  destruct (fails (fileAt (dbPath st) w) FCreateTimestampIndex) eqn:E2; [discriminate|].
  destruct (fails (fileAt (dbPath st) w) FCreateApiModelIndex) eqn:E3; [discriminate|].
  intros [= <-]. cbn [dbTable dbTimestampIndex dbApiModelIndex dbFault].
  split; [|rewrite fileAt_setFile; cbn [dbTable dbTimestampIndex dbApiModelIndex];
           repeat split; intros q Hq; apply fileAt_setFile_other, Hq].
  unfold EnsureSchema. rewrite fileAt_setFile.
  unfold fails in *. cbn [dbFault dbTable dbTimestampIndex dbApiModelIndex].
  rewrite E1, E2, E3. cbn [default from_option id].
  rewrite setFile_twice. reflexivity.
Qed.

(** [EnsureSchema] is not atomic: when the database refuses an index, the
    error is returned and the table that was created before stays, with the
    rows it had. *)
Theorem EnsureSchema_keeps_table_on_index_error :
  forall (st : SQLiteStore) (w w1 : world) (err : string),
    EnsureSchema st w = (w1, Some err) ->
    String.eqb err "usage sqlite: create table" = false ->
    dbTable (fileAt (dbPath st) w1) = Some (default [] (dbTable (fileAt (dbPath st) w)))
    /\ dbApiModelIndex (fileAt (dbPath st) w1) = dbApiModelIndex (fileAt (dbPath st) w).
Proof.
  intros st w w1 err. unfold EnsureSchema.
  destruct (fails (fileAt (dbPath st) w) FCreateTable); [intros [= <- <-]; discriminate|].
  destruct (fails (fileAt (dbPath st) w) FCreateTimestampIndex);
    [intros [= <- <-] _; rewrite fileAt_setFile; split; reflexivity|].
  destruct (fails (fileAt (dbPath st) w) FCreateApiModelIndex);
    [intros [= <- <-] _; rewrite fileAt_setFile; split; reflexivity|].
  discriminate.
Qed.

End Schema.

Section Queue.
Context `{GT : GoTime}.

(** One call of [HandleUsage], with the log kept. *)
Definition handleStep (acc : SQLitePersistencePlugin * list event) (record : UsageRecord)
  : SQLitePersistencePlugin * list event :=
  let (p, evs) := HandleUsage (fst acc) record in (p, snd acc ++ evs).

(** [HandleUsage] for each record in turn, with no turn of the writer in
    between: the plugin at the end and everything that was logged. *)
Definition handleAll (p : SQLitePersistencePlugin) (records : list UsageRecord)
  : SQLitePersistencePlugin * list event :=
  fold_left handleStep records (p, []).

Lemma handleStep_room p evs record :
  length (writeCh p) < writeChCapacity ->
  handleStep (p, evs) record
  = (mkPlugin (store p) (writeCh p ++ [requestOf record]) (stopped p), evs).
Proof.
  intros H. unfold handleStep, HandleUsage. cbn [fst snd].
  destruct (Nat.ltb_spec (length (writeCh p)) writeChCapacity); [|lia].
  rewrite app_nil_r. reflexivity.
Qed.

Lemma handleStep_full p evs record :
  writeChCapacity <= length (writeCh p) ->
  handleStep (p, evs) record = (p, evs ++ [dropWarning]).
Proof.
  intros H. unfold handleStep, HandleUsage. cbn [fst snd].
  destruct (Nat.ltb_spec (length (writeCh p)) writeChCapacity); [lia|]. reflexivity.
Qed.

Lemma handleAll_from records : forall p evs,
  length (writeCh p) <= writeChCapacity ->
  writeCh (fst (fold_left handleStep records (p, evs)))
  = writeCh p ++ List.map requestOf (take (writeChCapacity - length (writeCh p)) records)
  /\ snd (fold_left handleStep records (p, evs))
     = evs ++ repeat dropWarning (length records - (writeChCapacity - length (writeCh p)))
  /\ store (fst (fold_left handleStep records (p, evs))) = store p
  /\ stopped (fst (fold_left handleStep records (p, evs))) = stopped p.
Proof.
  induction records as [|record records IH]; intros p evs Hcap.
  - cbn [fold_left fst snd length]. rewrite take_nil, !app_nil_r. auto.
  - cbn [fold_left].
    destruct (Nat.lt_ge_cases (length (writeCh p)) writeChCapacity) as [Hlt|Hge].
    + rewrite (handleStep_room _ _ _ Hlt).
      destruct (IH (mkPlugin (store p) (writeCh p ++ [requestOf record]) (stopped p)) evs)
        as (H1 & H2 & H3 & H4).
      { cbn [writeCh]. rewrite length_app. cbn [length]. lia. }
      rewrite H1, H2, H3, H4. cbn [writeCh store stopped].
      rewrite length_app. cbn [length].
      destruct (writeChCapacity - length (writeCh p)) as [|k] eqn:Ek; [lia|].
      replace (writeChCapacity - (length (writeCh p) + 1)) with k by lia.
      cbn [take List.map length Nat.sub]. rewrite <- !app_assoc. auto.
    + rewrite (handleStep_full _ _ _ Hge).
      destruct (IH p (evs ++ [dropWarning]) Hcap) as (H1 & H2 & H3 & H4).
      rewrite H1, H2, H3, H4.
      replace (writeChCapacity - length (writeCh p)) with 0 by lia.
      rewrite !take_0. cbn [List.map length]. rewrite !Nat.sub_0_r, <- app_assoc.
      cbn [repeat app]. auto.
Qed.

(** The channel is a bounded queue: of the records handled by a new plugin
    before the writer takes any, the first 1000 are queued in the order in
    which they came, and each of the others is dropped with one warning. *)
Theorem handleAll_keeps_first_1000 :
  forall (st : SQLiteStore) (records : list UsageRecord),
    writeCh (fst (handleAll (NewSQLitePersistencePlugin st) records))
    = List.map requestOf (take writeChCapacity records)
    /\ snd (handleAll (NewSQLitePersistencePlugin st) records)
       = repeat dropWarning (length records - writeChCapacity)
    /\ length (writeCh (fst (handleAll (NewSQLitePersistencePlugin st) records)))
       = Nat.min (length records) writeChCapacity.
Proof.
  intros st records. unfold handleAll.
  destruct (handleAll_from records (NewSQLitePersistencePlugin st) []) as (H1 & H2 & _).
  { cbn [NewSQLitePersistencePlugin writeCh length]. lia. }
  cbn [NewSQLitePersistencePlugin writeCh length app] in H1, H2.
  rewrite Nat.sub_0_r in H1, H2.
  split; [exact H1|]. split; [exact H2|].
  rewrite H1, length_map, length_take. lia.
Qed.

End Queue.

Section Writer.
Context `{GT : GoTime}.


(** The warning [InsertRecord] logs. *)
Definition insertWarning : event :=
  EvWarn "usage: failed to persist record to SQLite".

(** The inserts of the writer, one per request, in the order of the channel. *)
Definition drain (st : SQLiteStore) (q : list writeRequest) (w : world) : world :=
  fold_left (fun w req =>
               fst (InsertRecord st (wApiName req) (wModelName req) (wDetail req) w)) q w.

Lemma Stop_drain p w : Stop p w = (mkPlugin (store p) [] true, drain (store p) (writeCh p) w).
Proof. reflexivity. Qed.

Lemma drain_cons st req q w :
  drain st (req :: q) w
  = drain st q (fst (InsertRecord st (wApiName req) (wModelName req) (wDetail req) w)).
Proof. reflexivity. Qed.



(** The database refuses the insert: it has no table, or it fails the
    statement. *)
Definition insertFails (d : database) : bool :=
  match dbTable d with
  | Some _ => fails d FInsert
  | None => true
  end.

Lemma InsertRecord_failing st a m d w :
  insertFails (fileAt (dbPath st) w) = true ->
  InsertRecord st a m d w = (emit insertWarning w, Some "insert").
Proof.
  unfold insertFails, InsertRecord.
  destruct (dbTable (fileAt (dbPath st) w)); [intros ->|]; reflexivity.
Qed.

Lemma drain_failing st q : forall w,
  insertFails (fileAt (dbPath st) w) = true ->
  files (drain st q w) = files w
  /\ trace (drain st q w) = trace w ++ repeat insertWarning (length q)
  /\ globals (drain st q w) = globals w
  /\ openStores (drain st q w) = openStores w.
Proof.
  induction q as [|req q IH]; intros w Hf.
  - cbn [drain fold_left length repeat]. rewrite app_nil_r. auto.
  - rewrite drain_cons.
    rewrite (InsertRecord_failing st _ _ _ w Hf). cbn [fst].
    destruct (IH (emit insertWarning w)) as (H1 & H2 & H3 & H4); [exact Hf|].
    rewrite H1, H2, H3, H4. cbn [emit files trace length repeat openStores].
    rewrite <- app_assoc. auto.
Qed.

(** The writer drops the error of [InsertRecord] and goes on: on a database
    that refuses the inserts, [Stop] still empties the channel and returns;
    every queued request is lost, each with one warning, and the database is
    what it was. *)
Theorem Stop_loses_queue_on_insert_errors :
  forall (p : SQLitePersistencePlugin) (w : world),
    insertFails (fileAt (dbPath (store p)) w) = true ->
    writeCh (fst (Stop p w)) = []
    /\ stopped (fst (Stop p w)) = true
    /\ files (snd (Stop p w)) = files w
    /\ trace (snd (Stop p w)) = trace w ++ repeat insertWarning (length (writeCh p)).
Proof.
  intros p w Hf. rewrite Stop_drain. cbn [fst snd writeCh stopped].
  destruct (drain_failing (store p) (writeCh p) w Hf) as (H1 & H2 & _). auto.
Qed.

End Writer.

Section Disable.
Context `{GT : GoTime}.

Abbreviation records := (gmap string (gmap string (list RequestDetail))).

Lemma InsertRecord_keeps st a m d w :
  globals (fst (InsertRecord st a m d w)) = globals w
  /\ openStores (fst (InsertRecord st a m d w)) = openStores w.
Proof.
  unfold InsertRecord. destruct (dbTable _); [destruct (fails _ _)|]; split; reflexivity.
Qed.

Lemma drain_keeps st q : forall w,
  globals (drain st q w) = globals w /\ openStores (drain st q w) = openStores w.
Proof.
  induction q as [|req q IH]; intros w; [split; reflexivity|].
  rewrite drain_cons.
  destruct (IH (fst (InsertRecord st (wApiName req) (wModelName req) (wDetail req) w)))
    as [H1 H2].
  destruct (InsertRecord_keeps st (wApiName req) (wModelName req) (wDetail req) w)
    as [H3 H4].
  rewrite H1, H2, H3, H4. split; reflexivity.
Qed.

(** [DisablePersistence] does nothing while persistence is off.  While it is
    on, the queue is drained by [Stop] before the store is closed, the handle
    of the store is released and the plugin variable is emptied, so that
    [EnablePersistence] can be called again.  The statistics stay, and the
    plugin is not taken out of the registry of [coreusage]. *)
Theorem DisablePersistence_spec :
  forall (w : world),
    match persistencePlugin w with
    | None => DisablePersistence w = w
    | Some p =>
        persistencePlugin (DisablePersistence w) = None
        /\ DisablePersistence (DisablePersistence w) = DisablePersistence w
        /\ registeredPlugins (DisablePersistence w) = registeredPlugins w
        /\ statistics (DisablePersistence w) = statistics w
        /\ openStores (DisablePersistence w) = closeHandle (dbPath (store p)) (openStores w)
        /\ files (DisablePersistence w) = files (snd (Stop p w))
        /\ trace (DisablePersistence w)
           = trace (snd (Stop p w)) ++ [EvClose (dbPath (store p))]
    end.
Proof.
  intros w.
  destruct (persistencePlugin w) as [p|] eqn:Hp;
    [|unfold DisablePersistence; rewrite Hp; reflexivity].
  unfold DisablePersistence. rewrite Hp, Stop_drain.
  cbn [fst snd store Close emit persistencePlugin registeredPlugins statistics
       openStores files trace].
  destruct (drain_keeps (store p) (writeCh p) w) as [Hg Ho].
  unfold globals in Hg. inversion Hg as [[H1 H2 H3]].
  rewrite H2, H3, Ho. repeat split.
Qed.

(** On a database without faults that has its table, [EnablePersistence]
    succeeds; this is the process it leaves. *)
Lemma EnablePersistence_healthy_world path w rows ti ai :
  persistencePlugin w = None ->
  fileAt path w = mkDb (Some rows) ti ai None ->
  exists w',
    EnablePersistence path w = (w', None)
    /\ persistencePlugin w' = Some (NewSQLitePersistencePlugin (mkStore path))
    /\ registeredPlugins w' = registeredPlugins w ++ [path]
    /\ openStores w' = path :: openStores w
    /\ fileAt path w' = mkDb (Some rows) true true None
    /\ statistics w'
       = replay (rangeRecords (fst (fold_left loadRow (orderByTimestamp rows) (∅, []))))
                (statistics w)
    /\ trace w'
       = trace w ++ [EvOpen path]
         ++ snd (fold_left loadRow (orderByTimestamp rows) (∅, []))
         ++ recordEvents
              (rangeRecords (fst (fold_left loadRow (orderByTimestamp rows) (∅, []))))
         ++ [EvInfo "usage persistence: loaded records from database";
             EvRegisterPlugin path].
Proof.
  intros Hp Hf. unfold EnablePersistence. rewrite Hp.
  unfold NewSQLiteStore. rewrite Hf. cbn [fails dbFault].
  set (w1 := emit (EvOpen path) _).
  assert (Hf1 : fileAt path w1 = mkDb (Some rows) ti ai None).
  { unfold w1, fileAt. cbn [emit files setFile]. rewrite lookup_insert_eq. reflexivity. }
  unfold EnsureSchema. cbn [dbPath]. rewrite Hf1. cbn [fails dbFault dbTable default
    from_option id dbTimestampIndex dbApiModelIndex].
  set (w2 := setFile path _ w1).
  assert (Hf2 : fileAt path w2 = mkDb (Some rows) true true None)
    by apply fileAt_setFile.
  unfold LoadAll. cbn [dbPath]. rewrite Hf2. cbn [fails dbFault dbTable].
  destruct (fold_left loadRow (orderByTimestamp rows) (∅, [])) as [rs warns].
  eexists. split; [reflexivity|].
  destruct (emitAll_fields warns w2) as (He1 & He2 & He3 & He4).
  destruct (merge_fields (rangeRecords rs) (emitAll warns w2))
    as (Hm1 & Hm2 & Hm3 & Hm4 & Hm5 & Hm6).
  unfold globals in He1. inversion He1 as [[Hd1 Hd2 Hd3]].
  cbn [emit persistencePlugin registeredPlugins statistics openStores trace files fst snd].
  rewrite Hm2, Hm3, Hm5, Hm6, He2, He4, Hd2, Hd3.
  repeat split.
  - unfold fileAt. cbn [files]. rewrite Hm4, He3. exact Hf2.
  - unfold w2, w1. cbn [setFile emit trace]. rewrite <- !app_assoc. reflexivity.
Qed.

(** What one successful [EnablePersistence] logs for the rows of the table. *)
Definition enableEvents (path : string) (rows : list row) : list event :=
  [EvOpen path]
  ++ snd (fold_left loadRow (orderByTimestamp rows) (∅, []))
  ++ recordEvents (rangeRecords (fst (fold_left loadRow (orderByTimestamp rows) (∅, []))))
  ++ [EvInfo "usage persistence: loaded records from database"; EvRegisterPlugin path].

(** Persistence can be switched off and on again.  On a database without
    faults: [EnablePersistence] succeeds, [DisablePersistence] releases the
    handle it opened, and a second [EnablePersistence] succeeds too.  The
    second call loads the same rows and passes each of them to
    [recordDetail] once more, and it registers a second plugin; nothing takes
    the first one out of the registry. *)
Theorem enable_disable_enable :
  forall (path : string) (w : world) (rows : list row) (ti ai : bool),
    persistencePlugin w = None ->
    fileAt path w = mkDb (Some rows) ti ai None ->
    exists w1 w2,
      EnablePersistence path w = (w1, None)
      /\ openStores (DisablePersistence w1) = openStores w
      /\ EnablePersistence path (DisablePersistence w1) = (w2, None)
      /\ registeredPlugins w2 = registeredPlugins w ++ [path; path]
      /\ openStores w2 = path :: openStores w
      /\ trace w2
         = trace w ++ enableEvents path rows ++ [EvClose path] ++ enableEvents path rows.
Proof.
  intros path w rows ti ai Hp Hf.
  destruct (EnablePersistence_healthy_world path w rows ti ai Hp Hf)
    as (w1 & He1 & Hp1 & Hr1 & Ho1 & Hf1 & _ & Ht1).
  pose proof (DisablePersistence_spec w1) as Hd. rewrite Hp1 in Hd.
  destruct Hd as (Hdp & _ & Hdr & _ & Hdo & Hdf & Hdt).
  cbn [NewSQLitePersistencePlugin store dbPath Stop writeCh fold_left snd] in Hdo, Hdf, Hdt.
  rewrite Ho1, closeHandle_head in Hdo.
  destruct (EnablePersistence_healthy_world path (DisablePersistence w1) rows true true Hdp)
    as (w2 & He2 & _ & Hr2 & Ho2 & _ & _ & Ht2).
  { unfold fileAt. rewrite Hdf. exact Hf1. }
  exists w1, w2. split; [exact He1|]. split; [exact Hdo|]. split; [exact He2|].
  rewrite Hr2, Hdr, Hr1, Ho2, Hdo, Ht2, Hdt, Ht1. unfold enableEvents.
  rewrite <- !app_assoc. repeat split.
Qed.

End Disable.

Section Pipeline.
Context `{GT : GoTime}.

Abbreviation records := (gmap string (gmap string (list RequestDetail))).






End Pipeline.

Section LifecycleExamples.
#[local] Existing Instance Sample.sampleTime.

(** A database whose second index cannot be created. *)
Definition indexFaultWorld : world :=
  mkWorld {[ "usage.db" := mkDb (Some sampleRows) false false (Some FCreateApiModelIndex) ]}
          [] None [] NewRequestStatistics [].

(** A plugin with one request waiting. *)
Definition waitingPlugin : SQLitePersistencePlugin :=
  mkPlugin (mkStore "usage.db") [requestOf sampleRecord] false.

Lemma EnsureSchema_idempotent_witness :
  EnsureSchema (mkStore "usage.db") (fst (EnsureSchema (mkStore "usage.db") freshWorld))
  = (fst (EnsureSchema (mkStore "usage.db") freshWorld), None).
Proof.
  apply (EnsureSchema_idempotent (mkStore "usage.db") freshWorld).
  vm_compute. reflexivity.
Defined.

Lemma EnsureSchema_keeps_table_on_index_error_witness :
  dbTable (fileAt "usage.db" (fst (EnsureSchema (mkStore "usage.db") indexFaultWorld)))
  = Some sampleRows.
Proof.
  apply (EnsureSchema_keeps_table_on_index_error (mkStore "usage.db") indexFaultWorld
           (fst (EnsureSchema (mkStore "usage.db") indexFaultWorld))
           "usage sqlite: create api_model index");
    vm_compute; reflexivity.
Defined.


Lemma Stop_loses_queue_on_insert_errors_witness :
  files (snd (Stop waitingPlugin freshWorld)) = files freshWorld
  /\ trace (snd (Stop waitingPlugin freshWorld)) = [insertWarning].
Proof.
  assert (H : insertFails (fileAt (dbPath (store waitingPlugin)) freshWorld) = true)
    by (vm_compute; reflexivity).
  split; apply (Stop_loses_queue_on_insert_errors waitingPlugin freshWorld H).
Defined.

Lemma enable_disable_enable_witness :
  exists w1 w2,
    EnablePersistence "usage.db" sampleWorld = (w1, None)
    /\ openStores (DisablePersistence w1) = openStores sampleWorld
    /\ EnablePersistence "usage.db" (DisablePersistence w1) = (w2, None)
    /\ registeredPlugins w2 = registeredPlugins sampleWorld ++ ["usage.db"; "usage.db"]
    /\ openStores w2 = "usage.db" :: openStores sampleWorld
    /\ trace w2
       = trace sampleWorld ++ enableEvents "usage.db" sampleRows ++ [EvClose "usage.db"]
         ++ enableEvents "usage.db" sampleRows.
Proof.
  apply (enable_disable_enable "usage.db" sampleWorld sampleRows true true);
    vm_compute; reflexivity.
Defined.


End LifecycleExamples.
End UsageLifecycle.
